(** * asu-photo-web: the photo-timestamp pipeline of [app.py]

    A shallow embedding of the URL-to-timestamp resolution and
    interval-computation code of [app.py] (timestamp extraction, the
    memoising redirect resolver, column detection, interval formatting,
    the per-row orchestration and the two routes), followed by the
    properties its specification states about it.

    Python [str] values are sequences of Unicode code points; they are
    modelled as [list N].  The interpreter's Unicode tables ([\d] of [re],
    [int], [str.lower]) and the outside world ([requests.get], the HTML
    renderer of pandas, what depends on the version of pandas and on the C
    library) are parameters of the development. *)

From Stdlib Require Import ZArith NArith List Lia Bool String Ascii.
From stdpp Require Import base option list gmap.

Set Default Proof Using "Type*".

(** ** Python strings *)

Definition pystr : Type := list N.

Fixpoint bytes_of (s : string) : list N :=
  match s with
  | EmptyString => []
  | String a r => N_of_ascii a :: bytes_of r
  end.

(** UTF-8 decoding of the bytes of a literal; [need] counts the
    continuation bytes still expected and [acc] holds the bits read. *)
Fixpoint utf8_go (bs : list N) (need : nat) (acc : N) : pystr :=
  match bs with
  | [] => []
  | b :: r =>
      match need with
      | O =>
          if (b <? 128)%N then b :: utf8_go r 0 0%N
          else if (b <? 224)%N then utf8_go r 1 (b - 192)%N
          else if (b <? 240)%N then utf8_go r 2 (b - 224)%N
          else utf8_go r 3 (b - 240)%N
      | S O => (acc * 64 + (b - 128))%N :: utf8_go r 0 0%N
      | S n => utf8_go r n (acc * 64 + (b - 128))%N
      end
  end.

(** [u "text"] is the Python literal ["text"]. *)
Definition u (s : string) : pystr := utf8_go (bytes_of s) 0 0%N.

(** The empty string. *)
Definition empty_str : pystr := [].

(** [str.isspace] of one code point ([_PyUnicode_IsWhitespace]). *)
Definition is_space (c : N) : bool :=
  ((9 <=? c) && (c <=? 13) || (28 <=? c) && (c <=? 32)
   || (c =? 133) || (c =? 160) || (c =? 5760)
   || (8192 <=? c) && (c <=? 8202)
   || (c =? 8232) || (c =? 8233) || (c =? 8239) || (c =? 8287)
   || (c =? 12288))%N.

(** [s.lstrip(...)]: drop the longest prefix of characters satisfying [p]. *)
Fixpoint lstrip_by (p : N -> bool) (s : pystr) : pystr :=
  match s with
  | [] => []
  | c :: r => if p c then lstrip_by p r else s
  end.

Definition rstrip_by (p : N -> bool) (s : pystr) : pystr :=
  rev (lstrip_by p (rev s)).

(** [s.strip()] *)
Definition strip (s : pystr) : pystr := rstrip_by is_space (lstrip_by is_space s).

(** [s.lstrip("@")] *)
Definition at_sign : N := 64%N.
Definition lstrip_at (s : pystr) : pystr := lstrip_by (N.eqb at_sign) s.

(** [p] is a prefix of [s]: what remains after it. *)
Fixpoint strip_prefix (p s : pystr) : option pystr :=
  match p, s with
  | [], _ => Some s
  | a :: p', b :: s' => if (a =? b)%N then strip_prefix p' s' else None
  | _ :: _, [] => None
  end.

(** [needle in s] *)
Fixpoint contains (needle s : pystr) : bool :=
  match strip_prefix needle s with
  | Some _ => true
  | None => match s with [] => false | _ :: r => contains needle r end
  end.

(** ** The interpreter's Unicode tables *)

Definition ascii_lower (c : N) : N :=
  if ((65 <=? c) && (c <=? 90))%N then (c + 32)%N else c.

(** [decimal c] is the decimal value of [c] when [c] is a Unicode decimal
    digit (what [\d] matches in a [str] pattern, and what [int] reads);
    [lower] is [str.lower]. *)
Class Unicode := {
  decimal : N -> option Z;
  lower : pystr -> pystr
}.

(** On ASCII text [str.lower] maps [A-Z] to [a-z] and nothing else. *)
Definition lower_ascii_law `{Unicode} : Prop :=
  forall s, Forall (fun c => (c < 128)%N) s -> lower s = map ascii_lower s.

(** A table covering Basic Latin and the basic Cyrillic block, enough to
    run the code on the labels and URLs of the application. *)
Definition basic_decimal (c : N) : option Z :=
  if ((48 <=? c) && (c <=? 57))%N then Some (Z.of_N c - 48)%Z else None.

Definition basic_lower_cp (c : N) : N :=
  if ((65 <=? c) && (c <=? 90))%N then (c + 32)%N
  else if ((1040 <=? c) && (c <=? 1071))%N then (c + 32)%N
  else if ((1024 <=? c) && (c <=? 1039))%N then (c + 80)%N
  else c.

Definition basic_unicode : Unicode :=
  {| decimal := basic_decimal; lower := map basic_lower_cp |}.

(** ** Exceptions *)

(** The exceptions that occur, all of them subclasses of [Exception];
    [TransportError] stands for whatever [requests.get] raises. *)
Inductive pyexn :=
  | ValueError (msg : pystr)
  | KeyError (msg : pystr)
  | TransportError (msg : pystr).

Inductive result (A : Type) :=
  | Ok (a : A)
  | Raise (e : pyexn).
Arguments Ok {A} a.
Arguments Raise {A} e.

Definition rbind {A B} (r : result A) (k : A -> result B) : result B :=
  match r with
  | Ok a => k a
  | Raise e => Raise e
  end.

#[export] Instance result_bind : MBind result := fun A B k r => rbind r k.
#[export] Instance result_ret : MRet result := fun A a => Ok a.

(** [try: body  except ValueError: return None] *)
Definition except_ValueError {A} (body : result (option A)) : result (option A) :=
  match body with
  | Raise (ValueError _) => Ok None
  | other => other
  end.

(** ** [datetime.datetime] (naive, microsecond 0) *)

Record datetime := Datetime {
  year : Z; month : Z; day : Z; hour : Z; minute : Z; second : Z
}.

Definition is_leap (y : Z) : bool :=
  ((y mod 4 =? 0) && (negb (y mod 100 =? 0) || (y mod 400 =? 0)))%Z.

Definition days_in_month (y m : Z) : Z :=
  if (m =? 2)%Z then (if is_leap y then 29 else 28)%Z
  else if ((m =? 4) || (m =? 6) || (m =? 9) || (m =? 11))%Z then 30%Z
  else 31%Z.

(** The field checks of the constructor, in its order. *)
Definition valid_date (y m d : Z) : bool :=
  ((1 <=? y) && (y <=? 9999) && (1 <=? m) && (m <=? 12)
   && (1 <=? d) && (d <=? days_in_month y m))%Z.

Definition valid_time (h mi s : Z) : bool :=
  ((0 <=? h) && (h <=? 23) && (0 <=? mi) && (mi <=? 59)
   && (0 <=? s) && (s <=? 59))%Z.

(** [dt.datetime(year, month, day, hour, minute, second)] *)
Definition datetime_new (y m d h mi s : Z) : result datetime :=
  if negb (valid_date y m d) then Raise (ValueError (u "date field out of range"))
  else if negb (valid_time h mi s) then Raise (ValueError (u "time field out of range"))
  else Ok (Datetime y m d h mi s).

Definition days_before_year (y : Z) : Z :=
  let p := (y - 1)%Z in (p * 365 + p / 4 - p / 100 + p / 400)%Z.

Fixpoint days_before_month_aux (y : Z) (k : nat) : Z :=
  match k with
  | O => 0%Z
  | S k' => (days_before_month_aux y k' + days_in_month y (Z.of_nat k))%Z
  end.

(** Days of the year [y] that precede the first day of month [m]. *)
Definition days_before_month (y m : Z) : Z :=
  days_before_month_aux y (Z.to_nat (m - 1)).

(** [d.toordinal()]: 1 for 0001-01-01. *)
Definition toordinal (d : datetime) : Z :=
  (days_before_year (year d) + days_before_month (year d) (month d) + day d)%Z.

(** [datetime.timedelta], normalised: [0 <= td_seconds < 86400]. *)
Record timedelta := Timedelta { td_days : Z; td_seconds : Z }.

Definition timedelta_new (days seconds : Z) : timedelta :=
  Timedelta (days + seconds / 86400)%Z (seconds mod 86400)%Z.

(** [a - b] on two datetimes *)
Definition datetime_sub (a b : datetime) : timedelta :=
  let secs1 := (second a + minute a * 60 + hour a * 3600)%Z in
  let secs2 := (second b + minute b * 60 + hour b * 3600)%Z in
  timedelta_new (toordinal a - toordinal b) (secs1 - secs2).

(** [delta.total_seconds()].  With microseconds 0 the float it returns is
    a whole number below 2^53, so it and its floor quotient by 60 are
    exact; both are kept as integers. *)
Definition total_seconds (t : timedelta) : Z :=
  (td_days t * 86400 + td_seconds t)%Z.

(** ** Python values found in cells and column labels *)

(** [VFloat z] is the [float] whose value is the whole number [z] (the
    floats this code meets are whole minutes, far below [2^53]); [VNaT] is
    the missing timestamp of pandas; [VDatetime] stands for a
    [datetime.datetime] and for the [Timestamp] pandas makes of it. *)
Inductive value :=
  | VNone
  | VNaN
  | VNaT
  | VInt (z : Z)
  | VFloat (z : Z)
  | VStr (s : pystr)
  | VDatetime (d : datetime).

Definition is_None (v : value) : bool :=
  match v with VNone => true | _ => false end.

(** [str(z)] for an [int] *)
Definition digit_char (d : Z) : N := Z.to_N (48 + d).

(** The decimal digits of [n >= 0], most significant first; [fuel] bounds
    their number. *)
Fixpoint digits_of (fuel : nat) (n : Z) : pystr :=
  match fuel with
  | O => []
  | S f =>
      if (n <? 10)%Z then [digit_char n]
      else digits_of f (n / 10) ++ [digit_char (n mod 10)]
  end.

Definition str_of_nonneg (n : Z) : pystr :=
  digits_of (S (Z.to_nat (Z.log2 n))) n.

Definition str_of_Z (z : Z) : pystr :=
  if (z <? 0)%Z then 45%N :: str_of_nonneg (- z) else str_of_nonneg z.

(** Two-or-more digit zero padding, [%02d] / [%04d]. *)
Definition zero_pad (width : nat) (z : Z) : pystr :=
  let s := str_of_Z z in
  repeat 48%N (width - length s) ++ s.

(** What follows the year in [YYYY-MM-DD HH:MM:SS]. *)
Definition month_to_second (d : datetime) : pystr :=
  u "-" ++ zero_pad 2 (month d) ++ u "-" ++ zero_pad 2 (day d)
  ++ u " " ++ zero_pad 2 (hour d) ++ u ":" ++ zero_pad 2 (minute d) ++ u ":"
  ++ zero_pad 2 (second d).

(** [str(d)] for a [datetime]: [d.isoformat(sep=" ")], the year always with
    four digits. *)
Definition isoformat (d : datetime) : pystr :=
  zero_pad 4 (year d) ++ month_to_second d.

(** [str(v)] *)
Definition py_str (v : value) : pystr :=
  match v with
  | VNone => u "None"
  | VNaN => u "nan"
  | VNaT => u "NaT"
  | VInt z => str_of_Z z
  | VFloat z => str_of_Z z ++ u ".0"
  | VStr s => s
  | VDatetime d => isoformat d
  end.

(** ** [extract_datetime_from_string] *)

Section Extract.
Context `{Unicode}.

Definition is_decimal (c : N) : bool :=
  match decimal c with Some _ => true | None => false end.

(** [int(s)] on a string of decimal digits; anything else is a
    [ValueError] here ([int] is only applied to slices of digit groups). *)
Fixpoint int_digits (acc : Z) (s : pystr) : result Z :=
  match s with
  | [] => Ok acc
  | c :: r =>
      match decimal c with
      | Some v => int_digits (acc * 10 + v)%Z r
      | None => Raise (ValueError (u "invalid literal for int()"))
      end
  end.

Definition py_int (s : pystr) : result Z :=
  match s with
  | [] => Raise (ValueError (u "invalid literal for int()"))
  | _ => int_digits 0%Z s
  end.

(** [s[a:b]] *)
Definition slice (a b : nat) (s : pystr) : pystr := take (b - a) (drop a s).

(** [\d{n}] at the head of [s]: the digits and what follows them. *)
Fixpoint take_digits (n : nat) (s : pystr) : option (pystr * pystr) :=
  match n with
  | O => Some ([], s)
  | S n' =>
      match s with
      | c :: r =>
          if is_decimal c then
            match take_digits n' r with
            | Some (ds, rest) => Some (c :: ds, rest)
            | None => None
            end
          else None
      | [] => None
      end
  end.

Definition marker : pystr := Eval vm_compute in u "saved-".
Definition underscore : N := 95%N.

(** [saved-(\d{8})_(\d{6})] anchored at the head of [s]: groups 1 and 2. *)
Definition match_here (s : pystr) : option (pystr * pystr) :=
  match strip_prefix marker s with
  | None => None
  | Some r1 =>
      match take_digits 8 r1 with
      | None => None
      | Some (date_part, r2) =>
          match strip_prefix [underscore] r2 with
          | None => None
          | Some r3 =>
              match take_digits 6 r3 with
              | None => None
              | Some (time_part, _) => Some (date_part, time_part)
              end
          end
      end
  end.

(** [re.search(r"saved-(\d{8})_(\d{6})", s)]: the leftmost match. *)
Fixpoint re_search (s : pystr) : option (pystr * pystr) :=
  match match_here s with
  | Some g => Some g
  | None => match s with [] => None | _ :: r => re_search r end
  end.

Definition extract_datetime_from_string (s : value) : result (option datetime) :=
  match s with
  | VStr s =>
      match re_search s with
      | None => Ok None
      | Some (date_part, time_part) =>
          except_ValueError (
            year ← py_int (slice 0 4 date_part);
            month ← py_int (slice 4 6 date_part);
            day ← py_int (slice 6 8 date_part);
            hour ← py_int (slice 0 2 time_part);
            minute ← py_int (slice 2 4 time_part);
            second ← py_int (slice 4 6 time_part);
            d ← datetime_new year month day hour minute second;
            Ok (Some d))
      end
  | _ => Ok None
  end.

End Extract.

(** ** [format_interval] and the interval of one row *)

Definition format_interval (minutes : option Z) : pystr :=
  match minutes with
  | None => empty_str
  | Some minutes =>
      if (minutes <? 0)%Z then u "ошибка"
      else if (minutes <? 60)%Z then str_of_Z minutes ++ u " мин"
      else
        let hours := (minutes / 60)%Z in
        let mins := (minutes mod 60)%Z in
        if (mins =? 0)%Z then str_of_Z hours ++ u " ч"
        else str_of_Z hours ++ u " ч " ++ str_of_Z mins ++ u " мин"
  end.

(** The branch of the row loop of [process_dataframe] that turns the two
    resolved timestamps into what is appended to [interval_minutes_raw]
    and to [interval_strs]. *)
Definition row_interval (dt_before dt_after : option datetime) : option Z * pystr :=
  match dt_before, dt_after with
  | Some dt_before, Some dt_after =>
      let delta := datetime_sub dt_after dt_before in
      let minutes := (total_seconds delta / 60)%Z in
      if (minutes <? 0)%Z then (None, u "ошибка")
      else (Some minutes, format_interval (Some minutes))
  | _, _ => (None, empty_str)
  end.

(** ** Data frames *)

#[export] Instance datetime_eq_dec : EqDecision datetime.
Proof. solve_decision. Defined.

#[export] Instance value_eq_dec : EqDecision value.
Proof. solve_decision. Defined.

Inductive dtype := DObject | DInt64 | DFloat64 | DBool | DDatetime64.

Record series := Series { dtype_of : dtype; values : list value }.

(** A frame: the length of its index and its columns, each a label with
    its series.  Labels are any Python objects; in a frame they are
    pairwise distinct and every series has [nrows] values ([frame_wf]). *)
Record frame := Frame { nrows : nat; columns : list (value * series) }.

Definition labels (df : frame) : list value := map fst (columns df).

Definition frame_wf (df : frame) : Prop :=
  NoDup (labels df)
  /\ Forall (fun cs => length (values (snd cs)) = nrows df) (columns df).

(** [pd.api.types.is_object_dtype(series)] *)
Definition is_object_dtype (s : series) : bool :=
  match dtype_of s with DObject => true | _ => false end.

Fixpoint lookup_col (cols : list (value * series)) (c : value) : option series :=
  match cols with
  | [] => None
  | (c', s) :: rest => if decide (c' = c) then Some s else lookup_col rest c
  end.

(** [df[c]] for one label *)
Definition getitem (df : frame) (c : value) : result series :=
  match lookup_col (columns df) c with
  | Some s => Ok s
  | None => Raise (KeyError (py_str c))
  end.

Fixpoint replace_col (cols : list (value * series)) (c : value) (s : series)
  : list (value * series) :=
  match cols with
  | [] => []
  | (c', s') :: rest =>
      if decide (c' = c) then (c', s) :: rest else (c', s') :: replace_col rest c s
  end.

(** [df[c] = s], where [s] is the series pandas has made of the right-hand
    side: an existing column keeps its place, a new one goes last; the
    values must be as many as the index is long. *)
Definition setitem (df : frame) (c : value) (s : series) : result frame :=
  if negb (length (values s) =? nrows df)%nat
  then Raise (ValueError (u "Length of values does not match length of index"))
  else
    match lookup_col (columns df) c with
    | Some _ => Ok (Frame (nrows df) (replace_col (columns df) c s))
    | None => Ok (Frame (nrows df) (columns df ++ [(c, s)]))
    end.

(** [df[cs]] for a list of labels *)
Fixpoint select_cols (df : frame) (cs : list value) : result (list (value * series)) :=
  match cs with
  | [] => Ok []
  | c :: rest =>
      s ← getitem df c;
      more ← select_cols df rest;
      Ok ((c, s) :: more)
  end.

Definition select (df : frame) (cs : list value) : result frame :=
  cols ← select_cols df cs; Ok (Frame (nrows df) cols).

(** [df.head(n)] *)
Definition head (n : nat) (df : frame) : frame :=
  Frame (Nat.min n (nrows df))
        (map (fun cs => (fst cs, Series (dtype_of (snd cs)) (take n (values (snd cs)))))
             (columns df)).

(** [df.drop(columns=[c])] *)
Definition drop_column (df : frame) (c : value) : result frame :=
  match lookup_col (columns df) c with
  | None => Raise (KeyError (py_str c))
  | Some _ =>
      Ok (Frame (nrows df) (filter (fun cs => fst cs <> c) (columns df)))
  end.

(** The rows yielded by [df.iterrows()], each one a mapping from label to
    cell, and [row.get(c)]. *)
Definition row : Type := list (value * value).

Definition iterrows (df : frame) : list row :=
  map (fun i => map (fun cs => (fst cs, nth i (values (snd cs)) VNaN)) (columns df))
      (seq 0 (nrows df)).

Fixpoint row_get (r : row) (c : value) : value :=
  match r with
  | [] => VNone
  | (c', v) :: rest => if decide (c' = c) then v else row_get rest c
  end.

(** ** [detect_photo_columns] *)

Section Detect.
Context `{Unicode}.

(** [str(c).strip().lower()] *)
Definition header_key (c : value) : pystr := lower (strip (py_str c)).

(** [{str(c).strip().lower(): c for c in df.columns}] *)
Definition cols_lower (cols : list value) : gmap pystr value :=
  fold_left (fun m c => <[header_key c := c]> m) cols ∅.

(** [d.get(k)] *)
Definition dict_get (d : gmap pystr value) (k : pystr) : value :=
  default VNone (d !! k).

Definition photo_before : pystr := Eval vm_compute in u "фото до".
Definition photo_after : pystr := Eval vm_compute in u "фото после".

(** [series.astype(str).str.contains("saved-", na=False).any()] *)
Definition contains_saved (s : series) : bool :=
  existsb (fun v => contains marker (py_str v)) (values s).

(** The [for col in df.columns] loop of the fallback; [df[col]] is the
    series that goes with [col]. *)
Fixpoint scan_candidates (cols : list (value * series)) (candidate_cols : list value)
  : list value :=
  match cols with
  | [] => candidate_cols
  | (col, series) :: rest =>
      if negb (is_object_dtype series) then scan_candidates rest candidate_cols
      else
        let candidate_cols :=
          if contains_saved series then candidate_cols ++ [col] else candidate_cols in
        if (2 <=? length candidate_cols)%nat then candidate_cols
        else scan_candidates rest candidate_cols
  end.

Definition detect_photo_columns (df : frame) : value * value :=
  let cols_lower := cols_lower (labels df) in
  let before_col := dict_get cols_lower photo_before in
  let after_col := dict_get cols_lower photo_after in
  if negb (is_None before_col) && negb (is_None after_col)
  then (before_col, after_col)
  else
    let candidate_cols := scan_candidates (columns df) [] in
    if (length candidate_cols <? 2)%nat then (VNone, VNone)
    else (nth 0 candidate_cols VNone, nth 1 candidate_cols VNone).

End Detect.

(** ** The outside world and the state of the process *)

(** [requests_get n url] stands for
    [requests.get(url, allow_redirects=True, timeout=15).url]: the final
    URL, or the exception the call raised, and the network afterwards.
    [to_html] is the table renderer of pandas with the arguments of the
    call in [process_dataframe].

    The other fields are what the installed pandas and C library decide.
    [datetime64_fits d]: the timestamp can be held in a [datetime64]
    column (at nanosecond resolution only the years 1678 to 2261 can, at
    microsecond resolution every [datetime] can).  [empty_dtype]: the
    dtype of a column assigned from an empty list.  [text_dtype]: the
    dtype of a column of [str] ([object], or [str]).  [strftime_Y y]: what
    [strftime] writes for [%Y] (the C library pads a year below 1000 with
    zeros, or does not). *)
Class Outside := {
  Net : Type;
  requests_get : Net -> pystr -> Net * result pystr;
  to_html : frame -> pystr;
  datetime64_fits : datetime -> bool;
  empty_dtype : dtype;
  text_dtype : dtype;
  strftime_Y : Z -> pystr
}.

(** Every C library writes a year of four digits as these four digits. *)
Definition strftime_Y_law `{Outside} : Prop :=
  forall y, (1000 <= y <= 9999)%Z -> strftime_Y y = str_of_Z y.

(** [x.strftime("%Y-%m-%d %H:%M:%S")] *)
Definition strftime `{Outside} (d : datetime) : pystr :=
  strftime_Y (year d) ++ month_to_second d.

(** References to frames are positions in the heap. *)
Abbreviation loc := nat (only parsing).

(** [cache] is [_url_datetime_cache]; [heap] holds the frames by
    reference; [fetched] records, oldest first, the URLs handed to
    [requests.get]. *)
Record world `{Outside} := World {
  cache : gmap pystr (option datetime);
  net : Net;
  fetched : list pystr;
  heap : list frame
}.

(** The process as it starts: the cache empty, nothing fetched yet. *)
Definition world0 `{Outside} (n : Net) (frames : list frame) : world :=
  {| cache := ∅; net := n; fetched := []; heap := frames |}.

Section Pipeline.
Context `{Unicode} `{Outside}.

Definition M (A : Type) : Type := world -> result A * world.

Definition ret {A} (a : A) : M A := fun w => (Ok a, w).

Definition bind {A B} (m : M A) (k : A -> M B) : M B :=
  fun w =>
    match m w with
    | (Ok a, w') => k a w'
    | (Raise e, w') => (Raise e, w')
    end.

Definition raise {A} (e : pyexn) : M A := fun w => (Raise e, w).

Definition lift {A} (r : result A) : M A := fun w => (r, w).

Notation "'do' x <- m ; k" := (bind m (fun x => k))
  (at level 10, x name, m at level 100, k at level 200, only parsing).
Notation "'do' ' p <- m ; k" := (bind m (fun x => match x with p => k end))
  (at level 10, p pattern, m at level 100, k at level 200, only parsing).

(** *** [get_datetime_from_url] *)

(** The guard of the first line: a [str] whose [strip()] is not empty. *)
Definition is_nonblank_str (raw_url : value) : bool :=
  match raw_url with
  | VStr s => match strip s with [] => false | _ => true end
  | _ => false
  end.

(** [raw_url.strip().lstrip("@")] *)
Definition normalize_url (raw_url : pystr) : pystr := lstrip_at (strip raw_url).

(** The [try] block: fetch, read the final URL, extract; [except
    Exception] turns whatever was raised into [None]. *)
Definition fetch_datetime (url : pystr) (n : Net) : option datetime * Net :=
  let '(n', resp) := requests_get n url in
  match resp with
  | Ok final_url =>
      match extract_datetime_from_string (VStr final_url) with
      | Ok dt_obj => (dt_obj, n')
      | Raise _ => (None, n')
      end
  | Raise _ => (None, n')
  end.

Definition get_datetime_from_url (raw_url : value) : M (option datetime) :=
  fun w =>
    match raw_url with
    | VStr s =>
        if negb (is_nonblank_str raw_url) then (Ok None, w)
        else
          let url := normalize_url s in
          match cache w !! url with
          | Some cached => (Ok cached, w)
          | None =>
              let '(dt_obj, n') := fetch_datetime url (net w) in
              (Ok dt_obj,
               {| cache := <[url := dt_obj]> (cache w);
                  net := n';
                  fetched := fetched w ++ [url];
                  heap := heap w |})
          end
    | _ => (Ok None, w)
    end.

(** *** [process_dataframe] *)

Definition col_before : value := Eval vm_compute in VStr (u "Дата_время_до").
Definition col_after : value := Eval vm_compute in VStr (u "Дата_время_после").
Definition col_interval : value := Eval vm_compute in VStr (u "Интервал_мин").
Definition col_raw : value := Eval vm_compute in VStr (u "interval_minutes_raw").

Definition detection_error : pyexn :=
  ValueError (u "Не найдены два столбца со ссылками на фото (столбцы 'Фото ДО' и 'Фото ПОСЛЕ').").

(** The four lists filled by the row loop. *)
Record row_lists := RowLists {
  before_dates : list (option datetime);
  after_dates : list (option datetime);
  interval_minutes_raw : list (option Z);
  interval_strs : list pystr
}.

Definition row_body (before_col after_col : value) (r : row) (a : row_lists)
  : M row_lists :=
  let before_val := row_get r before_col in
  let after_val := row_get r after_col in
  do dt_before <- get_datetime_from_url before_val;
  do dt_after <- get_datetime_from_url after_val;
  let '(minutes, label) := row_interval dt_before dt_after in
  ret {| before_dates := before_dates a ++ [dt_before];
         after_dates := after_dates a ++ [dt_after];
         interval_minutes_raw := interval_minutes_raw a ++ [minutes];
         interval_strs := interval_strs a ++ [label] |}.

Fixpoint for_rows (before_col after_col : value) (rows : list row) (a : row_lists)
  : M row_lists :=
  match rows with
  | [] => ret a
  | r :: rest =>
      do a' <- row_body before_col after_col r a;
      for_rows before_col after_col rest a'
  end.

Definition of_datetime (d : option datetime) : value :=
  match d with Some d => VDatetime d | None => VNone end.

Definition of_int (z : option Z) : value :=
  match z with Some z => VInt z | None => VNone end.

(** *** Columns assigned from Python lists

    [df[c] = lst] hands the list to pandas, which picks a dtype for the
    column and converts the objects to it. *)

Definition is_absent {A} (x : option A) : bool :=
  match x with None => true | Some _ => false end.

Definition is_present {A} (x : option A) : bool := negb (is_absent x).

(** A cell of a [datetime64] column: [None] has become [NaT]. *)
Definition to_timestamp (d : option datetime) : value :=
  match d with Some d => VDatetime d | None => VNaT end.

(** A cell of a [float64] column: [None] has become [nan], an [int] the
    [float] of the same value. *)
Definition to_float (z : option Z) : value :=
  match z with Some z => VFloat z | None => VNaN end.

Definition fits (d : option datetime) : bool :=
  match d with Some d => datetime64_fits d | None => true end.

(** The list holds a [datetime], and all it holds fit: pandas makes a
    [datetime64] column of it. *)
Definition is_datetime64 (l : list (option datetime)) : bool :=
  existsb is_present l && forallb fits l.

(** The column made of a list of [datetime] and [None].  A list of [None]
    only stays a column of objects, and so does a list with a [datetime]
    that does not fit. *)
Definition datetime_column (l : list (option datetime)) : series :=
  match l with
  | [] => Series empty_dtype []
  | _ =>
      if is_datetime64 l then Series DDatetime64 (map to_timestamp l)
      else Series DObject (map of_datetime l)
  end.

(** The column made of a list of [int] and [None]: [int64] without a
    [None], objects with nothing but [None], and [float64] otherwise. *)
Definition minutes_column (l : list (option Z)) : series :=
  match l with
  | [] => Series empty_dtype []
  | _ =>
      if forallb is_absent l then Series DObject (map of_int l)
      else if forallb is_present l then Series DInt64 (map of_int l)
      else Series DFloat64 (map to_float l)
  end.

(** The column made of a list of [str]. *)
Definition text_column (l : list pystr) : series :=
  match l with
  | [] => Series empty_dtype []
  | _ => Series text_dtype (map VStr l)
  end.

(** Reading and updating a frame through its reference. *)
Definition empty_frame : frame := Frame 0 [].

Definition deref (l : loc) : M frame :=
  fun w => (Ok (default empty_frame (heap w !! l)), w).

(** [df.copy()] *)
Definition copy (df : frame) : M loc :=
  fun w =>
    (Ok (length (heap w)),
     {| cache := cache w; net := net w; fetched := fetched w;
        heap := heap w ++ [df] |}).

(** [df[c] = s] on the frame at [l] *)
Definition setitem_at (l : loc) (c : value) (s : series) : M unit :=
  fun w =>
    match setitem (default empty_frame (heap w !! l)) c s with
    | Ok df' =>
        (Ok tt,
         {| cache := cache w; net := net w; fetched := fetched w;
            heap := <[l := df']> (heap w) |})
    | Raise e => (Raise e, w)
    end.

Definition nat_error : pyexn := ValueError (u "NaTType does not support strftime").

(** [lambda x: x.strftime("%Y-%m-%d %H:%M:%S") if isinstance(x, dt.datetime) else ...]
    with the empty string in the [else] branch.  [NaT] is an instance of
    [datetime] too, and its [strftime] raises. *)
Definition format_cell (x : value) : result value :=
  match x with
  | VDatetime d => Ok (VStr (strftime d))
  | VNaT => Raise nat_error
  | _ => Ok (VStr (empty_str))
  end.

(** [series.apply(f)] on the values: [f] is called on one cell after the
    other, and the first exception ends the call. *)
Fixpoint apply_values (f : value -> result value) (vals : list value)
  : result (list value) :=
  match vals with
  | [] => Ok []
  | x :: rest =>
      y ← f x;
      ys ← apply_values f rest;
      Ok (y :: ys)
  end.

(** [preview_df[col] = preview_df[col].apply(format_cell)]: the new column
    is a column of text; an empty column is handed back as it is. *)
Definition format_column (preview_df : frame) (col : value) : result frame :=
  s ← getitem preview_df col;
  vals ← apply_values format_cell (values s);
  setitem preview_df col
    (Series (match vals with [] => dtype_of s | _ => text_dtype end) vals).

(** The preview frame as it is handed to [to_html], and the list of raw
    minutes taken from it. *)
Definition build_preview (df : frame) (before_col after_col : value)
  : result (frame * list value) :=
  let cols_to_show := [before_col; after_col; col_before; col_after; col_interval] in
  selected ← select df (cols_to_show ++ [col_raw]);
  let preview_df := head 15 selected in
  preview_df ← format_column preview_df col_before;
  preview_df ← format_column preview_df col_after;
  raw ← getitem preview_df col_raw;
  let interval_list := values raw in
  preview_df ← drop_column preview_df col_raw;
  Ok (preview_df, interval_list).

(** What [process_dataframe] returns; [preview_df] is not returned by the
    code: it is the frame that [to_html] rendered into [preview_html]. *)
Record output := Output {
  df_processed : loc;
  out_before_col : value;
  out_after_col : value;
  preview_html : pystr;
  interval_list : list value;
  preview_df : frame
}.

Definition process_dataframe (df : loc) : M output :=
  do input <- deref df;
  let '(before_col, after_col) := detect_photo_columns input in
  if is_None before_col || is_None after_col then raise detection_error
  else
    do df <- copy input;
    do copied <- deref df;
    do lists <- for_rows before_col after_col (iterrows copied) (RowLists [] [] [] []);
    do _ <- setitem_at df col_before (datetime_column (before_dates lists));
    do _ <- setitem_at df col_after (datetime_column (after_dates lists));
    do _ <- setitem_at df col_interval (text_column (interval_strs lists));
    do _ <- setitem_at df col_raw (minutes_column (interval_minutes_raw lists));
    do augmented <- deref df;
    do '(preview_df, interval_list) <- lift (build_preview augmented before_col after_col);
    ret (Output df before_col after_col (to_html preview_df) interval_list preview_df).

End Pipeline.

(** ** Vocabulary of the specification *)

Section Vocabulary.
Context `{Unicode}.

(** [rest] begins with the marker, an 8-digit date token [D], an
    underscore and a 6-digit time token [T]. *)
Definition stamp_at (rest D T : pystr) : Prop :=
  exists post,
    rest = marker ++ D ++ [underscore] ++ T ++ post
    /\ length D = 8 /\ length T = 6
    /\ Forall (fun c => is_decimal c = true) D
    /\ Forall (fun c => is_decimal c = true) T.

(** The pattern occurs in [s] right after the prefix [pre]. *)
Definition occurs_at (s pre D T : pystr) : Prop :=
  exists rest, s = pre ++ rest /\ stamp_at rest D T.

(** ... and nowhere further to the left. *)
Definition first_occurrence (s pre D T : pystr) : Prop :=
  occurs_at s pre D T
  /\ forall pre' D' T', occurs_at s pre' D' T' -> length pre <= length pre'.

(** The number written by two and by four decimal digits. *)
Definition two (a b : Z) : Z := (10 * a + b)%Z.
Definition four (a b c d : Z) : Z := (1000 * a + 100 * b + 10 * c + d)%Z.

(** The last column whose header, trimmed and lowercased, is [k]. *)
Definition last_labelled (k : pystr) (cols : list value) : option value :=
  last (filter (fun c => header_key c = k) cols).

(** The columns the fallback looks for: textual, with the marker in some
    value. *)
Definition qualifies (cs : value * series) : bool :=
  is_object_dtype (snd cs) && contains_saved (snd cs).

Definition qualifying (cols : list (value * series)) : list value :=
  map fst (filter (fun cs => qualifies cs = true) cols).

(** The test that sends [detect_photo_columns] to its fallback: one of
    the two exact headers was not found. *)
Definition exact_pass_fails (df : frame) : Prop :=
  is_None (dict_get (cols_lower (labels df)) photo_before)
  || is_None (dict_get (cols_lower (labels df)) photo_after) = true.

End Vocabulary.

Section ResolverVocabulary.
Context `{Unicode} `{Outside}.

(** The cache key of a raw cell value that passes the guard of
    [get_datetime_from_url]. *)
Definition key_of (raw_url : value) : option pystr :=
  match raw_url with
  | VStr s => if is_nonblank_str raw_url then Some (normalize_url s) else None
  | _ => None
  end.

(** The world after a sequence of calls of [get_datetime_from_url]. *)
Definition run_calls (raws : list value) (w : world) : world :=
  fold_left (fun w raw => snd (get_datetime_from_url raw w)) raws w.

(** Every URL that was fetched has an entry in the cache, and none was
    fetched twice. *)
Definition fetched_once (w : world) : Prop :=
  NoDup (fetched w) /\ forall k, k ∈ fetched w -> is_Some (cache w !! k).

End ResolverVocabulary.

(** The cells of column [c] of [df], top to bottom. *)
Definition column_values (df : frame) (c : value) : list value :=
  match lookup_col (columns df) c with
  | Some s => values s
  | None => []
  end.

(** The labels [process_dataframe] adds to the dataset. *)
Definition derived_labels : list value :=
  [col_before; col_after; col_interval; col_raw].

(** A timestamp as the preview shows it. *)
Definition render_timestamp `{Outside} (d : option datetime) : value :=
  match d with
  | Some d => VStr (strftime d)
  | None => VStr (empty_str)
  end.

(** The four lists of the row loop all have [n] entries. *)
Definition lists_length (n : nat) (lists : row_lists) : Prop :=
  length (before_dates lists) = n /\ length (after_dates lists) = n
  /\ length (interval_minutes_raw lists) = n /\ length (interval_strs lists) = n.

(** The normalisation as the specification words it: trim, then remove at
    most one leading ['@']. *)
Definition strip_one_at (s : pystr) : pystr :=
  match s with
  | c :: r => if (c =? at_sign)%N then r else s
  | [] => []
  end.

Definition spec_normalize (raw_url : pystr) : pystr := strip_one_at (strip raw_url).

(** Seconds from the start of day 0 of the proleptic calendar. *)
Definition epoch_seconds (d : datetime) : Z :=
  (toordinal d * 86400 + hour d * 3600 + minute d * 60 + second d)%Z.

(** ** A small world to run the code in *)

(** The network answers from a fixed table of redirects and fails on every
    other URL; the renderer lists the labels of the frame.  The rest is
    pandas 2 on a C library that does not pad the year. *)
Fixpoint assoc (tbl : list (pystr * pystr)) (k : pystr) : option pystr :=
  match tbl with
  | [] => None
  | (k', v) :: rest => if decide (k' = k) then Some v else assoc rest k
  end.

Definition table_outside (tbl : list (pystr * pystr)) : Outside := {|
  Net := unit;
  requests_get := fun n url =>
    match assoc tbl url with
    | Some final_url => (n, Ok final_url)
    | None => (n, Raise (TransportError (u "connection failed")))
    end;
  to_html := fun df => concat (map (fun c => py_str c ++ u ";") (labels df));
  datetime64_fits := fun d => (1678 <=? year d)%Z && (year d <=? 2261)%Z;
  empty_dtype := DFloat64;
  text_dtype := DObject;
  strftime_Y := str_of_Z
|}.

(** Sample data: a table of redirects and three datasets. *)
Definition demo_redirects : list (pystr * pystr) :=
  [(u "http://a/1", u "http://cdn/saved-20240101_100000.jpg");
   (u "http://a/2", u "http://cdn/saved-20240101_104500.jpg");
   (u "http://a/3", u "http://cdn/saved-20240101_093000.jpg")].

(** Headers in another case and padded with blanks, and two other textual
    columns, placed first, that carry the marker. *)
Definition demo_headers : frame :=
  Frame 2
    [(VStr (u "link a"), Series DObject [VStr (u "x/saved-1"); VStr (u "x/saved-2")]);
     (VStr (u "link b"), Series DObject [VStr (u "y/saved-1"); VStr (u "y/saved-2")]);
     (VStr (u " Фото ДО "), Series DObject [VStr (u "http://a/1"); VStr (u "http://down/9")]);
     (VStr (u "ФОТО после"), Series DObject [VStr (u "http://a/2"); VStr (u "http://a/2")])].

Definition demo_no_headers : frame :=
  Frame 2
    [(VStr (u "id"), Series DInt64 [VInt 1; VInt 2]);
     (VStr (u "note"), Series DObject [VStr (u "ok"); VNaN]);
     (VStr (u "first"), Series DObject [VNaN; VStr (u "http://cdn/saved-20240101_100000.jpg")]);
     (VStr (u "second"), Series DObject [VStr (u "http://cdn/saved-20240101_104500.jpg"); VNaN]);
     (VStr (u "third"), Series DObject [VStr (u "saved-"); VStr (u "saved-")])].

(** Every photo resolves; in the second row the after photo is the older
    one. *)
Definition demo_resolved : frame :=
  Frame 2
    [(VStr (u "Фото ДО"), Series DObject [VStr (u "http://a/1"); VStr (u "@http://a/2")]);
     (VStr (u "Фото ПОСЛЕ"), Series DObject [VStr (u "http://a/2"); VStr (u "http://a/3")])].

Definition demo_world : @world (table_outside demo_redirects) :=
  @world0 (table_outside demo_redirects) tt [demo_headers].

Definition demo_resolved_world : @world (table_outside demo_redirects) :=
  @world0 (table_outside demo_redirects) tt [demo_resolved].

(** ** Vocabulary of the further properties *)

(** A calendar date and time as [datetime.datetime] accepts it. *)
Definition valid_datetime (d : datetime) : bool :=
  valid_date (year d) (month d) (day d) && valid_time (hour d) (minute d) (second d).

Section PipelineVocabulary.
Context `{Unicode} `{Outside}.

(** What the cache of [w] answers for a raw cell value: nothing for a value
    without a key or a key without an entry. *)
Definition cached (w : world) (raw : value) : option datetime :=
  match key_of raw with
  | Some k => default None (cache w !! k)
  | None => None
  end.

(** Every entry of the cache of [w] is in the cache of [w'], unchanged. *)
Definition cache_le (w w' : world) : Prop :=
  forall k v, cache w !! k = Some v -> cache w' !! k = Some v.

(** Every timestamp in the cache is a calendar date and time. *)
Definition cache_valid (w : world) : Prop :=
  forall k d, cache w !! k = Some (Some d) -> valid_datetime d = true.

(** The four lists of the row loop, read off a cache that has an entry for
    every cell of the two photo columns. *)
Definition resolved_lists (w : world) (b a : value) (rows : list row) : row_lists :=
  {| before_dates := map (fun r => cached w (row_get r b)) rows;
     after_dates := map (fun r => cached w (row_get r a)) rows;
     interval_minutes_raw :=
       map (fun r => fst (row_interval (cached w (row_get r b)) (cached w (row_get r a)))) rows;
     interval_strs :=
       map (fun r => snd (row_interval (cached w (row_get r b)) (cached w (row_get r a)))) rows |}.

(** The world [w] with another heap. *)
Definition with_heap (w : world) (h : list frame) : world :=
  {| cache := cache w; net := net w; fetched := fetched w; heap := h |}.

(** The key of some cell of the two photo columns. *)
Definition cell_key (b a : value) (rows : list row) (k : pystr) : Prop :=
  exists r c, r ∈ rows /\ (c = b \/ c = a) /\ key_of (row_get r c) = Some k.

(** The cells the row loop hands to [get_datetime_from_url], in its order. *)
Definition photo_cells (b a : value) (rows : list row) : list value :=
  flat_map (fun r => [row_get r b; row_get r a]) rows.

(** The world the row loop leaves when it starts in [w], and the four
    lists it has filled then. *)
Definition after_loop (w : world) (b a : value) (rows : list row) : world :=
  run_calls (photo_cells b a rows) w.

Definition loop_lists (w : world) (b a : value) (rows : list row) : row_lists :=
  resolved_lists (after_loop w b a rows) b a rows.

(** The column made of [l] is a [datetime64] column with a [NaT] among its
    first 15 cells. *)
Definition nat_shown (l : list (option datetime)) : bool :=
  is_datetime64 l && existsb is_absent (take 15 l).

(** One of the two timestamp columns the row loop builds from [w] shows a
    [NaT] in the preview. *)
Definition preview_fails (w : world) (b a : value) (rows : list row) : bool :=
  nat_shown (before_dates (loop_lists w b a rows))
  || nat_shown (after_dates (loop_lists w b a rows)).

(** The cell that the entry [d] of the list [l] becomes in the column made
    of [l], for timestamps and for minutes. *)
Definition datetime_cell (l : list (option datetime)) (d : option datetime) : value :=
  if is_datetime64 l then to_timestamp d else of_datetime d.

Definition minutes_cell (l : list (option Z)) (z : option Z) : value :=
  if forallb is_absent l || forallb is_present l then of_int z else to_float z.

(** The preview that is rendered for the lists of the row loop on a
    dataset of [n] rows whose photo columns are [sb] and [sa], when it is
    rendered, and the list of raw minutes that goes with it. *)
Definition expected_preview (n : nat) (b a : value) (sb sa : series) (lists : row_lists)
  : frame :=
  Frame (Nat.min 15 n)
    [(b, Series (dtype_of sb) (take 15 (values sb)));
     (a, Series (dtype_of sa) (take 15 (values sa)));
     (col_before,
      Series (match map render_timestamp (take 15 (before_dates lists)) with
              | [] => dtype_of (datetime_column (before_dates lists))
              | _ => text_dtype
              end)
        (map render_timestamp (take 15 (before_dates lists))));
     (col_after,
      Series (match map render_timestamp (take 15 (after_dates lists)) with
              | [] => dtype_of (datetime_column (after_dates lists))
              | _ => text_dtype
              end)
        (map render_timestamp (take 15 (after_dates lists))));
     (col_interval,
      Series (dtype_of (text_column (interval_strs lists)))
        (take 15 (map VStr (interval_strs lists))))].

Definition expected_intervals (lists : row_lists) : list value :=
  take 15 (map (minutes_cell (interval_minutes_raw lists)) (interval_minutes_raw lists)).

(** The four assignments of [process_dataframe], in its order. *)
Definition augmented (input : frame) (lists : row_lists) : result frame :=
  f1 ← setitem input col_before (datetime_column (before_dates lists));
  f2 ← setitem f1 col_after (datetime_column (after_dates lists));
  f3 ← setitem f2 col_interval (text_column (interval_strs lists));
  setitem f3 col_raw (minutes_column (interval_minutes_raw lists)).

End PipelineVocabulary.

(** ** The routes [index] and [download_result] *)

(** [s.endswith(suffix)] *)
Definition endswith (suffix s : pystr) : bool :=
  match strip_prefix (rev suffix) (rev s) with
  | Some _ => true
  | None => false
  end.

Definition dot : N := 46%N.

(** On a reversed string: what stands after its first ['.'], if it has one. *)
Fixpoint after_dot (r : pystr) : option pystr :=
  match r with
  | [] => None
  | c :: rest => if (c =? dot)%N then Some rest else after_dot rest
  end.

(** [s.rsplit(".", 1)[0]]: the text before the last ['.'], or all of [s]. *)
Definition rsplit_dot_head (s : pystr) : pystr :=
  match after_dot (rev s) with
  | Some rest => rev rest
  | None => s
  end.

(** [filename.rsplit(".", 1)[0] + "_обработанный.xlsx"] *)
Definition processed_suffix : pystr := Eval vm_compute in u "_обработанный.xlsx".
Definition processed_name (filename : pystr) : pystr :=
  rsplit_dot_head filename ++ processed_suffix.

(** An entry of [request.files]: the name the client sent, if any, and the
    bytes of the file.  It is truthy when the name is not empty. *)
Record file_storage := FileStorage {
  fs_filename : option pystr;
  fs_content : list N
}.

Definition file_storage_bool (f : file_storage) : bool :=
  match fs_filename f with
  | Some (_ :: _) => true
  | _ => false
  end.

(** What a view reads of the request: the method and [request.files.get("file")]. *)
Record request := Request {
  req_method : pystr;
  req_file : option file_storage
}.

(** The targets of [url_for] and the responses of the two views. *)
Inductive endpoint := EIndex | EDownload.

Inductive response :=
  | RenderIndex (preview_html : option pystr) (download_url : option endpoint)
  | RedirectTo (target : endpoint)
  | SendFile (content : list N) (download_name : pystr).

(** An [io.BytesIO]: its bytes, and whether it has been closed.  The
    application keeps one such object and hands the same object to every
    download. *)
Record buffer := Buffer {
  buf_bytes : list N;
  buf_closed : bool
}.

(** [app.config["LAST_PROCESSED_FILE"]], [app.config["LAST_PROCESSED_NAME"]]
    and the messages handed to [flash], oldest first (their display by the
    template is not modelled). *)
Record app_config := AppConfig {
  last_file : option buffer;
  last_name : option pystr;
  flashes : list pystr
}.

Definition flash (msg : pystr) (ap : app_config) : app_config :=
  {| last_file := last_file ap; last_name := last_name ap;
     flashes := flashes ap ++ [msg] |}.

(** [read_excel engine bytes] stands for [pd.read_excel(BytesIO(bytes),
    engine=...)] and [to_excel df] for the bytes [df.to_excel(output,
    index=False, engine="openpyxl")] writes; both may raise.
    [other_exn_text] is [str(exc)] for the exceptions that are not a
    [ValueError]. *)
Class Spreadsheet := {
  read_excel : option pystr -> list N -> result frame;
  to_excel : frame -> result (list N);
  other_exn_text : pyexn -> pystr
}.

(** Whether the server, once it has sent the response of [send_file],
    closes the file that response wraps. *)
Class Server := {
  closes_sent_file : bool
}.

Definition msg_choose_file : pystr := Eval vm_compute in u "Пожалуйста, выберите Excel-файл.".
Definition msg_only_excel : pystr :=
  Eval vm_compute in u "Поддерживаются только файлы .xlsx и .xls".
Definition msg_error_prefix : pystr := Eval vm_compute in u "Ошибка обработки файла: ".
Definition msg_no_result : pystr :=
  Eval vm_compute in u "Нет обработанного файла. Сначала загрузите и обработайте Excel.".
Definition ext_xlsx : pystr := Eval vm_compute in u ".xlsx".
Definition ext_xls : pystr := Eval vm_compute in u ".xls".
Definition method_get : pystr := Eval vm_compute in u "GET".
Definition default_name : pystr := Eval vm_compute in u "result.xlsx".

(** The message of the success flash, with the two column labels. *)
Definition msg_success (before_col after_col : value) : pystr :=
  u "Файл успешно обработан. Найдены столбцы: '" ++ py_str before_col
  ++ u "' (до), '" ++ py_str after_col ++ u "' (после).".

(** [output.seek(0)] on a closed [BytesIO] *)
Definition closed_file_error : pyexn := ValueError (u "I/O operation on closed file.").

Section Routes.
Context `{Unicode} `{Outside} `{Spreadsheet} `{Server}.

(** [str(exc)] *)
Definition exn_str (e : pyexn) : pystr :=
  match e with
  | ValueError msg => msg
  | other => other_exn_text other
  end.

(** [filename.lower().endswith(".xlsx") or filename.lower().endswith(".xls")] *)
Definition allowed_file (filename : pystr) : bool :=
  endswith ext_xlsx (lower filename) || endswith ext_xls (lower filename).

(** The engine named in the call of [pd.read_excel]: ["openpyxl"] for an
    [.xlsx] name, none for the others. *)
Definition excel_engine (filename : pystr) : option pystr :=
  if endswith ext_xlsx (lower filename) then Some (u "openpyxl") else None.

(** The [try] block of [index]: read the sheet, which gives a new frame,
    and process it. *)
Definition read_and_process (filename : pystr) (file_bytes : list N) (w : world)
  : result output * world :=
  match read_excel (excel_engine filename) file_bytes with
  | Raise e => (Raise e, w)
  | Ok df => process_dataframe (length (heap w)) (with_heap w (heap w ++ [df]))
  end.

(** What [index] saves: a copy of the processed frame without the
    [interval_minutes_raw] column, should it have one. *)
Definition frame_to_save (df_processed : frame) : result frame :=
  if bool_decide (col_raw ∈ labels df_processed)
  then drop_column df_processed col_raw
  else Ok df_processed.

Definition index (req : request) (w : world) (ap : app_config)
  : result response * (world * app_config) :=
  if bool_decide (req_method req = method_get)
  then (Ok (RenderIndex None None), (w, ap))
  else
    match req_file req with
    | None => (Ok (RedirectTo EIndex), (w, flash msg_choose_file ap))
    | Some uploaded =>
        if negb (file_storage_bool uploaded)
        then (Ok (RedirectTo EIndex), (w, flash msg_choose_file ap))
        else
          let filename := default [] (fs_filename uploaded) in
          if negb (allowed_file filename)
          then (Ok (RedirectTo EIndex), (w, flash msg_only_excel ap))
          else
            match read_and_process filename (fs_content uploaded) w with
            | (Raise exc, w') =>
                (Ok (RedirectTo EIndex), (w', flash (msg_error_prefix ++ exn_str exc) ap))
            | (Ok out, w') =>
                let saved :=
                  df_to_save ← frame_to_save (default empty_frame (heap w' !! df_processed out));
                  to_excel df_to_save in
                match saved with
                | Raise e => (Raise e, (w', ap))
                | Ok output =>
                    (Ok (RenderIndex (Some (preview_html out)) (Some EDownload)),
                     (w',
                      flash (msg_success (out_before_col out) (out_after_col out))
                        {| last_file := Some (Buffer output false);
                           last_name := Some (processed_name filename);
                           flashes := flashes ap |}))
                end
            end
    end.

Definition download_result (ap : app_config) : result response * app_config :=
  match last_file ap with
  | None => (Ok (RedirectTo EIndex), flash msg_no_result ap)
  | Some output =>
      if buf_closed output then (Raise closed_file_error, ap)
      else (Ok (SendFile (buf_bytes output) (default default_name (last_name ap))), ap)
  end.

(** The stored file, closed. *)
Definition close_stored (ap : app_config) : app_config :=
  {| last_file :=
       match last_file ap with
       | Some output => Some (Buffer (buf_bytes output) true)
       | None => None
       end;
     last_name := last_name ap;
     flashes := flashes ap |}.

(** What a client does: a request to [/] or a request to [/download]. *)
Inductive action :=
  | Visit (req : request)
  | Download.

(** One request served: the world and the configuration it leaves behind,
    whether the view returned or raised.  A file that was sent is the
    stored object itself, so closing it closes the stored file. *)
Definition serve (st : world * app_config) (a : action) : world * app_config :=
  match a with
  | Visit req => snd (index req (fst st) (snd st))
  | Download =>
      match download_result (snd st) with
      | (Ok (SendFile _ _), ap) =>
          (fst st, if closes_sent_file then close_stored ap else ap)
      | (_, ap) => (fst st, ap)
      end
  end.

(** A session: requests served one after the other. *)
Definition session (acts : list action) (st : world * app_config) : world * app_config :=
  foldl serve st acts.

End Routes.

(** The application as it starts: nothing processed, nothing flashed. *)
Definition app0 : app_config := {| last_file := None; last_name := None; flashes := [] |}.

(** What is stored is stored whole: a file together with the name
    [index] built for it; and only a server that closes what it sends has
    closed it. *)
Definition stored_whole `{Server} (ap : app_config) : Prop :=
  match last_file ap, last_name ap with
  | None, None => True
  | Some output, Some name =>
      (exists filename, name = processed_name filename)
      /\ (buf_closed output = true -> closes_sent_file = true)
  | _, _ => False
  end.

(** A sample spreadsheet library: the one-byte file [1] holds the sample
    dataset with headers, [3] the one whose photos all resolve, [2] a sheet
    without photo columns, every other file is refused; a saved file lists
    the labels of its frame. *)
Definition demo_sheets : Spreadsheet := {|
  read_excel := fun _ file_bytes =>
    if decide (file_bytes = [1%N]) then Ok demo_headers
    else if decide (file_bytes = [3%N]) then Ok demo_resolved
    else if decide (file_bytes = [2%N]) then
      Ok (Frame 1 [(VStr (u "a"), Series DObject [VStr (u "saved-x")]);
                   (VStr (u "b"), Series DObject [VStr (u "nothing")])])
    else Raise (ValueError (u "Excel file format cannot be determined"));
  to_excel := fun df => Ok (concat (map py_str (labels df)));
  other_exn_text := fun e =>
    match e with
    | ValueError msg | KeyError msg | TransportError msg => msg
    end
|}.

(** A server that closes what it has sent. *)
Definition closing_server : Server := {| closes_sent_file := true |}.

(** A POST request that uploads [file_bytes] under the name [filename]. *)
Definition demo_upload (filename : pystr) (file_bytes : list N) : request :=
  Request (u "POST") (Some (FileStorage (Some filename) file_bytes)).

(** * Properties *)

(** ** Strings and the pattern *)

Lemma strip_prefix_Some p s r : strip_prefix p s = Some r <-> s = p ++ r.
Proof.
  revert s. induction p as [|a p IH]; intros s; simpl.
  - split; [intros [= ->]; reflexivity | intros ->; reflexivity].
  - destruct s as [|b s]; [split; [discriminate | intros [=]]|].
    destruct (N.eqb_spec a b) as [->|Hne].
    + rewrite IH. split; [intros ->; reflexivity | intros [= ->]; reflexivity].
    + split; [discriminate | intros [= ? ?]; congruence].
Qed.

Section ExtractFacts.
Context `{Unicode}.

Lemma take_digits_Some n s ds rest :
  take_digits n s = Some (ds, rest)
  <-> s = ds ++ rest /\ length ds = n /\ Forall (fun c => is_decimal c = true) ds.
Proof.
  revert s ds rest. induction n as [|n IH]; intros s ds rest; simpl.
  - split.
    + intros [= <- <-]. repeat split. constructor.
    + intros (-> & Hlen & _). destruct ds; [reflexivity | discriminate].
  - destruct s as [|c r].
    + split; [discriminate|]. intros (Hs & Hlen & _).
      destruct ds; [discriminate | discriminate].
    + destruct (is_decimal c) eqn:Hc.
      * destruct (take_digits n r) as [[ds' rest']|] eqn:Htd.
        -- apply IH in Htd as (-> & Hlen & Hall). split.
           ++ intros [= <- <-]. repeat split; [simpl; lia | constructor; assumption].
           ++ intros (Hs & Hl & Hd). destruct ds as [|c' ds]; [discriminate|].
              simpl in Hs. injection Hs as <- Hs. injection Hl as Hl.
              assert (Hlen' : length ds' = length ds) by lia.
              apply app_inj_1 in Hs as [-> ->]; [reflexivity | assumption].
        -- split; [discriminate|]. intros (Hs & Hl & Hd).
           destruct ds as [|c' ds]; [discriminate|].
           simpl in Hs. injection Hs as <- Hs. injection Hl as Hl.
           inversion Hd; subst.
           assert (Hsome : take_digits (length ds) (ds ++ rest) = Some (ds, rest)).
           { apply IH. repeat split; assumption. }
           rewrite Hsome in Htd. discriminate.
      * split; [discriminate|]. intros (Hs & Hl & Hd).
        destruct ds as [|c' ds]; [discriminate|].
        simpl in Hs. injection Hs as <- Hs. inversion Hd; subst. congruence.
Qed.

Lemma match_here_Some s D T : match_here s = Some (D, T) <-> stamp_at s D T.
Proof.
  unfold match_here, stamp_at. split.
  - destruct (strip_prefix marker s) as [r1|] eqn:H1; [|discriminate].
    destruct (take_digits 8 r1) as [[dp r2]|] eqn:H2; [|discriminate].
    destruct (strip_prefix [underscore] r2) as [r3|] eqn:H3; [|discriminate].
    destruct (take_digits 6 r3) as [[tp r4]|] eqn:H4; [|discriminate].
    intros [= <- <-].
    apply strip_prefix_Some in H1, H3.
    apply take_digits_Some in H2 as (-> & ? & ?), H4 as (-> & ? & ?).
    exists r4. subst. repeat split; assumption.
  - intros (post & -> & HD & HT & HdD & HdT).
    assert (H1 : strip_prefix marker (marker ++ D ++ [underscore] ++ T ++ post)
                 = Some (D ++ [underscore] ++ T ++ post))
      by (apply strip_prefix_Some; reflexivity).
    rewrite H1.
    assert (H2 : take_digits 8 (D ++ [underscore] ++ T ++ post)
                 = Some (D, [underscore] ++ T ++ post))
      by (apply take_digits_Some; repeat split; assumption).
    rewrite H2.
    assert (H3 : strip_prefix [underscore] ([underscore] ++ T ++ post) = Some (T ++ post))
      by (apply strip_prefix_Some; reflexivity).
    rewrite H3.
    assert (H4 : take_digits 6 (T ++ post) = Some (T, post))
      by (apply take_digits_Some; repeat split; assumption).
    rewrite H4. reflexivity.
Qed.

Lemma re_search_unfold s :
  re_search s =
  match match_here s with
  | Some g => Some g
  | None => match s with [] => None | _ :: r => re_search r end
  end.
Proof. destruct s; reflexivity. Qed.

Lemma re_search_sound s D T :
  re_search s = Some (D, T) -> exists pre, first_occurrence s pre D T.
Proof.
  induction s as [|c s IH]; rewrite re_search_unfold.
  - destruct (match_here []) as [g|] eqn:Hm; [|discriminate].
    intros [= ->]. exists []. split.
    + exists []. split; [reflexivity | apply match_here_Some; assumption].
    + intros; simpl; lia.
  - destruct (match_here (c :: s)) as [g|] eqn:Hm.
    + intros [= ->]. exists []. split.
      * exists (c :: s). split; [reflexivity | apply match_here_Some; assumption].
      * intros; simpl; lia.
    + intros Hs. destruct (IH Hs) as (pre & (rest & -> & Hst) & Hmin).
      exists (c :: pre). split.
      * exists rest. split; [reflexivity | assumption].
      * intros pre' D' T' (rest' & Heq & Hst').
        destruct pre' as [|c' pre'].
        -- simpl in Heq. subst rest'. apply match_here_Some in Hst'. congruence.
        -- simpl in Heq. injection Heq as <- Heq. simpl.
           enough (length pre <= length pre') by lia.
           apply (Hmin pre' D' T'). exists rest'. split; assumption.
Qed.

Lemma re_search_first s pre D T :
  first_occurrence s pre D T -> re_search s = Some (D, T).
Proof.
  revert s. induction pre as [|c pre IH]; intros s [(rest & -> & Hst) Hmin].
  - simpl. rewrite re_search_unfold.
    apply match_here_Some in Hst. rewrite Hst. reflexivity.
  - rewrite re_search_unfold.
    destruct (match_here ((c :: pre) ++ rest)) as [[D' T']|] eqn:Hm.
    + apply match_here_Some in Hm.
      specialize (Hmin [] D' T'). simpl in Hmin.
      assert (S (length pre) <= 0); [|lia].
      apply Hmin. exists (c :: pre ++ rest). split; [reflexivity | assumption].
    + simpl. apply IH. split.
      * exists rest. split; [reflexivity | assumption].
      * intros pre' D' T' (rest' & Heq & Hst').
        specialize (Hmin (c :: pre') D' T'). simpl in Hmin.
        enough (S (length pre) <= S (length pre')) by lia.
        apply Hmin. exists rest'. split; [simpl; f_equal; assumption | assumption].
Qed.

Lemma re_search_None s :
  (forall pre D T, ~ occurs_at s pre D T) -> re_search s = None.
Proof.
  intros Hno. destruct (re_search s) as [[D T]|] eqn:Hs; [|reflexivity].
  apply re_search_sound in Hs as (pre & Hocc & _).
  exfalso. exact (Hno pre D T Hocc).
Qed.

End ExtractFacts.

Section ExtractSpec.
Context `{Unicode}.

Lemma int_digits_2 c1 c2 a b :
  decimal c1 = Some a -> decimal c2 = Some b -> py_int [c1; c2] = Ok (two a b).
Proof.
  intros H1 H2. unfold py_int, int_digits. rewrite H1, H2.
  f_equal. unfold two. lia.
Qed.

Lemma int_digits_4 c1 c2 c3 c4 a b c d :
  decimal c1 = Some a -> decimal c2 = Some b ->
  decimal c3 = Some c -> decimal c4 = Some d ->
  py_int [c1; c2; c3; c4] = Ok (four a b c d).
Proof.
  intros H1 H2 H3 H4. unfold py_int, int_digits. rewrite H1, H2, H3, H4.
  f_equal. unfold four. lia.
Qed.

Lemma extract_of_search s D T y1 y2 y3 y4 m1 m2 d1 d2 h1 h2 mi1 mi2 s1 s2 :
  re_search s = Some (D, T) ->
  mapM decimal D = Some [y1; y2; y3; y4; m1; m2; d1; d2] ->
  mapM decimal T = Some [h1; h2; mi1; mi2; s1; s2] ->
  extract_datetime_from_string (VStr s) =
  Ok (if valid_date (four y1 y2 y3 y4) (two m1 m2) (two d1 d2)
         && valid_time (two h1 h2) (two mi1 mi2) (two s1 s2)
      then Some (Datetime (four y1 y2 y3 y4) (two m1 m2) (two d1 d2)
                          (two h1 h2) (two mi1 mi2) (two s1 s2))
      else None).
Proof.
  intros Hs HD HT. apply mapM_Some in HD, HT.
  repeat match goal with
         | H : Forall2 _ _ (_ :: _) |- _ => apply Forall2_cons_inv_r in H as (? & ? & ? & H & ->)
         | H : Forall2 _ _ [] |- _ => apply Forall2_nil_inv_r in H as ->
         end.
  unfold extract_datetime_from_string. rewrite Hs.
  unfold slice. cbn [take drop Nat.sub].
  repeat (first [ erewrite int_digits_4 by eassumption
                | erewrite int_digits_2 by eassumption ];
          cbn [mbind result_bind rbind]).
  unfold datetime_new.
  destruct (valid_date _ _ _); [|reflexivity].
  destruct (valid_time _ _ _); reflexivity.
Qed.

End ExtractSpec.

Lemma decimal_values `{Unicode} (l : pystr) :
  Forall (fun c => is_decimal c = true) l ->
  exists k, mapM decimal l = Some k /\ length k = length l.
Proof.
  induction 1 as [|c l Hc _ (k & Hk & Hlen)].
  - exists []. split; reflexivity.
  - unfold is_decimal in Hc. destruct (decimal c) as [a|] eqn:Ha; [|discriminate].
    exists (a :: k). split; [|simpl; congruence].
    apply mapM_Some. constructor; [assumption | apply mapM_Some; assumption].
Qed.

(** C1. [extract_datetime_from_string] returns [None] on anything that is
    not a string and on a string in which the pattern
    [saved-DDDDDDDD_DDDDDD] does not occur; on a string in which it occurs,
    the leftmost occurrence alone decides: its digits, read as year,
    month, day, hour, minute and second, give the timestamp returned when
    they form a calendar date and time, and [None] otherwise.  No input
    makes it raise. *)
Theorem extract_datetime_from_string_spec `{Unicode} :
  (forall v, (forall s, v <> VStr s) -> extract_datetime_from_string v = Ok None)
  /\ (forall s, (forall pre D T, ~ occurs_at s pre D T) ->
        extract_datetime_from_string (VStr s) = Ok None)
  /\ (forall s pre D T y1 y2 y3 y4 m1 m2 d1 d2 h1 h2 mi1 mi2 s1 s2,
        first_occurrence s pre D T ->
        mapM decimal D = Some [y1; y2; y3; y4; m1; m2; d1; d2] ->
        mapM decimal T = Some [h1; h2; mi1; mi2; s1; s2] ->
        extract_datetime_from_string (VStr s) =
        Ok (if valid_date (four y1 y2 y3 y4) (two m1 m2) (two d1 d2)
               && valid_time (two h1 h2) (two mi1 mi2) (two s1 s2)
            then Some (Datetime (four y1 y2 y3 y4) (two m1 m2) (two d1 d2)
                                (two h1 h2) (two mi1 mi2) (two s1 s2))
            else None))
  /\ (forall v, exists r, extract_datetime_from_string v = Ok r).
Proof.
  split; [|split; [|split]].
  - intros v Hv. destruct v; try reflexivity. exfalso. exact (Hv s eq_refl).
  - intros s Hno. unfold extract_datetime_from_string.
    rewrite (re_search_None s Hno). reflexivity.
  - intros s pre D T y1 y2 y3 y4 m1 m2 d1 d2 h1 h2 mi1 mi2 s1 s2 Hfirst HD HT.
    apply extract_of_search with (D := D) (T := T); try assumption.
    apply re_search_first with (pre := pre). assumption.
  - intros v. destruct v as [| | |z|z|s|d]; try (eexists; reflexivity).
    destruct (re_search s) as [[D T]|] eqn:Hs.
    + destruct (re_search_sound s D T Hs) as (pre & (rest & _ & Hst) & _).
      destruct Hst as (post & _ & HlD & HlT & HdD & HdT).
      destruct (decimal_values D HdD) as (kD & HkD & HlenD).
      destruct (decimal_values T HdT) as (kT & HkT & HlenT).
      rewrite HlD in HlenD. rewrite HlT in HlenT.
      do 9 (destruct kD as [|? kD]; try discriminate).
      do 7 (destruct kT as [|? kT]; try discriminate).
      eexists. eapply extract_of_search; eassumption.
    + eexists. unfold extract_datetime_from_string. rewrite Hs. reflexivity.
Qed.

(** C1 at the final URL of a redirect. *)
Lemma extract_datetime_from_string_spec_witness :
  @extract_datetime_from_string basic_unicode
    (VStr (u "https://cdn/x/saved-20240101_104500.jpg"))
  = Ok (Some (Datetime 2024 1 1 10 45 0)).
Proof.
  destruct (@re_search_sound basic_unicode
              (u "https://cdn/x/saved-20240101_104500.jpg")
              (u "20240101") (u "104500") eq_refl) as [pre Hfirst].
  exact (proj1 (proj2 (proj2 (@extract_datetime_from_string_spec basic_unicode)))
           _ pre _ _ 2 0 2 4 0 1 0 1 1 0 4 5 0 0 Hfirst eq_refl eq_refl)%Z.
Defined.

(** The first occurrence decides even when a later one is well formed:
    month 13 in the first stamp gives [None]. *)
Example extract_first_match_only :
  @extract_datetime_from_string basic_unicode
    (VStr (u "saved-20241301_104500 saved-20240101_104500")) = Ok None.
Proof. vm_compute. reflexivity. Qed.

Example valid_date_month13 y d : valid_date y 13 d = false.
Proof. unfold valid_date. destruct (1 <=? y)%Z, (y <=? 9999)%Z; reflexivity. Qed.

Example valid_date_day32 y m : valid_date y m 32 = false.
Proof.
  unfold valid_date, days_in_month.
  destruct (1 <=? y)%Z, (y <=? 9999)%Z, (1 <=? m)%Z, (m <=? 12)%Z; simpl; try reflexivity.
  destruct (m =? 2)%Z; [destruct (is_leap y); reflexivity|].
  destruct ((m =? 4) || (m =? 6) || (m =? 9) || (m =? 11))%Z; reflexivity.
Qed.

(** ** Intervals *)

Lemma total_seconds_sub a b :
  total_seconds (datetime_sub a b) = (epoch_seconds a - epoch_seconds b)%Z.
Proof.
  unfold total_seconds, datetime_sub, timedelta_new, epoch_seconds. simpl.
  set (d := (toordinal a - toordinal b)%Z).
  set (s := (second a + minute a * 60 + hour a * 3600
             - (second b + minute b * 60 + hour b * 3600))%Z).
  pose proof (Z.div_mod s 86400 ltac:(lia)) as Hdm.
  subst d. lia.
Qed.

(** C2. The interval of a row: with either timestamp missing it is
    (absent, empty label); with both present the minute count is the
    floor of the duration in seconds divided by 60, a negative count
    gives (absent, error label), and a count [n >= 0] is returned with
    the label "n мин" below 60, "h ч" for a whole number of hours and
    "h ч m мин" otherwise. *)
Theorem row_interval_spec :
  (forall dt_after, row_interval None dt_after = (None, empty_str))
  /\ (forall dt_before, row_interval dt_before None = (None, empty_str))
  /\ (forall b a,
        let minutes := (total_seconds (datetime_sub a b) / 60)%Z in
        total_seconds (datetime_sub a b) = (epoch_seconds a - epoch_seconds b)%Z
        /\ ((minutes < 0)%Z ->
            row_interval (Some b) (Some a) = (None, u "ошибка"))
        /\ ((0 <= minutes < 60)%Z ->
            row_interval (Some b) (Some a)
            = (Some minutes, str_of_Z minutes ++ u " мин"))
        /\ ((60 <= minutes)%Z -> (minutes mod 60 = 0)%Z ->
            row_interval (Some b) (Some a)
            = (Some minutes, str_of_Z (minutes / 60) ++ u " ч"))
        /\ ((60 <= minutes)%Z -> (minutes mod 60 <> 0)%Z ->
            row_interval (Some b) (Some a)
            = (Some minutes,
               str_of_Z (minutes / 60) ++ u " ч " ++ str_of_Z (minutes mod 60)
               ++ u " мин")))
  /\ format_interval (Some 45%Z) = u "45 мин"
  /\ format_interval (Some 85%Z) = u "1 ч 25 мин".
Proof.
  split; [|split; [|split; [|split; reflexivity]]].
  - intros dt_after. reflexivity.
  - intros [b|]; reflexivity.
  - intros b a minutes. split; [apply total_seconds_sub|].
    unfold row_interval, format_interval. fold minutes.
    repeat split.
    + intros Hneg. destruct (Z.ltb_spec minutes 0); [reflexivity | lia].
    + intros [H0 H60]. destruct (Z.ltb_spec minutes 0); [lia|].
      destruct (Z.ltb_spec minutes 60); [reflexivity | lia].
    + intros H60 Hmod. destruct (Z.ltb_spec minutes 0); [lia|].
      destruct (Z.ltb_spec minutes 60); [lia|].
      rewrite Hmod. reflexivity.
    + intros H60 Hmod. destruct (Z.ltb_spec minutes 0); [lia|].
      destruct (Z.ltb_spec minutes 60); [lia|].
      destruct (Z.eqb_spec (minutes mod 60) 0); [contradiction | reflexivity].
Qed.

(** C2 at 10:00:00 and 11:25:00 of the same day. *)
Lemma row_interval_spec_witness :
  row_interval (Some (Datetime 2024 1 1 10 0 0)) (Some (Datetime 2024 1 1 11 25 0))
  = (Some 85%Z, u "1 ч 25 мин").
Proof.
  pose proof (proj2 (proj2 (proj2 (proj2 (proj1 (proj2 (proj2 row_interval_spec))
    (Datetime 2024 1 1 10 0 0) (Datetime 2024 1 1 11 25 0)))))) as Hw.
  apply Hw; vm_compute; [discriminate | discriminate].
Defined.

Example interval_45 :
  row_interval (Some (Datetime 2024 1 1 10 0 0)) (Some (Datetime 2024 1 1 10 45 0))
  = (Some 45%Z, u "45 мин").
Proof. vm_compute. reflexivity. Qed.

Example interval_inverted :
  row_interval (Some (Datetime 2024 1 1 11 0 0)) (Some (Datetime 2024 1 1 10 0 0))
  = (None, u "ошибка").
Proof. vm_compute. reflexivity. Qed.

(** 119 seconds apart is one minute: the quotient is floored, not rounded. *)
Example interval_119_seconds :
  row_interval (Some (Datetime 2024 1 1 10 0 0)) (Some (Datetime 2024 1 1 10 1 59))
  = (Some 1%Z, u "1 мин").
Proof. vm_compute. reflexivity. Qed.

(** ** The resolver and its cache *)

Section Resolver.
Context `{Unicode} `{Outside}.

Lemma key_of_None raw w :
  key_of raw = None -> get_datetime_from_url raw w = (Ok None, w).
Proof.
  unfold key_of, get_datetime_from_url. destruct raw; try reflexivity.
  destruct (is_nonblank_str (VStr s)); [discriminate | reflexivity].
Qed.

Lemma key_of_Some raw k :
  key_of raw = Some k ->
  exists s, raw = VStr s /\ is_nonblank_str (VStr s) = true /\ k = normalize_url s.
Proof.
  unfold key_of. destruct raw; try discriminate.
  destruct (is_nonblank_str (VStr s)) eqn:Hg; [|discriminate].
  intros [= <-]. exists s. repeat split. assumption.
Qed.

Lemma get_hit raw k v w :
  key_of raw = Some k -> cache w !! k = Some v ->
  get_datetime_from_url raw w = (Ok v, w).
Proof.
  intros Hk Hc. apply key_of_Some in Hk as (s & -> & Hg & ->).
  unfold get_datetime_from_url. rewrite Hg. simpl. rewrite Hc. reflexivity.
Qed.

Lemma get_miss raw k w :
  key_of raw = Some k -> cache w !! k = None ->
  get_datetime_from_url raw w =
  (Ok (fst (fetch_datetime k (net w))),
   {| cache := <[k := fst (fetch_datetime k (net w))]> (cache w);
      net := snd (fetch_datetime k (net w));
      fetched := fetched w ++ [k];
      heap := heap w |}).
Proof.
  intros Hk Hc. apply key_of_Some in Hk as (s & -> & Hg & ->).
  unfold get_datetime_from_url. rewrite Hg. simpl. rewrite Hc.
  destruct (fetch_datetime (normalize_url s) (net w)). reflexivity.
Qed.

Lemma get_returns_Ok raw w : exists r, fst (get_datetime_from_url raw w) = Ok r.
Proof.
  destruct (key_of raw) as [k|] eqn:Hk.
  - destruct (cache w !! k) as [v|] eqn:Hc.
    + rewrite (get_hit raw k v w Hk Hc). eexists; reflexivity.
    + rewrite (get_miss raw k w Hk Hc). eexists; reflexivity.
  - rewrite (key_of_None raw w Hk). eexists; reflexivity.
Qed.

Lemma get_keeps_entries raw w k v :
  cache w !! k = Some v -> cache (snd (get_datetime_from_url raw w)) !! k = Some v.
Proof.
  intros Hc. destruct (key_of raw) as [k'|] eqn:Hk.
  - destruct (cache w !! k') as [v'|] eqn:Hc'.
    + rewrite (get_hit raw k' v' w Hk Hc'). assumption.
    + rewrite (get_miss raw k' w Hk Hc'). simpl.
      rewrite lookup_insert_ne; [assumption | congruence].
  - rewrite (key_of_None raw w Hk). assumption.
Qed.

Lemma run_calls_keeps_entries raws w k v :
  cache w !! k = Some v -> cache (run_calls raws w) !! k = Some v.
Proof.
  revert w. induction raws as [|raw raws IH]; intros w Hc; [assumption|].
  simpl. apply IH. apply get_keeps_entries. assumption.
Qed.

Lemma get_stores raw k w :
  key_of raw = Some k ->
  exists v, fst (get_datetime_from_url raw w) = Ok v
            /\ cache (snd (get_datetime_from_url raw w)) !! k = Some v.
Proof.
  intros Hk. destruct (cache w !! k) as [v|] eqn:Hc.
  - rewrite (get_hit raw k v w Hk Hc). exists v. split; [reflexivity | assumption].
  - rewrite (get_miss raw k w Hk Hc). eexists. split; [reflexivity|].
    simpl. apply lookup_insert_eq.
Qed.

Lemma get_fetched_once raw w :
  fetched_once w -> fetched_once (snd (get_datetime_from_url raw w)).
Proof.
  intros [Hnd Hin]. destruct (key_of raw) as [k|] eqn:Hk.
  - destruct (cache w !! k) as [v|] eqn:Hc.
    + rewrite (get_hit raw k v w Hk Hc). split; assumption.
    + rewrite (get_miss raw k w Hk Hc). split; simpl.
      * apply NoDup_app. repeat split.
        -- assumption.
        -- intros x Hx Hx1. apply list_elem_of_singleton in Hx1 as ->.
           destruct (Hin k Hx) as [? ?]. congruence.
        -- apply NoDup_singleton.
      * intros k' Hk'. apply elem_of_app in Hk' as [Hk'|Hk'].
        -- destruct (decide (k' = k)) as [->|Hne].
           ++ rewrite lookup_insert_eq. eexists; reflexivity.
           ++ rewrite lookup_insert_ne by congruence. apply Hin. assumption.
        -- apply list_elem_of_singleton in Hk' as ->.
           rewrite lookup_insert_eq. eexists; reflexivity.
  - rewrite (key_of_None raw w Hk). split; assumption.
Qed.

Lemma run_calls_fetched_once raws w :
  fetched_once w -> fetched_once (run_calls raws w).
Proof.
  revert w. induction raws as [|raw raws IH]; intros w Hw; [assumption|].
  simpl. apply IH. apply get_fetched_once. assumption.
Qed.

End Resolver.

(** C3. Once [get_datetime_from_url] has been called on an input that
    normalises to [k], the value it returned sits in the cache under [k],
    and however many calls follow, a call on any input that normalises to
    [k] returns that value, absent or not, and leaves the world as it
    was: nothing is fetched and nothing is written.  In a process started
    with an empty cache no URL is ever fetched twice. *)
Theorem cache_computed_at_most_once `{Unicode} `{Outside} :
  (forall w raw1 mid raw2 k,
      key_of raw1 = Some k -> key_of raw2 = Some k ->
      let w1 := snd (get_datetime_from_url raw1 w) in
      let w2 := run_calls mid w1 in
      exists v,
        fst (get_datetime_from_url raw1 w) = Ok v
        /\ cache w1 !! k = Some v
        /\ get_datetime_from_url raw2 w2 = (Ok v, w2))
  /\ (forall n frames raws,
        NoDup (fetched (run_calls raws (world0 n frames)))).
Proof.
  split.
  - intros w raw1 mid raw2 k Hk1 Hk2 w1 w2.
    destruct (get_stores raw1 k w Hk1) as (v & Hret & Hc).
    exists v. repeat split; [assumption | assumption |].
    apply get_hit with (k := k); [assumption|].
    apply run_calls_keeps_entries. assumption.
  - intros n frames raws.
    apply (run_calls_fetched_once raws (world0 n frames)).
    split; [constructor | intros k Hk; inversion Hk].
Qed.

(** C3 on a URL whose fetch fails: the absence is cached and served. *)
Lemma cache_computed_at_most_once_witness :
  let w1 := snd (@get_datetime_from_url basic_unicode (table_outside demo_redirects)
                   (VStr (u "  @http://down/9 "))
                   (@world0 (table_outside demo_redirects) tt [])) in
  let w2 := @run_calls basic_unicode (table_outside demo_redirects)
              [VStr (u "http://a/1"); VNaN; VStr (u "http://down/9")] w1 in
  exists v,
    fst (@get_datetime_from_url basic_unicode (table_outside demo_redirects)
           (VStr (u "  @http://down/9 "))
           (@world0 (table_outside demo_redirects) tt [])) = Ok v
    /\ cache w1 !! u "http://down/9" = Some v
    /\ @get_datetime_from_url basic_unicode (table_outside demo_redirects)
         (VStr (u "@@http://down/9")) w2 = (Ok v, w2).
Proof.
  apply (proj1 (@cache_computed_at_most_once basic_unicode (table_outside demo_redirects)));
    vm_compute; reflexivity.
Defined.

(** ** Normalisation *)

Lemma lstrip_by_split p s :
  exists pre, s = pre ++ lstrip_by p s
              /\ Forall (fun c => p c = true) pre
              /\ (forall c, hd_error (lstrip_by p s) = Some c -> p c = false).
Proof.
  induction s as [|c s IH]; simpl.
  - exists []. repeat split; [constructor | discriminate].
  - destruct IH as (pre & Hs & Hpre & Hhd). destruct (p c) eqn:Hc.
    + exists (c :: pre). repeat split.
      * simpl. f_equal. assumption.
      * constructor; assumption.
      * assumption.
    + exists []. repeat split; [constructor|].
      simpl. intros c' [= <-]. assumption.
Qed.

(** C4, as the specification words it, fails: of two leading ['@'] both
    are removed, not one. *)
Lemma normalize_url_not_one_at :
  ~ (normalize_url (u "@@x") = spec_normalize (u "@@x")).
Proof. vm_compute. discriminate. Qed.

(** C4, amended.  The normalisation trims surrounding whitespace and then
    removes every leading ['@']: what it removes from the trimmed string
    is a run of ['@'] and what it returns does not start with ['@'].  It
    agrees with "remove at most one" exactly when the trimmed string does
    not start with two of them; "  @https://x/y  " becomes "https://x/y"
    and "@@x" becomes "x". *)
Theorem normalize_url_strips_every_at :
  (forall s, exists n,
      strip s = repeat at_sign n ++ normalize_url s
      /\ hd_error (normalize_url s) <> Some at_sign)
  /\ (forall s, (forall r, strip s <> at_sign :: at_sign :: r) ->
        normalize_url s = spec_normalize s)
  /\ normalize_url (u "  @https://x/y  ") = u "https://x/y"
  /\ normalize_url (u "https://x/y") = u "https://x/y"
  /\ normalize_url (u "@@x") = u "x".
Proof.
  split; [|split; [|repeat split; reflexivity]].
  - intros s. unfold normalize_url, lstrip_at.
    destruct (lstrip_by_split (N.eqb at_sign) (strip s)) as (pre & Hs & Hpre & Hhd).
    exists (length pre). split.
    + rewrite Hs at 1. f_equal.
      clear Hs. induction Hpre as [|c pre Hc _ IH]; [reflexivity|].
      simpl. apply N.eqb_eq in Hc. subst c. f_equal. assumption.
    + intros Hat. apply Hhd in Hat. unfold at_sign in Hat. discriminate.
  - intros s Hno. unfold normalize_url, spec_normalize, lstrip_at, strip_one_at.
    destruct (strip s) as [|c [|c' r]] eqn:Hs; cbn [lstrip_by].
    + reflexivity.
    + rewrite (N.eqb_sym at_sign c). destruct (c =? at_sign)%N; reflexivity.
    + rewrite (N.eqb_sym at_sign c). destruct (N.eqb_spec c at_sign) as [->|]; [|reflexivity].
      destruct (N.eqb_spec at_sign c') as [<-|]; [|reflexivity].
      exfalso. exact (Hno r eq_refl).
Qed.

(** C4, amended, on a value with a single leading ['@']. *)
Lemma normalize_url_strips_every_at_witness :
  normalize_url (u " @ x") = spec_normalize (u " @ x").
Proof.
  apply (proj1 (proj2 normalize_url_strips_every_at)).
  intros r. vm_compute. discriminate.
Defined.

(** ** Absence and failures in the resolver *)

Lemma is_nonblank_str_true s : is_nonblank_str (VStr s) = true <-> strip s <> [].
Proof.
  unfold is_nonblank_str. destruct (strip s); split; congruence.
Qed.

Lemma key_of_nonblank `{Unicode} `{Outside} s :
  strip s <> [] -> key_of (VStr s) = Some (normalize_url s).
Proof.
  intros Hs. unfold key_of. apply is_nonblank_str_true in Hs. rewrite Hs. reflexivity.
Qed.

Lemma key_of_blank `{Unicode} `{Outside} s : strip s = [] -> key_of (VStr s) = None.
Proof.
  intros Hs. unfold key_of, is_nonblank_str. rewrite Hs. reflexivity.
Qed.

Lemma fetch_datetime_failure `{Unicode} `{Outside} url n n' e :
  requests_get n url = (n', Raise e) -> fetch_datetime url n = (None, n').
Proof. intros Hr. unfold fetch_datetime. rewrite Hr. reflexivity. Qed.

(** C7. On an input that is not a string, or whose trimmed value is
    empty, [get_datetime_from_url] returns [None] and leaves the world
    untouched: no fetch, no cache entry.  When the fetch it performs
    fails, with whatever exception, it returns [None] and stores [None]
    in the cache under the normalised URL.  It never raises. *)
Theorem get_datetime_from_url_absence `{Unicode} `{Outside} :
  (forall raw w, (forall s, raw <> VStr s) ->
      get_datetime_from_url raw w = (Ok None, w))
  /\ (forall s w, strip s = [] -> get_datetime_from_url (VStr s) w = (Ok None, w))
  /\ (forall s w n' e,
        strip s <> [] ->
        cache w !! normalize_url s = None ->
        requests_get (net w) (normalize_url s) = (n', Raise e) ->
        get_datetime_from_url (VStr s) w =
        (Ok None,
         {| cache := <[normalize_url s := None]> (cache w);
            net := n';
            fetched := fetched w ++ [normalize_url s];
            heap := heap w |}))
  /\ (forall raw w, exists r, fst (get_datetime_from_url raw w) = Ok r).
Proof.
  split; [|split; [|split]].
  - intros raw w Hraw. apply key_of_None.
    destruct raw; try reflexivity. exfalso. exact (Hraw s eq_refl).
  - intros s w Hs. apply key_of_None. apply key_of_blank. assumption.
  - intros s w n' e Hs Hc Hfail.
    rewrite (get_miss (VStr s) (normalize_url s) w (key_of_nonblank s Hs) Hc).
    rewrite (fetch_datetime_failure _ _ _ _ Hfail). reflexivity.
  - intros raw w. apply get_returns_Ok.
Qed.

(** C7 on a URL the network does not answer. *)
Lemma get_datetime_from_url_absence_witness :
  @get_datetime_from_url basic_unicode (table_outside demo_redirects)
    (VStr (u " @http://down/9")) (@world0 (table_outside demo_redirects) tt [])
  = (Ok None,
     @World (table_outside demo_redirects)
       {[ u "http://down/9" := None ]} tt [u "http://down/9"] []).
Proof.
  apply (proj1 (proj2 (proj2
           (@get_datetime_from_url_absence basic_unicode (table_outside demo_redirects))))
           (u " @http://down/9") (@world0 (table_outside demo_redirects) tt []) tt
           (TransportError (u "connection failed"))).
  - vm_compute. discriminate.
  - reflexivity.
  - reflexivity.
Defined.

Example get_datetime_from_url_blank :
  @get_datetime_from_url basic_unicode (table_outside demo_redirects)
    (VStr (u "   ")) (@world0 (table_outside demo_redirects) tt [])
  = (Ok None, @world0 (table_outside demo_redirects) tt []).
Proof. reflexivity. Qed.

(** C10. An input whose trimmed value is a non-empty run of ['@'] passes
    the guard, which looks at the value before the ['@'] are removed, and
    normalises to the empty string.  With no entry under that key yet, a
    request for the empty URL is made: when it fails the answer is [None],
    and [None] is written under the empty key; when it succeeds the answer
    is what the final URL holds, written under the same key; either way
    the network is the one the request leaves.  From then on every such
    input is answered from that one entry. *)
Theorem at_only_input_uses_empty_key `{Unicode} `{Outside} :
  forall s,
    strip s <> [] -> Forall (fun c => c = at_sign) (strip s) ->
    is_nonblank_str (VStr s) = true
    /\ normalize_url s = []
    /\ forall w,
        (cache w !! ([] : pystr) = None ->
         (forall n' e,
             requests_get (net w) [] = (n', Raise e) ->
             get_datetime_from_url (VStr s) w =
             (Ok None,
              {| cache := <[([] : pystr) := None]> (cache w);
                 net := n';
                 fetched := fetched w ++ [[]];
                 heap := heap w |}))
         /\ (forall n' final_url r,
               requests_get (net w) [] = (n', Ok final_url) ->
               extract_datetime_from_string (VStr final_url) = Ok r ->
               get_datetime_from_url (VStr s) w =
               (Ok r,
                {| cache := <[([] : pystr) := r]> (cache w);
                   net := n';
                   fetched := fetched w ++ [[]];
                   heap := heap w |})))
        /\ (forall v, cache w !! ([] : pystr) = Some v ->
                      get_datetime_from_url (VStr s) w = (Ok v, w)).
Proof.
  intros s Hne Hall.
  assert (Hnorm : normalize_url s = []).
  { unfold normalize_url, lstrip_at. clear Hne.
    induction Hall as [|c l -> _ IH]; [reflexivity|]. simpl. assumption. }
  split; [apply is_nonblank_str_true; assumption|].
  split; [assumption|].
  intros w. pose proof (key_of_nonblank s Hne) as Hk. rewrite Hnorm in Hk.
  split.
  - intros Hc. split.
    + intros n' e Hfail. rewrite (get_miss (VStr s) [] w Hk Hc).
      unfold fetch_datetime. rewrite Hfail. reflexivity.
    + intros n' final_url r Hreq Hext. rewrite (get_miss (VStr s) [] w Hk Hc).
      unfold fetch_datetime. rewrite Hreq, Hext. reflexivity.
  - intros v Hc. apply (get_hit (VStr s) [] v w Hk Hc).
Qed.

(** C10: the request for the empty URL fails on the sample network, and a
    second run of at-signs is answered from the entry under the empty
    key. *)
Lemma at_only_input_uses_empty_key_witness :
  @get_datetime_from_url basic_unicode (table_outside demo_redirects)
    (VStr (u "@")) (@world0 (table_outside demo_redirects) tt [])
  = (Ok None,
     @World (table_outside demo_redirects) {[ ([] : pystr) := None ]} tt [[]] [])
  /\ @get_datetime_from_url basic_unicode (table_outside demo_redirects)
       (VStr (u " @@ "))
       (@World (table_outside demo_redirects) {[ ([] : pystr) := None ]} tt [[]] [])
     = (Ok None,
        @World (table_outside demo_redirects) {[ ([] : pystr) := None ]} tt [[]] []).
Proof.
  split.
  - apply (proj1 (proj1 (proj2 (proj2
             (@at_only_input_uses_empty_key basic_unicode (table_outside demo_redirects)
                (u "@") ltac:(vm_compute; discriminate)
                ltac:(vm_compute; repeat constructor)))
             (@world0 (table_outside demo_redirects) tt [])) eq_refl)
           tt (TransportError (u "connection failed"))).
    reflexivity.
  - apply (proj2 (proj2 (proj2
             (@at_only_input_uses_empty_key basic_unicode (table_outside demo_redirects)
                (u " @@ ") ltac:(vm_compute; discriminate)
                ltac:(vm_compute; repeat constructor)))
             (@World (table_outside demo_redirects) {[ ([] : pystr) := None ]} tt [[]] []))).
    reflexivity.
Defined.

(** ** Column detection *)

Section DetectFacts.
Context `{Unicode}.

Lemma fold_insert_lookup (cols : list value) (m : gmap pystr value) (k : pystr) :
  fold_left (fun m c => <[header_key c := c]> m) cols m !! k =
  match last_labelled k cols with
  | Some c => Some c
  | None => m !! k
  end.
Proof.
  revert m. induction cols as [|c cols IH]; intros m; [reflexivity|].
  simpl. rewrite IH. unfold last_labelled. rewrite filter_cons.
  destruct (decide (header_key c = k)) as [Hk|Hk].
  - rewrite last_cons.
    destruct (last (filter (fun c0 => header_key c0 = k) cols)); [reflexivity|].
    rewrite <- Hk. apply lookup_insert_eq.
  - destruct (last (filter (fun c0 => header_key c0 = k) cols)); [reflexivity|].
    apply lookup_insert_ne. assumption.
Qed.

Lemma cols_lower_lookup (cols : list value) (k : pystr) :
  cols_lower cols !! k = last_labelled k cols.
Proof.
  unfold cols_lower. rewrite fold_insert_lookup.
  destruct (last_labelled k cols); [reflexivity | apply lookup_empty].
Qed.

Lemma last_labelled_Some k cols c :
  last_labelled k cols = Some c -> c ∈ cols /\ header_key c = k.
Proof.
  unfold last_labelled. intros Hl.
  apply last_Some in Hl as [l' Hl'].
  assert (Hin : c ∈ filter (fun c0 => header_key c0 = k) cols).
  { rewrite Hl'. apply elem_of_app. right. apply list_elem_of_singleton. reflexivity. }
  apply list_elem_of_filter in Hin as [? ?]. split; assumption.
Qed.

Lemma last_labelled_exists k cols c :
  c ∈ cols -> header_key c = k -> is_Some (last_labelled k cols).
Proof.
  intros Hin Hk. unfold last_labelled. apply last_is_Some.
  intros Hnil.
  assert (Hc : c ∈ filter (fun c0 => header_key c0 = k) cols)
    by (apply list_elem_of_filter; split; assumption).
  rewrite Hnil in Hc. inversion Hc.
Qed.

Lemma header_key_None :
  lower_ascii_law -> header_key VNone = u "none".
Proof.
  intros Hlaw. unfold header_key.
  change (strip (py_str VNone)) with (u "None").
  rewrite Hlaw; [reflexivity|].
  repeat constructor.
Qed.

(** The fallback loop collects the qualifying columns in order and stops
    at two. *)
Lemma scan_candidates_take cols acc :
  length acc < 2 -> scan_candidates cols acc = take 2 (acc ++ qualifying cols).
Proof.
  revert acc. induction cols as [|[col s] cols IH]; intros acc Hacc.
  - simpl. unfold qualifying. simpl. rewrite app_nil_r.
    symmetry. apply take_ge. lia.
  - cbn [scan_candidates]. unfold qualifying. rewrite filter_cons.
    destruct (decide (qualifies (col, s) = true)) as [Hq|Hq].
    + unfold qualifies in Hq. cbn [snd] in Hq.
      apply andb_true_iff in Hq as [Hobj Hsav]. rewrite Hobj, Hsav. cbn [negb map fst].
      destruct (Nat.leb_spec 2 (length (acc ++ [col]))) as [Hle|Hlt].
      * rewrite length_app in Hle. simpl in Hle.
        change (col :: map fst (filter (fun cs => qualifies cs = true) cols))
          with ([col] ++ qualifying cols).
        rewrite app_assoc. rewrite take_app_le by (rewrite length_app; simpl; lia).
        symmetry. apply take_ge. rewrite length_app. simpl. lia.
      * rewrite IH by assumption. rewrite <- app_assoc. reflexivity.
    + unfold qualifies in Hq. cbn [snd] in Hq.
      destruct (is_object_dtype s); cbn [negb]; [|apply IH; assumption].
      destruct (contains_saved s); [exfalso; apply Hq; reflexivity|].
      destruct (Nat.leb_spec 2 (length acc)); [lia|].
      apply IH. assumption.
Qed.

End DetectFacts.

Lemma detect_exact `{Unicode} df b a :
  last_labelled photo_before (labels df) = Some b ->
  last_labelled photo_after (labels df) = Some a ->
  b <> VNone -> a <> VNone ->
  detect_photo_columns df = (b, a).
Proof.
  intros Hb Ha Hbn Han. unfold detect_photo_columns, dict_get.
  rewrite !cols_lower_lookup, Hb, Ha. simpl.
  destruct b; try contradiction; destruct a; try contradiction; reflexivity.
Qed.

Lemma detect_fallback `{Unicode} df :
  exact_pass_fails df ->
  detect_photo_columns df =
  match qualifying (columns df) with
  | c1 :: c2 :: _ => (c1, c2)
  | _ => (VNone, VNone)
  end.
Proof.
  unfold exact_pass_fails, detect_photo_columns. intros Hfail.
  apply orb_true_iff in Hfail.
  assert (Hcond : negb (is_None (dict_get (cols_lower (labels df)) photo_before))
                  && negb (is_None (dict_get (cols_lower (labels df)) photo_after))
                  = false).
  { destruct Hfail as [-> | ->]; [reflexivity | apply andb_false_r]. }
  rewrite Hcond. rewrite scan_candidates_take by (simpl; lia). simpl.
  destruct (qualifying (columns df)) as [|c1 [|c2 rest]]; reflexivity.
Qed.

Lemma last_labelled_absent `{Unicode} k cols :
  (forall c, c ∈ cols -> header_key c <> k) -> last_labelled k cols = None.
Proof.
  intros Hno. unfold last_labelled.
  destruct (last (filter (fun c => header_key c = k) cols)) as [c|] eqn:Hl; [|reflexivity].
  apply last_labelled_Some in Hl as [Hin Hk]. exfalso. exact (Hno c Hin Hk).
Qed.

(** The fallback is taken whenever one of the two headers is missing. *)
Lemma exact_pass_fails_absent `{Unicode} df :
  (forall c, c ∈ labels df -> header_key c <> photo_before)
  \/ (forall c, c ∈ labels df -> header_key c <> photo_after) ->
  exact_pass_fails df.
Proof.
  unfold exact_pass_fails, dict_get. rewrite !cols_lower_lookup.
  intros [Hno|Hno]; rewrite (last_labelled_absent _ _ Hno); cbn [default is_None].
  - reflexivity.
  - apply orb_true_r.
Qed.

(** C5. When some column header, trimmed and lowercased, is "фото до"
    and some is "фото после", [detect_photo_columns] returns columns of
    the dataset carrying those two headers (the last one of each, should
    a header occur more than once), and the cells play no part: every
    dataset with the same headers gets the same answer. *)
Theorem detect_photo_columns_exact `{Unicode} :
  lower_ascii_law ->
  forall df,
    (exists c, c ∈ labels df /\ header_key c = photo_before) ->
    (exists c, c ∈ labels df /\ header_key c = photo_after) ->
    exists b a,
      detect_photo_columns df = (b, a)
      /\ last_labelled photo_before (labels df) = Some b
      /\ last_labelled photo_after (labels df) = Some a
      /\ b ∈ labels df /\ header_key b = photo_before
      /\ a ∈ labels df /\ header_key a = photo_after
      /\ (forall df', labels df' = labels df -> detect_photo_columns df' = (b, a)).
Proof.
  intros Hlaw df (cb & Hcb & Hkb) (ca & Hca & Hka).
  destruct (last_labelled_exists _ _ _ Hcb Hkb) as [b Hb].
  destruct (last_labelled_exists _ _ _ Hca Hka) as [a Ha].
  destruct (last_labelled_Some _ _ _ Hb) as [Hbin Hbk].
  destruct (last_labelled_Some _ _ _ Ha) as [Hain Hak].
  assert (Hbn : b <> VNone).
  { intros ->. rewrite (header_key_None Hlaw) in Hbk. vm_compute in Hbk. discriminate. }
  assert (Han : a <> VNone).
  { intros ->. rewrite (header_key_None Hlaw) in Hak. vm_compute in Hak. discriminate. }
  exists b, a. repeat split; try assumption.
  - apply detect_exact; assumption.
  - intros df' Hl. apply detect_exact; try assumption; rewrite Hl; assumption.
Qed.

Lemma basic_lower_ascii : @lower_ascii_law basic_unicode.
Proof.
  intros s. induction 1 as [|c s Hc _ IH]; [reflexivity|].
  cbn [lower basic_unicode map] in *. rewrite IH. f_equal.
  unfold basic_lower_cp, ascii_lower.
  destruct ((65 <=? c) && (c <=? 90))%N; [reflexivity|].
  destruct (1040 <=? c)%N eqn:E1; [apply N.leb_le in E1; lia|].
  destruct (1024 <=? c)%N eqn:E2; [apply N.leb_le in E2; lia|].
  reflexivity.
Qed.

(** C5 on the sample dataset with headers. *)
Lemma detect_photo_columns_exact_witness :
  exists b a,
    @detect_photo_columns basic_unicode demo_headers = (b, a)
    /\ @last_labelled basic_unicode photo_before (labels demo_headers) = Some b
    /\ @last_labelled basic_unicode photo_after (labels demo_headers) = Some a
    /\ b ∈ labels demo_headers /\ @header_key basic_unicode b = photo_before
    /\ a ∈ labels demo_headers /\ @header_key basic_unicode a = photo_after
    /\ (forall df', labels df' = labels demo_headers ->
                    @detect_photo_columns basic_unicode df' = (b, a)).
Proof.
  apply (@detect_photo_columns_exact basic_unicode basic_lower_ascii demo_headers).
  - exists (VStr (u " Фото ДО ")). split; [|reflexivity].
    vm_compute. do 2 right. left.
  - exists (VStr (u "ФОТО после")). split; [|reflexivity].
    vm_compute. do 3 right. left.
Defined.

Example detect_exact_over_heuristic :
  @detect_photo_columns basic_unicode demo_headers
  = (VStr (u " Фото ДО "), VStr (u "ФОТО после"))
  /\ qualifying (columns demo_headers)
     = [VStr (u "link a"); VStr (u "link b")].
Proof. split; vm_compute; reflexivity. Qed.

(** C6. When the exact headers are not both found, the columns are
    scanned from left to right, the textual ones with "saved-" in some
    value are collected, and the first two of them are returned in that
    order, or (absent, absent) when there are fewer than two.  The scan
    stops at the second: whatever columns come after it, even further
    qualifying ones, the outcome of the loop is the same. *)
Theorem detect_photo_columns_fallback `{Unicode} :
  forall df,
    exact_pass_fails df ->
    detect_photo_columns df =
    match qualifying (columns df) with
    | c1 :: c2 :: _ => (c1, c2)
    | _ => (VNone, VNone)
    end
    /\ (forall cols rest,
          columns df = cols ++ rest -> 2 <= length (qualifying cols) ->
          scan_candidates (columns df) [] = scan_candidates cols []).
Proof.
  intros df Hfail. split; [apply detect_fallback; assumption|].
  intros cols rest Hsplit Hlen. rewrite Hsplit.
  rewrite !scan_candidates_take by (simpl; lia). simpl.
  unfold qualifying in *. rewrite filter_app, map_app.
  apply take_app_le. assumption.
Qed.

(** C6 on the sample dataset without headers. *)
Lemma detect_photo_columns_fallback_witness :
  @detect_photo_columns basic_unicode demo_no_headers
  = (VStr (u "first"), VStr (u "second")).
Proof.
  apply (proj1 (@detect_photo_columns_fallback basic_unicode demo_no_headers
                  ltac:(vm_compute; reflexivity))).
Defined.

Example detect_fewer_than_two :
  @detect_photo_columns basic_unicode
    (Frame 1 [(VStr (u "a"), Series DObject [VStr (u "saved-x")]);
              (VStr (u "b"), Series DObject [VStr (u "nothing")])])
  = (VNone, VNone).
Proof. vm_compute. reflexivity. Qed.

(** ** Frames *)

Lemma lookup_col_Some cols c : c ∈ map fst cols -> is_Some (lookup_col cols c).
Proof.
  induction cols as [|[c' s] cols IH]; simpl; intros Hin.
  - inversion Hin.
  - destruct (decide (c' = c)); [eexists; reflexivity|].
    apply IH. apply elem_of_cons in Hin as [Heq|Hin]; [congruence | assumption].
Qed.

Lemma lookup_col_replace_eq cols c s :
  is_Some (lookup_col cols c) -> lookup_col (replace_col cols c s) c = Some s.
Proof.
  induction cols as [|[c' s'] cols IH]; simpl; intros [x Hx]; [discriminate|].
  destruct (decide (c' = c)) as [->|Hne]; simpl.
  - rewrite decide_True by reflexivity. reflexivity.
  - rewrite decide_False by assumption. apply IH. eexists; eassumption.
Qed.

Lemma lookup_col_replace_ne cols c s c' :
  c' <> c -> lookup_col (replace_col cols c s) c' = lookup_col cols c'.
Proof.
  intros Hne. induction cols as [|[c0 s0] cols IH]; simpl; [reflexivity|].
  destruct (decide (c0 = c)) as [->|Hne0]; simpl.
  - rewrite !decide_False by congruence. reflexivity.
  - destruct (decide (c0 = c')); [reflexivity | assumption].
Qed.

Lemma labels_replace cols c s : map fst (replace_col cols c s) = map fst cols.
Proof.
  induction cols as [|[c0 s0] cols IH]; simpl; [reflexivity|].
  destruct (decide (c0 = c)); simpl; [reflexivity | f_equal; assumption].
Qed.

Lemma lookup_col_app_eq cols c s :
  lookup_col cols c = None -> lookup_col (cols ++ [(c, s)]) c = Some s.
Proof.
  induction cols as [|[c0 s0] cols IH]; simpl; intros Hn.
  - rewrite decide_True by reflexivity. reflexivity.
  - destruct (decide (c0 = c)); [discriminate | apply IH; assumption].
Qed.

Lemma lookup_col_app_ne cols c s c' :
  c' <> c -> lookup_col (cols ++ [(c, s)]) c' = lookup_col cols c'.
Proof.
  intros Hne. induction cols as [|[c0 s0] cols IH]; simpl.
  - rewrite decide_False by congruence. reflexivity.
  - destruct (decide (c0 = c')); [reflexivity | assumption].
Qed.

(** What [df[c] = s] does to a frame when [s] has the length of the
    index. *)
Lemma setitem_spec df c s :
  length (values s) = nrows df ->
  exists df',
    setitem df c s = Ok df'
    /\ nrows df' = nrows df
    /\ lookup_col (columns df') c = Some s
    /\ (forall c', c' <> c -> lookup_col (columns df') c' = lookup_col (columns df) c')
    /\ labels df' = match lookup_col (columns df) c with
                     | Some _ => labels df
                     | None => labels df ++ [c]
                     end.
Proof.
  intros Hlen. unfold setitem.
  rewrite (proj2 (Nat.eqb_eq _ _) Hlen). cbn [negb].
  destruct (lookup_col (columns df) c) as [s0|] eqn:Hc.
  - eexists. split; [reflexivity|]. cbn [nrows columns]. repeat split.
    + apply lookup_col_replace_eq. rewrite Hc. eexists; reflexivity.
    + intros c' Hne. apply lookup_col_replace_ne. assumption.
    + unfold labels. cbn [columns]. apply labels_replace.
  - eexists. split; [reflexivity|]. cbn [nrows columns]. repeat split.
    + apply lookup_col_app_eq. assumption.
    + intros c' Hne. apply lookup_col_app_ne. assumption.
    + unfold labels. cbn [columns]. rewrite map_app. reflexivity.
Qed.

Lemma not_derived c :
  c ∉ derived_labels ->
  c <> col_before /\ c <> col_after /\ c <> col_interval /\ c <> col_raw.
Proof.
  unfold derived_labels. intros Hc.
  repeat split; intros ->; apply Hc.
  - left.
  - right; left.
  - do 2 right; left.
  - do 3 right; left.
Qed.

Ltac decide_labels :=
  repeat match goal with
         | |- context [decide (?x = ?y)] =>
             first [ rewrite (decide_True (P := x = y)) by reflexivity
                   | rewrite (decide_False (P := x = y)) by (assumption || discriminate) ]
         | |- context [decide (?x <> ?y)] =>
             first [ rewrite (decide_True (P := x <> y)) by (assumption || discriminate)
                   | rewrite (decide_False (P := x <> y)) by (intros Hn; apply Hn; reflexivity) ]
         end.

Ltac frame_steps :=
  repeat (progress (cbn [mbind result_bind rbind columns nrows replace_col
                         lookup_col values dtype_of fst snd];
                    decide_labels)).

Lemma setitem_replace df c s :
  length (values s) = nrows df -> is_Some (lookup_col (columns df) c) ->
  setitem df c s = Ok (Frame (nrows df) (replace_col (columns df) c s)).
Proof.
  intros Hlen [s0 Hs]. unfold setitem.
  rewrite (proj2 (Nat.eqb_eq _ _) Hlen), Hs. reflexivity.
Qed.

(** ** The row loop and the frame behind the reference *)

Section Process.
Context `{Unicode} `{Outside}.

Lemma get_shape raw w :
  exists r w', get_datetime_from_url raw w = (Ok r, w') /\ heap w' = heap w.
Proof.
  destruct (key_of raw) as [k|] eqn:Hk.
  - destruct (cache w !! k) as [v|] eqn:Hc.
    + rewrite (get_hit raw k v w Hk Hc). eauto.
    + rewrite (get_miss raw k w Hk Hc). eexists _, _. split; reflexivity.
  - rewrite (key_of_None raw w Hk). eauto.
Qed.

Lemma row_body_spec b a r acc w n :
  lists_length n acc ->
  exists lists w',
    row_body b a r acc w = (Ok lists, w')
    /\ heap w' = heap w /\ lists_length (S n) lists.
Proof.
  intros (L1 & L2 & L3 & L4). unfold row_body, bind.
  destruct (get_shape (row_get r b) w) as (d1 & w1 & -> & Hh1).
  destruct (get_shape (row_get r a) w1) as (d2 & w2 & -> & Hh2).
  destruct (row_interval d1 d2) as [minutes label].
  eexists _, _. split; [reflexivity|]. split; [congruence|].
  unfold lists_length. cbn. rewrite !length_app. cbn. lia.
Qed.

Lemma for_rows_spec b a rows acc w n :
  lists_length n acc ->
  exists lists w',
    for_rows b a rows acc w = (Ok lists, w')
    /\ heap w' = heap w /\ lists_length (n + length rows) lists.
Proof.
  revert acc w n. induction rows as [|r rows IH]; intros acc w n Hacc.
  - exists acc, w. repeat split; try apply Hacc; rewrite Nat.add_0_r; apply Hacc.
  - cbn [for_rows]. unfold bind.
    destruct (row_body_spec b a r acc w n Hacc) as (acc' & w1 & -> & Hh1 & Hacc').
    destruct (IH acc' w1 (S n) Hacc') as (lists & w2 & -> & Hh2 & Hl).
    exists lists, w2. split; [reflexivity|]. split; [congruence|].
    cbn [length]. replace (n + S (length rows)) with (S n + length rows) by lia.
    assumption.
Qed.

Lemma length_iterrows df : length (iterrows df) = nrows df.
Proof. unfold iterrows. rewrite length_map, length_seq. reflexivity. Qed.

Lemma setitem_at_spec l c s w f f' :
  heap w !! l = Some f -> setitem f c s = Ok f' ->
  exists w', setitem_at l c s w = (Ok tt, w')
             /\ heap w' = <[l := f']> (heap w)
             /\ heap w' !! l = Some f'.
Proof.
  intros Hl Hs. unfold setitem_at. rewrite Hl.
  change (default empty_frame (Some f)) with f. rewrite Hs.
  eexists. split; [reflexivity|]. cbn [heap]. split; [reflexivity|].
  apply list_lookup_insert_eq. eapply lookup_lt_Some. eassumption.
Qed.

End Process.

Lemma qualifying_labels cols c : c ∈ qualifying cols -> c ∈ map fst cols.
Proof.
  unfold qualifying. intros Hc.
  apply list_elem_of_fmap in Hc as (cs & -> & Hcs).
  apply list_elem_of_filter in Hcs as [_ Hcs].
  apply list_elem_of_fmap. exists cs. split; [reflexivity | assumption].
Qed.

Lemma detect_in_labels `{Unicode} df b a :
  detect_photo_columns df = (b, a) ->
  (b <> VNone -> b ∈ labels df) /\ (a <> VNone -> a ∈ labels df).
Proof.
  unfold detect_photo_columns, dict_get. rewrite !cols_lower_lookup.
  destruct (negb _ && negb _).
  - intros [= <- <-]. split; intros Hn.
    + destruct (last_labelled photo_before (labels df)) as [c|] eqn:Hc;
        [|exfalso; apply Hn; reflexivity].
      apply last_labelled_Some in Hc as [Hc _]. exact Hc.
    + destruct (last_labelled photo_after (labels df)) as [c|] eqn:Hc;
        [|exfalso; apply Hn; reflexivity].
      apply last_labelled_Some in Hc as [Hc _]. exact Hc.
  - rewrite scan_candidates_take by (simpl; lia). cbn [app].
    pose proof (qualifying_labels (columns df)) as Hq.
    destruct (qualifying (columns df)) as [|c1 [|c2 rest]]; cbn.
    + intros [= <- <-]. split; intros Hn; exfalso; apply Hn; reflexivity.
    + intros [= <- <-]. split; intros Hn; exfalso; apply Hn; reflexivity.
    + intros [= <- <-]. split; intros _; apply Hq.
      * left.
      * right; left.
Qed.

(** C8. When detection leaves either column absent, [process_dataframe]
    raises a [ValueError] with its message and the world is exactly as it
    was before the call: the cache and the network untouched, nothing
    fetched, no frame created or changed, the input frame included. *)
Theorem process_dataframe_detection_failure `{Unicode} `{Outside} :
  forall w l input,
    heap w !! l = Some input ->
    fst (detect_photo_columns input) = VNone
    \/ snd (detect_photo_columns input) = VNone ->
    process_dataframe l w = (Raise detection_error, w)
    /\ heap w !! l = Some input
    /\ exists msg, detection_error = ValueError msg /\ msg <> [].
Proof.
  intros w l input Hl Hdet. split; [|split; [assumption|]].
  - unfold process_dataframe, bind, deref. rewrite Hl.
    change (default empty_frame (Some input)) with input.
    destruct (detect_photo_columns input) as [b a]. cbn [fst snd] in Hdet.
    replace (is_None b || is_None a) with true; [reflexivity|].
    destruct Hdet as [-> | ->]; [reflexivity | symmetry; apply orb_true_r].
  - eexists. split; [reflexivity|]. vm_compute. discriminate.
Qed.

(** C8 on a dataset with a single qualifying column. *)
Lemma process_dataframe_detection_failure_witness :
  @process_dataframe basic_unicode (table_outside demo_redirects) 0
    (@world0 (table_outside demo_redirects) tt
       [Frame 1 [(VStr (u "a"), Series DObject [VStr (u "saved-x")]);
                 (VStr (u "b"), Series DObject [VStr (u "nothing")])]])
  = (Raise detection_error,
     @world0 (table_outside demo_redirects) tt
       [Frame 1 [(VStr (u "a"), Series DObject [VStr (u "saved-x")]);
                 (VStr (u "b"), Series DObject [VStr (u "nothing")])]]).
Proof.
  apply (@process_dataframe_detection_failure basic_unicode (table_outside demo_redirects)
           (@world0 (table_outside demo_redirects) tt
              [Frame 1 [(VStr (u "a"), Series DObject [VStr (u "saved-x")]);
                        (VStr (u "b"), Series DObject [VStr (u "nothing")])]])
           0 _ eq_refl).
  left. vm_compute. reflexivity.
Defined.

(** ** Numbers and timestamps in decimal *)

Lemma digits_of_small f n : (0 <= n < 10)%Z -> digits_of (S f) n = [digit_char n].
Proof.
  intros Hn. cbn [digits_of]. destruct (Z.ltb_spec n 10); [reflexivity | lia].
Qed.

Lemma digits_of_large f n :
  (10 <= n)%Z -> digits_of (S f) n = digits_of f (n / 10) ++ [digit_char (n mod 10)].
Proof.
  intros Hn. cbn [digits_of]. destruct (Z.ltb_spec n 10); [lia | reflexivity].
Qed.

Lemma basic_decimal_digit_char d :
  (0 <= d <= 9)%Z -> basic_decimal (digit_char d) = Some d.
Proof.
  intros Hd. unfold basic_decimal, digit_char.
  destruct (N.leb_spec 48 (Z.to_N (48 + d))); [|lia].
  destruct (N.leb_spec (Z.to_N (48 + d)) 57); [|lia].
  cbn [andb]. f_equal. lia.
Qed.

Lemma int_digits_app `{Unicode} acc l1 l2 :
  int_digits acc (l1 ++ l2) = (x ← int_digits acc l1; int_digits x l2).
Proof.
  revert acc. induction l1 as [|c l1 IH]; intros acc; [reflexivity|].
  cbn [app int_digits]. destruct (decimal c); [apply IH | reflexivity].
Qed.

Lemma digits_of_read_back f n :
  (0 <= n < 2 ^ (Z.of_nat f + 1))%Z ->
  @int_digits basic_unicode 0%Z (digits_of (S f) n) = Ok n.
Proof.
  revert n. induction f as [|f IH]; intros n Hn.
  - change (2 ^ (Z.of_nat 0 + 1))%Z with 2%Z in Hn.
    rewrite digits_of_small by lia. cbn [int_digits decimal basic_unicode].
    rewrite basic_decimal_digit_char by lia. reflexivity.
  - destruct (Z.ltb_spec n 10) as [Hlt|Hge].
    + rewrite digits_of_small by lia. cbn [int_digits decimal basic_unicode].
      rewrite basic_decimal_digit_char by lia. reflexivity.
    + rewrite digits_of_large by assumption. rewrite int_digits_app.
      assert (Hpow : (2 ^ (Z.of_nat (S f) + 1) = 2 * 2 ^ (Z.of_nat f + 1))%Z).
      { replace (Z.of_nat (S f) + 1)%Z with (Z.succ (Z.of_nat f + 1)) by lia.
        apply Z.pow_succ_r. lia. }
      rewrite IH.
      * cbn [mbind result_bind rbind int_digits decimal basic_unicode].
        rewrite basic_decimal_digit_char by (pose proof (Z.mod_pos_bound n 10); lia).
        f_equal. pose proof (Z.div_mod n 10). lia.
      * split; [apply Z.div_pos; lia|].
        apply Z.div_lt_upper_bound; lia.
Qed.

(** What [str] writes for a non-negative [int], [int] reads back. *)
Lemma str_of_Z_read_back n :
  (0 <= n)%Z -> @py_int basic_unicode (str_of_Z n) = Ok n.
Proof.
  intros Hn. unfold str_of_Z. destruct (Z.ltb_spec n 0); [lia|].
  unfold str_of_nonneg.
  assert (Hread : @int_digits basic_unicode 0%Z
                    (digits_of (S (Z.to_nat (Z.log2 n))) n) = Ok n).
  { apply digits_of_read_back. rewrite Z2Nat.id by apply Z.log2_nonneg.
    destruct (Z.eq_dec n 0%Z) as [->|Hne]; [cbn; lia|].
    pose proof (Z.log2_spec n ltac:(lia)). unfold Z.succ in *. lia. }
  unfold py_int.
  destruct (digits_of (S (Z.to_nat (Z.log2 n))) n) eqn:Hd; [|exact Hread].
  cbn [digits_of] in Hd. destruct (n <? 10)%Z; [discriminate|].
  destruct (digits_of _ _); discriminate.
Qed.






(** ** Well-formed frames *)

Lemma lookup_col_None cols c : lookup_col cols c = None -> c ∉ map fst cols.
Proof.
  induction cols as [|[c' s] cols IH]; simpl; intros Hn Hin.
  - inversion Hin.
  - destruct (decide (c' = c)); [discriminate|].
    apply elem_of_cons in Hin as [Heq|Hin]; [congruence | exact (IH Hn Hin)].
Qed.

Lemma replace_col_Forall (P : value * series -> Prop) cols c s :
  Forall P cols -> P (c, s) -> Forall P (replace_col cols c s).
Proof.
  intros Hall Hp. induction Hall as [|[c' s'] cols Hx Hall' IH]; simpl; [constructor|].
  destruct (decide (c' = c)) as [->|]; constructor; assumption.
Qed.

(** Assigning a column keeps the labels distinct and the columns as long
    as the index. *)
Lemma setitem_wf df c s df' :
  frame_wf df -> setitem df c s = Ok df' -> frame_wf df'.
Proof.
  intros [Hnd Hlen]. unfold setitem.
  destruct (Nat.eqb_spec (length (values s)) (nrows df)) as [Hl|]; [|discriminate].
  cbn [negb]. destruct (lookup_col (columns df) c) as [s0|] eqn:Hc; intros [= <-].
  - split.
    + unfold labels. cbn [columns]. rewrite labels_replace. exact Hnd.
    + cbn [columns nrows]. apply replace_col_Forall; [exact Hlen | exact Hl].
  - split.
    + unfold labels. cbn [columns]. rewrite map_app. apply NoDup_app.
      repeat split; [exact Hnd | | apply NoDup_singleton].
      intros x Hx Hx'. apply list_elem_of_singleton in Hx'. subst x.
      exact (lookup_col_None _ _ Hc Hx).
    + cbn [columns nrows]. apply Forall_app. split; [exact Hlen|].
      constructor; [exact Hl | constructor].
Qed.

(** ** The preview *)

Section PreviewFacts.
Context `{Unicode} `{Outside}.

Lemma length_datetime_column l : length (values (datetime_column l)) = length l.
Proof.
  unfold datetime_column. destruct l as [|d l]; [reflexivity|].
  destruct (is_datetime64 (d :: l)); cbn [values]; apply length_map.
Qed.

Lemma length_minutes_column l : length (values (minutes_column l)) = length l.
Proof.
  unfold minutes_column. destruct l as [|z l]; [reflexivity|].
  destruct (forallb is_absent (z :: l)); [cbn [values]; apply length_map|].
  destruct (forallb is_present (z :: l)); cbn [values]; apply length_map.
Qed.

Lemma length_text_column l : length (values (text_column l)) = length l.
Proof.
  unfold text_column. destruct l as [|s l]; [reflexivity|].
  cbn [values]. apply length_map.
Qed.

Lemma values_datetime_column l :
  values (datetime_column l) = map (datetime_cell l) l.
Proof.
  unfold datetime_column, datetime_cell. destruct l as [|d l]; [reflexivity|].
  destruct (is_datetime64 (d :: l)); reflexivity.
Qed.

Lemma values_minutes_column l :
  values (minutes_column l) = map (minutes_cell l) l.
Proof.
  unfold minutes_column, minutes_cell. destruct l as [|z l]; [reflexivity|].
  destruct (forallb is_absent (z :: l)); [reflexivity|].
  destruct (forallb is_present (z :: l)); reflexivity.
Qed.

Lemma values_text_column l : values (text_column l) = map VStr l.
Proof. destruct l; reflexivity. Qed.

Lemma length_apply_values f l v : apply_values f l = Ok v -> length v = length l.
Proof.
  revert v. induction l as [|x l IH]; intros v; cbn [apply_values].
  - intros [= <-]. reflexivity.
  - destruct (f x) as [y|e]; [|discriminate]. cbn [mbind result_bind rbind].
    destruct (apply_values f l) as [ys|e]; [|discriminate].
    cbn [mbind result_bind rbind]. intros [= <-]. cbn [length].
    rewrite (IH ys eq_refl). reflexivity.
Qed.

(** Formatting cells that came from a list of [datetime] and [None] kept as
    objects never fails. *)
Lemma format_objects l :
  apply_values format_cell (map of_datetime l) = Ok (map render_timestamp l).
Proof.
  induction l as [|d l IH]; [reflexivity|]. cbn [map apply_values].
  rewrite IH. destruct d; reflexivity.
Qed.

(** Formatting the cells of a [datetime64] column fails at its first
    [NaT]. *)
Lemma format_timestamps l :
  apply_values format_cell (map to_timestamp l)
  = if existsb is_absent l then Raise nat_error else Ok (map render_timestamp l).
Proof.
  induction l as [|d l IH]; [reflexivity|]. cbn [map apply_values existsb].
  destruct d as [d|]; cbn [to_timestamp format_cell is_absent orb mbind result_bind rbind];
    [|reflexivity].
  rewrite IH. destruct (existsb is_absent l); reflexivity.
Qed.

(** The formatting loop of the preview on a column made of the list [l]. *)
Lemma format_datetime_column l :
  apply_values format_cell (take 15 (values (datetime_column l)))
  = if nat_shown l then Raise nat_error else Ok (map render_timestamp (take 15 l)).
Proof.
  unfold nat_shown. rewrite values_datetime_column. unfold datetime_cell.
  destruct (is_datetime64 l); cbn [andb].
  - rewrite firstn_map. apply format_timestamps.
  - rewrite firstn_map. apply format_objects.
Qed.

Lemma build_preview_spec aug b a sb sa s1 s2 s3 s4 :
  b ∉ derived_labels -> a ∉ derived_labels ->
  lookup_col (columns aug) b = Some sb ->
  lookup_col (columns aug) a = Some sa ->
  lookup_col (columns aug) col_before = Some s1 ->
  lookup_col (columns aug) col_after = Some s2 ->
  lookup_col (columns aug) col_interval = Some s3 ->
  lookup_col (columns aug) col_raw = Some s4 ->
  length (values s1) = nrows aug -> length (values s2) = nrows aug ->
  build_preview aug b a =
  (v1 ← apply_values format_cell (take 15 (values s1));
   v2 ← apply_values format_cell (take 15 (values s2));
   Ok (Frame (Nat.min 15 (nrows aug))
         [(b, Series (dtype_of sb) (take 15 (values sb)));
          (a, Series (dtype_of sa) (take 15 (values sa)));
          (col_before, Series (match v1 with [] => dtype_of s1 | _ => text_dtype end) v1);
          (col_after, Series (match v2 with [] => dtype_of s2 | _ => text_dtype end) v2);
          (col_interval, Series (dtype_of s3) (take 15 (values s3)))],
       take 15 (values s4))).
Proof.
  intros Hb Ha Lb La L1 L2 L3 L4 Hl1 Hl2.
  destruct (not_derived b Hb) as (Hb1 & Hb2 & Hb3 & Hb4).
  destruct (not_derived a Ha) as (Ha1 & Ha2 & Ha3 & Ha4).
  unfold build_preview, select. cbn [app select_cols]. unfold getitem.
  rewrite Lb, La, L1, L2, L3, L4.
  cbn [mbind result_bind rbind].
  unfold format_column, getitem, head.
  cbn [columns map fst snd dtype_of values nrows lookup_col].
  decide_labels.
  frame_steps.
  destruct (apply_values format_cell (take 15 (values s1))) as [v1|e1] eqn:E1;
    [|reflexivity].
  frame_steps.
  rewrite setitem_replace;
    [| cbn [nrows values]; rewrite (length_apply_values _ _ _ E1), length_take; lia
     | frame_steps; eexists; reflexivity ].
  frame_steps.
  destruct (apply_values format_cell (take 15 (values s2))) as [v2|e2] eqn:E2;
    [|reflexivity].
  frame_steps.
  rewrite setitem_replace;
    [| cbn [nrows values]; rewrite (length_apply_values _ _ _ E2), length_take; lia
     | frame_steps; eexists; reflexivity ].
  frame_steps.
  unfold drop_column. frame_steps.
  rewrite !filter_cons, filter_nil. frame_steps.
  reflexivity.
Qed.

End PreviewFacts.

(** * Further properties *)

(** A value is not in a list of constants. *)
Ltac not_in_closed_list :=
  let Hin := fresh "Hin" in
  intros Hin; vm_compute in Hin;
  repeat (apply elem_of_cons in Hin as [Hin|Hin]; [discriminate|]);
  inversion Hin.

(** ** The row loop in closed form *)

Section RowLoop.
Context `{Unicode} `{Outside}.

Lemma cache_le_refl w : cache_le w w.
Proof. intros k v Hk. exact Hk. Qed.

Lemma cache_le_trans w1 w2 w3 : cache_le w1 w2 -> cache_le w2 w3 -> cache_le w1 w3.
Proof. intros H12 H23 k v Hk. apply H23, H12, Hk. Qed.

Lemma cached_le w w' raw :
  cache_le w w' ->
  (forall k, key_of raw = Some k -> is_Some (cache w !! k)) ->
  cached w' raw = cached w raw.
Proof.
  intros Hle Hin. unfold cached. destruct (key_of raw) as [k|]; [|reflexivity].
  destruct (Hin k eq_refl) as [v Hv]. rewrite Hv, (Hle k v Hv). reflexivity.
Qed.

(** One call: what it returns is what the cache answers afterwards. *)
Lemma get_answer raw w :
  exists r w',
    get_datetime_from_url raw w = (Ok r, w')
    /\ heap w' = heap w
    /\ cache_le w w'
    /\ r = cached w' raw
    /\ (forall k, key_of raw = Some k -> is_Some (cache w' !! k))
    /\ (fetched w' = fetched w
        \/ exists k, key_of raw = Some k /\ cache w !! k = None
                     /\ fetched w' = fetched w ++ [k]).
Proof.
  destruct (key_of raw) as [k|] eqn:Hk.
  - destruct (cache w !! k) as [v|] eqn:Hc.
    + rewrite (get_hit raw k v w Hk Hc). exists v, w.
      repeat split; try reflexivity.
      * apply cache_le_refl.
      * unfold cached. rewrite Hk, Hc. reflexivity.
      * intros k' [= <-]. rewrite Hc. eexists; reflexivity.
      * left. reflexivity.
    + rewrite (get_miss raw k w Hk Hc). eexists _, _.
      split; [reflexivity|]. cbn [heap cache fetched]. repeat split.
      * intros k' v' Hk'. cbn [cache]. rewrite lookup_insert_ne; [exact Hk' | congruence].
      * unfold cached. rewrite Hk. cbn [cache]. rewrite lookup_insert_eq. reflexivity.
      * intros k' [= <-]. cbn [cache]. rewrite lookup_insert_eq. eexists; reflexivity.
      * right. exists k. repeat split. exact Hc.
  - rewrite (key_of_None raw w Hk). exists None, w.
    repeat split; try reflexivity.
    + apply cache_le_refl.
    + unfold cached. rewrite Hk. reflexivity.
    + intros k' Hk'. discriminate.
    + left. reflexivity.
Qed.

(** A call whose key has an entry, or that has no key, changes nothing. *)
Lemma get_noop raw w :
  (forall k, key_of raw = Some k -> is_Some (cache w !! k)) ->
  get_datetime_from_url raw w = (Ok (cached w raw), w).
Proof.
  intros Hin. unfold cached. destruct (key_of raw) as [k|] eqn:Hk.
  - destruct (Hin k eq_refl) as [v Hv]. rewrite Hv. apply (get_hit raw k v w Hk Hv).
  - apply key_of_None. exact Hk.
Qed.

Lemma for_rows_closed b a rows acc w :
  exists lists w' new,
    for_rows b a rows acc w = (Ok lists, w')
    /\ heap w' = heap w
    /\ cache_le w w'
    /\ (forall k, cell_key b a rows k -> is_Some (cache w' !! k))
    /\ fetched w' = fetched w ++ new
    /\ (forall k, k ∈ new -> cell_key b a rows k)
    /\ (forall k, k ∈ new -> cache w !! k = None)
    /\ NoDup new
    /\ length new <= 2 * length rows
    /\ before_dates lists
       = before_dates acc ++ before_dates (resolved_lists w' b a rows)
    /\ after_dates lists
       = after_dates acc ++ after_dates (resolved_lists w' b a rows)
    /\ interval_minutes_raw lists
       = interval_minutes_raw acc ++ interval_minutes_raw (resolved_lists w' b a rows)
    /\ interval_strs lists
       = interval_strs acc ++ interval_strs (resolved_lists w' b a rows).
Proof.
  revert acc w. induction rows as [|r rows IH]; intros acc w.
  - exists acc, w, []. cbn [for_rows resolved_lists map before_dates after_dates
                             interval_minutes_raw interval_strs].
    rewrite !app_nil_r.
    repeat split;
      first [ reflexivity
            | apply cache_le_refl
            | constructor
            | (intros k Hk; inversion Hk; fail)
            | (intros k (r & c & Hr & _); inversion Hr) ].
  - cbn [for_rows]. unfold bind, row_body, bind.
    destruct (get_answer (row_get r b) w)
      as (d1 & w1 & -> & Hh1 & Hle1 & Hd1 & Hin1 & Hf1).
    destruct (get_answer (row_get r a) w1)
      as (d2 & w2 & -> & Hh2 & Hle2 & Hd2 & Hin2 & Hf2).
    destruct (row_interval d1 d2) as [minutes label] eqn:Hri. unfold ret.
    set (acc' := {| before_dates := before_dates acc ++ [d1];
                    after_dates := after_dates acc ++ [d2];
                    interval_minutes_raw := interval_minutes_raw acc ++ [minutes];
                    interval_strs := interval_strs acc ++ [label] |}).
    destruct (IH acc' w2)
      as (lists & w' & new & -> & Hh & Hle & Hin & Hf & Hnew & Hmiss & Hnd & Hlen
          & L1 & L2 & L3 & L4).
    assert (Hin1' : forall k, key_of (row_get r b) = Some k -> is_Some (cache w2 !! k)).
    { intros k Hk. destruct (Hin1 k Hk) as [v Hv]. exists v. apply Hle2. exact Hv. }
    assert (E1 : cached w' (row_get r b) = d1).
    { rewrite (cached_le w1 w') by
        (try exact Hin1; eapply cache_le_trans; eassumption).
      symmetry. exact Hd1. }
    assert (E2 : cached w' (row_get r a) = d2).
    { rewrite (cached_le w2 w') by assumption. symmetry. exact Hd2. }
    assert (Hmono : forall w0 w3 k, cache_le w0 w3 -> cache w3 !! k = None ->
                                    cache w0 !! k = None).
    { intros w0 w3 k Hle03 Hn. destruct (cache w0 !! k) as [v|] eqn:Hv; [|reflexivity].
      rewrite (Hle03 k v Hv) in Hn. discriminate. }
    assert (Hf12 : exists new12, fetched w2 = fetched w ++ new12
                   /\ (forall k, k ∈ new12 -> cell_key b a (r :: rows) k)
                   /\ (forall k, k ∈ new12 -> cache w !! k = None)
                   /\ (forall k, k ∈ new12 -> is_Some (cache w2 !! k))
                   /\ NoDup new12 /\ length new12 <= 2).
    { destruct Hf1 as [Hf1 | (k1 & Hk1 & Hm1 & Hf1)];
        destruct Hf2 as [Hf2 | (k2 & Hk2 & Hm2 & Hf2)].
      - exists []. rewrite app_nil_r. split; [congruence|].
        repeat split; try (intros k Hk; inversion Hk); [constructor | cbn; lia].
      - exists [k2]. split; [congruence|]. repeat split.
        + intros k Hk. apply list_elem_of_singleton in Hk as ->.
          exists r, a. split; [left|]. split; [right; reflexivity | exact Hk2].
        + intros k Hk. apply list_elem_of_singleton in Hk as ->.
          apply (Hmono w w1); assumption.
        + intros k Hk. apply list_elem_of_singleton in Hk as ->. apply Hin2. exact Hk2.
        + apply NoDup_singleton.
        + cbn. lia.
      - exists [k1]. split; [congruence|]. repeat split.
        + intros k Hk. apply list_elem_of_singleton in Hk as ->.
          exists r, b. split; [left|]. split; [left; reflexivity | exact Hk1].
        + intros k Hk. apply list_elem_of_singleton in Hk as ->. exact Hm1.
        + intros k Hk. apply list_elem_of_singleton in Hk as ->. apply Hin1'. exact Hk1.
        + apply NoDup_singleton.
        + cbn. lia.
      - exists [k1; k2]. split; [rewrite Hf2, Hf1, <- app_assoc; reflexivity|].
        repeat split.
        + intros k Hk. apply elem_of_cons in Hk as [-> | Hk].
          * exists r, b. split; [left|]. split; [left; reflexivity | exact Hk1].
          * apply list_elem_of_singleton in Hk as ->.
            exists r, a. split; [left|]. split; [right; reflexivity | exact Hk2].
        + intros k Hk. apply elem_of_cons in Hk as [-> | Hk]; [exact Hm1|].
          apply list_elem_of_singleton in Hk as ->. apply (Hmono w w1); assumption.
        + intros k Hk. apply elem_of_cons in Hk as [-> | Hk]; [apply Hin1'; exact Hk1|].
          apply list_elem_of_singleton in Hk as ->. apply Hin2. exact Hk2.
        + apply NoDup_cons. split; [|apply NoDup_singleton].
          intros Hk. apply list_elem_of_singleton in Hk as ->.
          destruct (Hin1 k2 Hk1) as [v Hv]. congruence.
        + cbn. lia. }
    destruct Hf12 as (new12 & Hf12 & Hnew12 & Hmiss12 & Hsome12 & Hnd12 & Hlen12).
    exists lists, w', (new12 ++ new).
    split; [reflexivity|]. split; [congruence|].
    split; [eapply cache_le_trans; [exact Hle1|]; eapply cache_le_trans; eassumption|].
    split.
    { intros k (r' & c & Hr' & Hc & Hk).
      apply elem_of_cons in Hr' as [-> | Hr'].
      - destruct Hc as [-> | ->].
        + destruct (Hin1' k Hk) as [v Hv]. exists v. apply Hle. exact Hv.
        + destruct (Hin2 k Hk) as [v Hv]. exists v. apply Hle. exact Hv.
      - apply Hin. exists r', c. repeat split; assumption. }
    split; [rewrite Hf, Hf12, <- app_assoc; reflexivity|].
    split.
    { intros k Hk. apply elem_of_app in Hk as [Hk | Hk]; [apply Hnew12; exact Hk|].
      destruct (Hnew k Hk) as (r' & c & Hr' & Hc & Hkey).
      exists r', c. split; [right; exact Hr' | split; assumption]. }
    split.
    { intros k Hk. apply elem_of_app in Hk as [Hk | Hk]; [apply Hmiss12; exact Hk|].
      apply (Hmono w w2); [eapply cache_le_trans; eassumption | apply Hmiss; exact Hk]. }
    split.
    { apply NoDup_app. split; [exact Hnd12|]. split; [|exact Hnd].
      intros k Hk12 Hk. destruct (Hsome12 k Hk12) as [v Hv].
      rewrite (Hmiss k Hk) in Hv. discriminate. }
    split; [rewrite length_app; cbn [length]; lia|].
    cbn [resolved_lists map before_dates after_dates interval_minutes_raw interval_strs].
    rewrite E1, E2, Hri. cbn [fst snd].
    rewrite L1, L2, L3, L4. subst acc'.
    cbn [resolved_lists before_dates after_dates interval_minutes_raw interval_strs].
    rewrite <- !app_assoc. repeat split; reflexivity.
Qed.

(** With an entry for every cell key the loop leaves the world as it is. *)
Lemma for_rows_noop b a rows acc w :
  (forall k, cell_key b a rows k -> is_Some (cache w !! k)) ->
  snd (for_rows b a rows acc w) = w.
Proof.
  revert acc. induction rows as [|r rows IH]; intros acc Hin; [reflexivity|].
  cbn [for_rows]. unfold bind, row_body, bind.
  rewrite get_noop
    by (intros k Hk; apply Hin; exists r, b; split; [left|]; split;
        [left; reflexivity | exact Hk]).
  rewrite get_noop
    by (intros k Hk; apply Hin; exists r, a; split; [left|]; split;
        [right; reflexivity | exact Hk]).
  destruct (row_interval _ _) as [minutes label]. unfold ret.
  apply IH. intros k (r' & c & Hr' & Hc & Hk). apply Hin.
  exists r', c. split; [right; exact Hr' | split; assumption].
Qed.

End RowLoop.

(** ** The augmented dataset *)

Lemma lookup_col_is_Some cols c : is_Some (lookup_col cols c) <-> c ∈ map fst cols.
Proof.
  split; [|apply lookup_col_Some].
  intros [s Hs] . induction cols as [|[c' s'] cols IH]; simpl in *; [discriminate|].
  destruct (decide (c' = c)) as [->|]; [left | right; apply IH; exact Hs].
Qed.

Section Augmented.
Context `{Unicode} `{Outside}.

Lemma augmented_ok input lists :
  lists_length (nrows input) lists ->
  exists aug,
    augmented input lists = Ok aug
    /\ nrows aug = nrows input
    /\ lookup_col (columns aug) col_before
       = Some (datetime_column (before_dates lists))
    /\ lookup_col (columns aug) col_after
       = Some (datetime_column (after_dates lists))
    /\ lookup_col (columns aug) col_interval
       = Some (text_column (interval_strs lists))
    /\ lookup_col (columns aug) col_raw
       = Some (minutes_column (interval_minutes_raw lists))
    /\ (forall c, c ∉ derived_labels ->
                  lookup_col (columns aug) c = lookup_col (columns input) c)
    /\ labels aug
       = labels input ++ filter (fun c => c ∉ labels input) derived_labels
    /\ (frame_wf input -> frame_wf aug).
Proof.
  intros (Lb & La & Lr & Ls). unfold augmented.
  destruct (setitem_spec input col_before (datetime_column (before_dates lists)))
    as (f1 & Hs1 & Hn1 & Hc1 & Ho1 & Hl1); [rewrite length_datetime_column; exact Lb|].
  destruct (setitem_spec f1 col_after (datetime_column (after_dates lists)))
    as (f2 & Hs2 & Hn2 & Hc2 & Ho2 & Hl2); [rewrite length_datetime_column; congruence|].
  destruct (setitem_spec f2 col_interval (text_column (interval_strs lists)))
    as (f3 & Hs3 & Hn3 & Hc3 & Ho3 & Hl3); [rewrite length_text_column; congruence|].
  destruct (setitem_spec f3 col_raw (minutes_column (interval_minutes_raw lists)))
    as (f4 & Hs4 & Hn4 & Hc4 & Ho4 & Hl4); [rewrite length_minutes_column; congruence|].
  exists f4. rewrite Hs1. cbn [mbind result_bind rbind]. rewrite Hs2.
  cbn [mbind result_bind rbind]. rewrite Hs3. cbn [mbind result_bind rbind].
  split; [exact Hs4|]. split; [congruence|].
  split; [rewrite Ho4, Ho3, Ho2 by discriminate; exact Hc1|].
  split; [rewrite Ho4, Ho3 by discriminate; exact Hc2|].
  split; [rewrite Ho4 by discriminate; exact Hc3|].
  split; [exact Hc4|].
  split.
  { intros c Hc. destruct (not_derived c Hc) as (? & ? & ? & ?).
    rewrite Ho4, Ho3, Ho2, Ho1 by assumption. reflexivity. }
  split.
  { rewrite Hl4, Hl3, Hl2, Hl1.
    rewrite (Ho3 col_raw), (Ho2 col_raw), (Ho1 col_raw) by discriminate.
    rewrite (Ho2 col_interval), (Ho1 col_interval) by discriminate.
    rewrite (Ho1 col_after) by discriminate.
    unfold derived_labels. rewrite !filter_cons, filter_nil.
    pose proof (lookup_col_is_Some (columns input)) as Hiff. fold (labels input) in Hiff.
    assert (Hdec : forall c,
              (if decide (c ∉ labels input) then c :: [] else [])
              = match lookup_col (columns input) c with
                | Some _ => []
                | None => [c]
                end).
    { intros c. destruct (lookup_col (columns input) c) as [s|] eqn:Hc.
      - rewrite decide_False; [reflexivity|].
        intros Hn. apply Hn. apply Hiff. rewrite Hc. eexists; reflexivity.
      - rewrite decide_True; [reflexivity|].
        intros Hin. apply Hiff in Hin as [s Hs]. congruence. }
    transitivity (labels input
                  ++ (if decide (col_before ∉ labels input) then [col_before] else [])
                  ++ (if decide (col_after ∉ labels input) then [col_after] else [])
                  ++ (if decide (col_interval ∉ labels input) then [col_interval] else [])
                  ++ (if decide (col_raw ∉ labels input) then [col_raw] else [])).
    - rewrite !Hdec.
      destruct (lookup_col (columns input) col_before),
               (lookup_col (columns input) col_after),
               (lookup_col (columns input) col_interval),
               (lookup_col (columns input) col_raw);
        rewrite ?app_nil_r, <- ?app_assoc; reflexivity.
    - f_equal.
      destruct (decide (col_before ∉ labels input)),
               (decide (col_after ∉ labels input)),
               (decide (col_interval ∉ labels input)),
               (decide (col_raw ∉ labels input)); reflexivity. }
  intros Hwf.
  apply (setitem_wf _ _ _ _ (setitem_wf _ _ _ _ (setitem_wf _ _ _ _
           (setitem_wf _ _ _ _ Hwf Hs1) Hs2) Hs3) Hs4).
Qed.

End Augmented.

Section Closed.
Context `{Unicode} `{Outside}.

Lemma resolved_lists_cache w1 w2 b a rows :
  cache w1 = cache w2 -> resolved_lists w1 b a rows = resolved_lists w2 b a rows.
Proof.
  intros Hc. unfold resolved_lists, cached. rewrite Hc. reflexivity.
Qed.

Lemma lists_length_resolved w b a rows :
  lists_length (length rows) (resolved_lists w b a rows).
Proof.
  unfold lists_length, resolved_lists.
  cbn [before_dates after_dates interval_minutes_raw interval_strs].
  rewrite !length_map. repeat split.
Qed.

(** The four assignments through the reference amount to [augmented]. *)
Lemma assign_all {A} l input lists aug (k : M A) w :
  heap w !! l = Some input ->
  augmented input lists = Ok aug ->
  bind (setitem_at l col_before (datetime_column (before_dates lists))) (fun _ =>
  bind (setitem_at l col_after (datetime_column (after_dates lists))) (fun _ =>
  bind (setitem_at l col_interval (text_column (interval_strs lists))) (fun _ =>
  bind (setitem_at l col_raw (minutes_column (interval_minutes_raw lists))) (fun _ => k)))) w
  = k {| cache := cache w; net := net w; fetched := fetched w;
         heap := <[l := aug]> (heap w) |}.
Proof.
  intros Hl Haug. unfold augmented in Haug.
  destruct (setitem input col_before _) as [f1|] eqn:Hs1; [|discriminate].
  cbn [mbind result_bind rbind] in Haug.
  destruct (setitem f1 col_after _) as [f2|] eqn:Hs2; [|discriminate].
  cbn [mbind result_bind rbind] in Haug.
  destruct (setitem f2 col_interval _) as [f3|] eqn:Hs3; [|discriminate].
  cbn [mbind result_bind rbind] in Haug.
  destruct (setitem_at_spec _ _ _ w input f1 Hl Hs1) as (w3 & Hw3 & Hh3 & Hl3).
  destruct (setitem_at_spec _ _ _ w3 f1 f2 Hl3 Hs2) as (w4 & Hw4 & Hh4 & Hl4).
  destruct (setitem_at_spec _ _ _ w4 f2 f3 Hl4 Hs3) as (w5 & Hw5 & Hh5 & Hl5).
  unfold bind. rewrite Hw3, Hw4, Hw5.
  unfold setitem_at in *. rewrite Hl5.
  change (default empty_frame (Some f3)) with f3. rewrite Haug.
  f_equal.
  rewrite Hl in Hw3. change (default empty_frame (Some input)) with input in Hw3.
  rewrite Hs1 in Hw3. injection Hw3 as <-.
  cbn [heap cache net fetched] in *.
  rewrite Hl3 in Hw4. change (default empty_frame (Some f1)) with f1 in Hw4.
  rewrite Hs2 in Hw4. injection Hw4 as <-.
  cbn [heap cache net fetched] in *.
  rewrite Hl4 in Hw5. change (default empty_frame (Some f2)) with f2 in Hw5.
  rewrite Hs3 in Hw5. injection Hw5 as <-.
  cbn [heap cache net fetched].
  rewrite !list_insert_insert_eq. reflexivity.
Qed.

Lemma bind_Ok {A B} (m : M A) (k : A -> M B) w x w' :
  m w = (Ok x, w') -> bind m k w = k x w'.
Proof. intros Hm. unfold bind. rewrite Hm. reflexivity. Qed.

Lemma for_rows_fetched_once b a rows acc w :
  fetched_once w -> fetched_once (snd (for_rows b a rows acc w)).
Proof.
  revert acc w. induction rows as [|r rows IH]; intros acc w Hw; [exact Hw|].
  cbn [for_rows]. unfold bind, row_body, bind.
  pose proof (get_fetched_once (row_get r b) w Hw) as Hw1.
  destruct (get_answer (row_get r b) w) as (d1 & w1 & E1 & _).
  rewrite E1 in Hw1 |- *. cbn [snd] in Hw1.
  pose proof (get_fetched_once (row_get r a) w1 Hw1) as Hw2.
  destruct (get_answer (row_get r a) w1) as (d2 & w2 & E2 & _).
  rewrite E2 in Hw2 |- *. cbn [snd] in Hw2.
  destruct (row_interval d1 d2) as [minutes label]. unfold ret.
  apply IH. exact Hw2.
Qed.

(** The resolver does not look at the heap. *)
Lemma get_with_heap raw w h :
  get_datetime_from_url raw (with_heap w h)
  = (fst (get_datetime_from_url raw w), with_heap (snd (get_datetime_from_url raw w)) h).
Proof.
  unfold get_datetime_from_url, with_heap. destruct raw; try reflexivity.
  destruct (negb (is_nonblank_str (VStr s))); [reflexivity|]. cbn [cache net].
  destruct (cache w !! normalize_url s); [reflexivity|].
  destruct (fetch_datetime (normalize_url s) (net w)). reflexivity.
Qed.

Lemma run_calls_with_heap raws w h :
  run_calls raws (with_heap w h) = with_heap (run_calls raws w) h.
Proof.
  unfold run_calls. revert w. induction raws as [|raw raws IH]; intros w; [reflexivity|].
  cbn [fold_left]. rewrite get_with_heap. cbn [snd]. apply IH.
Qed.

(** The row loop leaves the world that its calls of the resolver leave. *)
Lemma for_rows_run_calls b a rows acc w :
  snd (for_rows b a rows acc w) = run_calls (photo_cells b a rows) w.
Proof.
  revert acc w. induction rows as [|r rows IH]; intros acc w; [reflexivity|].
  cbn [for_rows photo_cells flat_map app]. unfold bind, row_body, bind.
  destruct (get_answer (row_get r b) w) as (d1 & w1 & E1 & _).
  destruct (get_answer (row_get r a) w1) as (d2 & w2 & E2 & _).
  rewrite E1, E2. destruct (row_interval d1 d2) as [minutes label]. unfold ret.
  rewrite IH. unfold run_calls, photo_cells. cbn [fold_left].
  rewrite E1. cbn [snd]. rewrite E2. reflexivity.
Qed.

(** [process_dataframe] in closed form: the row loop, the four
    assignments, and the preview, which alone decides between a result and
    an exception. *)
Lemma process_dataframe_closed w l input b a :
  heap w !! l = Some input ->
  detect_photo_columns input = (b, a) ->
  b <> VNone -> a <> VNone ->
  b ∉ derived_labels -> a ∉ derived_labels ->
  exists w' new aug,
    process_dataframe l w
    = (match build_preview aug b a with
       | Ok (pv, il) => Ok (Output (length (heap w)) b a (to_html pv) il pv)
       | Raise e => Raise e
       end, w')
    /\ augmented input (loop_lists w b a (iterrows input)) = Ok aug
    /\ heap w' = heap w ++ [aug]
    /\ cache_le w w'
    /\ (forall k, cell_key b a (iterrows input) k -> is_Some (cache w' !! k))
    /\ fetched w' = fetched w ++ new
    /\ (forall k, k ∈ new -> cell_key b a (iterrows input) k)
    /\ (forall k, k ∈ new -> cache w !! k = None)
    /\ NoDup new
    /\ length new <= 2 * nrows input
    /\ w' = with_heap (after_loop w b a (iterrows input)) (heap w ++ [aug]).
Proof.
  intros Hl Hdet Hbn Han Hbd Had.
  set (w1 := {| cache := cache w; net := net w; fetched := fetched w;
                heap := heap w ++ [input] |}).
  assert (Hl1 : heap w1 !! length (heap w) = Some input).
  { cbn [heap w1]. rewrite lookup_app_r by lia. rewrite Nat.sub_diag. reflexivity. }
  destruct (for_rows_closed b a (iterrows input) (RowLists [] [] [] []) w1)
    as (lists & w2 & new & Hrows & Hh2 & Hle & Hin & Hf & Hnew & Hmiss & Hnd & Hlennew
        & L1 & L2 & L3 & L4).
  cbn [before_dates after_dates interval_minutes_raw interval_strs app] in L1, L2, L3, L4.
  assert (Hlists : lists = resolved_lists w2 b a (iterrows input)).
  { destruct lists. cbn in L1, L2, L3, L4. subst. reflexivity. }
  clear L1 L2 L3 L4. subst lists.
  assert (Hw2 : w2 = with_heap (after_loop w b a (iterrows input)) (heap w ++ [input])).
  { pose proof (for_rows_run_calls b a (iterrows input) (RowLists [] [] [] []) w1) as Hrun.
    rewrite Hrows in Hrun. cbn [snd] in Hrun. rewrite Hrun.
    change w1 with (with_heap w (heap w ++ [input])).
    apply run_calls_with_heap. }
  assert (Hloop : resolved_lists w2 b a (iterrows input)
                  = loop_lists w b a (iterrows input)).
  { unfold loop_lists. apply resolved_lists_cache. rewrite Hw2. reflexivity. }
  rewrite Hloop in Hrows.
  pose proof (lists_length_resolved (after_loop w b a (iterrows input)) b a
                (iterrows input)) as Hlen.
  rewrite length_iterrows in Hlen. fold (loop_lists w b a (iterrows input)) in Hlen.
  destruct (augmented_ok input _ Hlen) as (aug & Haug & _).
  assert (Hl2 : heap w2 !! length (heap w) = Some input) by (rewrite Hh2; exact Hl1).
  set (w' := {| cache := cache w2; net := net w2; fetched := fetched w2;
                heap := <[length (heap w) := aug]> (heap w2) |}).
  assert (Hheap : heap w' = heap w ++ [aug]).
  { cbn [heap w']. rewrite Hh2. cbn [heap w1].
    rewrite insert_app_r_alt by lia. rewrite Nat.sub_diag. reflexivity. }
  exists w', new, aug.
  split.
  { unfold process_dataframe.
    erewrite bind_Ok by (unfold deref; rewrite Hl; reflexivity).
    change (default empty_frame (Some input)) with input. rewrite Hdet.
    replace (is_None b || is_None a) with false
      by (destruct b, a; try reflexivity; contradiction).
    erewrite bind_Ok by (unfold copy; reflexivity). fold w1.
    erewrite bind_Ok by (unfold deref; rewrite Hl1; reflexivity).
    change (default empty_frame (Some input)) with input.
    erewrite bind_Ok by exact Hrows.
    rewrite (assign_all _ input _ aug _ w2 Hl2 Haug). fold w'.
    erewrite bind_Ok
      by (unfold deref; rewrite Hheap, lookup_app_r by lia;
          rewrite Nat.sub_diag; reflexivity).
    change (default empty_frame ([aug] !! 0)) with aug.
    unfold bind, lift.
    destruct (build_preview aug b a) as [[pv il]|e]; reflexivity. }
  split; [exact Haug|].
  split; [exact Hheap|].
  split; [intros k v Hk; apply (Hle k v); exact Hk|].
  split; [exact Hin|].
  split; [exact Hf|].
  split; [exact Hnew|].
  split; [exact Hmiss|].
  split; [exact Hnd|].
  split; [rewrite length_iterrows in Hlennew; exact Hlennew|].
  unfold w'. rewrite Hw2. unfold with_heap. cbn [cache net fetched heap].
  f_equal. rewrite insert_app_r_alt by lia. rewrite Nat.sub_diag. reflexivity.
Qed.

(** The preview of the augmented dataset, when no [NaT] is shown, and the
    exception otherwise. *)
Lemma build_preview_augmented input lists aug b a sb sa :
  lists_length (nrows input) lists ->
  augmented input lists = Ok aug ->
  b ∉ derived_labels -> a ∉ derived_labels ->
  lookup_col (columns input) b = Some sb ->
  lookup_col (columns input) a = Some sa ->
  build_preview aug b a =
  if nat_shown (before_dates lists) || nat_shown (after_dates lists)
  then Raise nat_error
  else Ok (expected_preview (nrows input) b a sb sa lists, expected_intervals lists).
Proof.
  intros Hlen Haug Hbd Had Hsb Hsa.
  destruct (augmented_ok input lists Hlen)
    as (aug' & Haug' & Hn & A1 & A2 & A3 & A4 & Akeep & _).
  rewrite Haug in Haug'. injection Haug' as <-.
  destruct Hlen as (Lb & La & _ & _).
  rewrite (build_preview_spec aug b a sb sa _ _ _ _ Hbd Had
             ltac:(rewrite (Akeep b Hbd); exact Hsb)
             ltac:(rewrite (Akeep a Had); exact Hsa)
             A1 A2 A3 A4
             ltac:(rewrite length_datetime_column; congruence)
             ltac:(rewrite length_datetime_column; congruence)).
  rewrite !format_datetime_column, Hn, values_text_column, values_minutes_column.
  destruct (nat_shown (before_dates lists)); [reflexivity|].
  cbn [mbind result_bind rbind orb].
  destruct (nat_shown (after_dates lists)); reflexivity.
Qed.

End Closed.

(** ** Timestamps are calendar dates *)

Lemma extract_valid `{Unicode} v d :
  extract_datetime_from_string v = Ok (Some d) -> valid_datetime d = true.
Proof.
  destruct v as [| | |z|z|s|d0]; try discriminate.
  destruct (re_search s) as [[D T]|] eqn:Hs.
  - destruct (re_search_sound s D T Hs) as (pre & (rest & _ & Hst) & _).
    destruct Hst as (post & _ & HlD & HlT & HdD & HdT).
    destruct (decimal_values D HdD) as (kD & HkD & HlenD).
    destruct (decimal_values T HdT) as (kT & HkT & HlenT).
    rewrite HlD in HlenD. rewrite HlT in HlenT.
    do 9 (destruct kD as [|? kD]; try discriminate).
    do 7 (destruct kT as [|? kT]; try discriminate).
    rewrite (extract_of_search s D T _ _ _ _ _ _ _ _ _ _ _ _ _ _ Hs HkD HkT).
    destruct (valid_date _ _ _ && valid_time _ _ _) eqn:Hv; [|discriminate].
    intros [= <-]. exact Hv.
  - unfold extract_datetime_from_string. rewrite Hs. discriminate.
Qed.

Section Validity.
Context `{Unicode} `{Outside}.

Lemma fetch_valid url n d :
  fst (fetch_datetime url n) = Some d -> valid_datetime d = true.
Proof.
  unfold fetch_datetime. destruct (requests_get n url) as [n' [final_url|e]]; [|discriminate].
  destruct (extract_datetime_from_string (VStr final_url)) as [r|e] eqn:He; [|discriminate].
  cbn [fst]. intros ->. exact (extract_valid _ _ He).
Qed.

Lemma get_cache_valid raw w :
  cache_valid w -> cache_valid (snd (get_datetime_from_url raw w)).
Proof.
  intros Hv. destruct (key_of raw) as [k|] eqn:Hk.
  - destruct (cache w !! k) as [v|] eqn:Hc.
    + rewrite (get_hit raw k v w Hk Hc). exact Hv.
    + rewrite (get_miss raw k w Hk Hc). intros k' d. cbn [snd cache].
      destruct (decide (k' = k)) as [->|Hne].
      * rewrite lookup_insert_eq. intros [= Hd]. exact (fetch_valid _ _ _ Hd).
      * rewrite lookup_insert_ne by congruence. apply Hv.
  - rewrite (key_of_None raw w Hk). exact Hv.
Qed.


Lemma cached_valid w raw d :
  cache_valid w -> cached w raw = Some d -> valid_datetime d = true.
Proof.
  intros Hv. unfold cached. destruct (key_of raw) as [k|]; [|discriminate].
  destruct (cache w !! k) as [[d'|]|] eqn:Hc; try discriminate.
  cbn. intros [= <-]. exact (Hv k d' Hc).
Qed.

End Validity.

(** ** The whole run of [process_dataframe] *)

Section RunFacts.
Context `{Unicode} `{Outside}.

Lemma process_dataframe_fails w l input :
  heap w !! l = Some input ->
  is_None (fst (detect_photo_columns input))
  || is_None (snd (detect_photo_columns input)) = true ->
  process_dataframe l w = (Raise detection_error, w).
Proof.
  intros Hl Hdet. unfold process_dataframe, bind, deref. rewrite Hl.
  change (default empty_frame (Some input)) with input.
  destruct (detect_photo_columns input) as [b a]. cbn [fst snd] in Hdet.
  rewrite Hdet. reflexivity.
Qed.

Lemma fetched_once_with_heap w h : fetched_once w -> fetched_once (with_heap w h).
Proof. intros Hw. exact Hw. Qed.

Lemma cell_keys_with_heap w h b a rows :
  (forall k, cell_key b a rows k -> is_Some (cache w !! k)) ->
  forall k, cell_key b a rows k -> is_Some (cache (with_heap w h) !! k).
Proof. intros Hw. exact Hw. Qed.

End RunFacts.

Section Outcome.
Context `{Unicode} `{Outside}.

(** With an entry for every cell key, the calls of the row loop change
    nothing. *)
Lemma after_loop_noop w b a rows :
  (forall k, cell_key b a rows k -> is_Some (cache w !! k)) ->
  after_loop w b a rows = w.
Proof.
  intros Hin. unfold after_loop.
  rewrite <- (for_rows_run_calls b a rows (RowLists [] [] [] []) w).
  apply for_rows_noop. exact Hin.
Qed.

(** The outcome of [process_dataframe] once two columns are detected. *)
Lemma process_dataframe_cases w l input b a :
  heap w !! l = Some input ->
  detect_photo_columns input = (b, a) ->
  b <> VNone -> a <> VNone ->
  b ∉ derived_labels -> a ∉ derived_labels ->
  exists w' new aug sb sa,
    augmented input (loop_lists w b a (iterrows input)) = Ok aug
    /\ lookup_col (columns input) b = Some sb
    /\ lookup_col (columns input) a = Some sa
    /\ w' = with_heap (after_loop w b a (iterrows input)) (heap w ++ [aug])
    /\ (forall k, cell_key b a (iterrows input) k -> is_Some (cache w' !! k))
    /\ fetched w' = fetched w ++ new
    /\ (forall k, k ∈ new -> cell_key b a (iterrows input) k)
    /\ (forall k, k ∈ new -> cache w !! k = None)
    /\ NoDup new
    /\ length new <= 2 * nrows input
    /\ cache_le w w'
    /\ process_dataframe l w =
       (if preview_fails w b a (iterrows input) then Raise nat_error
        else Ok (Output (length (heap w)) b a
                   (to_html (expected_preview (nrows input) b a sb sa
                               (loop_lists w b a (iterrows input))))
                   (expected_intervals (loop_lists w b a (iterrows input)))
                   (expected_preview (nrows input) b a sb sa
                      (loop_lists w b a (iterrows input)))),
        w').
Proof.
  intros Hl Hdet Hbn Han Hbd Had.
  destruct (detect_in_labels input b a Hdet) as [Hbin Hain].
  destruct (lookup_col_Some (columns input) b (Hbin Hbn)) as [sb Hsb].
  destruct (lookup_col_Some (columns input) a (Hain Han)) as [sa Hsa].
  destruct (process_dataframe_closed w l input b a Hl Hdet Hbn Han Hbd Had)
    as (w' & new & aug & Hrun & Haug & Hheap & Hle & Hin & Hf & Hnew & Hmiss & Hnd
        & Hlen & Hw').
  exists w', new, aug, sb, sa.
  split; [exact Haug|]. split; [exact Hsb|]. split; [exact Hsa|].
  split; [exact Hw'|]. split; [exact Hin|]. split; [exact Hf|].
  split; [exact Hnew|]. split; [exact Hmiss|]. split; [exact Hnd|].
  split; [exact Hlen|]. split; [exact Hle|].
  rewrite Hrun.
  pose proof (lists_length_resolved (after_loop w b a (iterrows input)) b a
                (iterrows input)) as Hll.
  rewrite length_iterrows in Hll. fold (loop_lists w b a (iterrows input)) in Hll.
  rewrite (build_preview_augmented input _ aug b a sb sa Hll Haug Hbd Had Hsb Hsa).
  unfold preview_fails.
  destruct (nat_shown _ || nat_shown _); reflexivity.
Qed.


Lemma column_values_expected n b a sb sa lists :
  b ∉ derived_labels -> a ∉ derived_labels ->
  (b = a -> sb = sa) ->
  let pv := expected_preview n b a sb sa lists in
  nrows pv = Nat.min 15 n
  /\ labels pv = [b; a; col_before; col_after; col_interval]
  /\ column_values pv b = take 15 (values sb)
  /\ column_values pv a = take 15 (values sa)
  /\ column_values pv col_before = map render_timestamp (take 15 (before_dates lists))
  /\ column_values pv col_after = map render_timestamp (take 15 (after_dates lists))
  /\ column_values pv col_interval = take 15 (map VStr (interval_strs lists)).
Proof.
  intros Hbd Had Hsame pv.
  destruct (not_derived b Hbd) as (Hb1 & Hb2 & Hb3 & Hb4).
  destruct (not_derived a Had) as (Ha1 & Ha2 & Ha3 & Ha4).
  split; [reflexivity|]. split; [reflexivity|].
  unfold pv, expected_preview, column_values. cbn [columns lookup_col].
  split; [rewrite decide_True by reflexivity; reflexivity|].
  split.
  { destruct (decide (b = a)) as [E|E]; [rewrite (Hsame E); reflexivity|].
    rewrite decide_True by reflexivity. reflexivity. }
  decide_labels. repeat split.
Qed.

End Outcome.

(** C9.  The preview does not render an absent timestamp as the empty
    string when its column also holds a timestamp: on the sample dataset
    the row loop resolves the before photo of the first row and not that
    of the second, the column assigned from these two results is a
    [datetime64] column whose second cell is [NaT], and the formatting
    step, which takes [NaT] for a [datetime], raises: there is no
    preview. *)
Theorem process_dataframe_absent_timestamp_raises :
  before_dates (@loop_lists basic_unicode (table_outside demo_redirects) demo_world
                  (VStr (u " Фото ДО ")) (VStr (u "ФОТО после")) (iterrows demo_headers))
  = [Some (Datetime 2024 1 1 10 0 0); None]
  /\ values (@datetime_column (table_outside demo_redirects)
               [Some (Datetime 2024 1 1 10 0 0); None])
     = [VDatetime (Datetime 2024 1 1 10 0 0); VNaT]
  /\ @format_cell (table_outside demo_redirects) VNone = Ok (VStr empty_str)
  /\ @format_cell (table_outside demo_redirects) VNaT = Raise nat_error
  /\ fst (@process_dataframe basic_unicode (table_outside demo_redirects) 0 demo_world)
     = Raise nat_error.
Proof. repeat split; vm_compute; reflexivity. Qed.



(** X1.  On a dataset with two detected photo columns, neither of them
    named like a derived column, and when no [NaT] is shown in the
    preview, [process_dataframe] returns normally with these two columns.
    Its result is a new frame, next to the input in the heap, with as many
    rows as the input: the columns of the input in their order, followed
    by the derived columns the input did not have; every column that is not
    a derived one is as in the input, every derived column has one cell
    per row, and the result is well formed if the input is. *)
Theorem process_dataframe_augments `{Unicode} `{Outside} :
  forall w l input b a,
    heap w !! l = Some input ->
    detect_photo_columns input = (b, a) ->
    b <> VNone -> a <> VNone ->
    b ∉ derived_labels -> a ∉ derived_labels ->
    preview_fails w b a (iterrows input) = false ->
    exists out w' aug,
      process_dataframe l w = (Ok out, w')
      /\ out_before_col out = b /\ out_after_col out = a
      /\ df_processed out = length (heap w)
      /\ heap w' = heap w ++ [aug]
      /\ nrows aug = nrows input
      /\ labels aug
         = labels input ++ filter (fun c => c ∉ labels input) derived_labels
      /\ (forall c, c ∉ derived_labels ->
                    lookup_col (columns aug) c = lookup_col (columns input) c)
      /\ (forall c, c ∈ derived_labels -> length (column_values aug c) = nrows input)
      /\ (frame_wf input -> frame_wf aug).
Proof.
  intros w l input b a Hl Hdet Hbn Han Hbd Had Hshown.
  destruct (process_dataframe_cases w l input b a Hl Hdet Hbn Han Hbd Had)
    as (w' & new & aug & sb & sa & Haug & _ & _ & Hw' & _ & _ & _ & _ & _ & _ & _ & Hrun).
  rewrite Hshown in Hrun.
  pose proof (lists_length_resolved (after_loop w b a (iterrows input)) b a
                (iterrows input)) as Hlen.
  rewrite length_iterrows in Hlen. fold (loop_lists w b a (iterrows input)) in Hlen.
  destruct (augmented_ok input _ Hlen)
    as (aug' & Haug' & Hn & A1 & A2 & A3 & A4 & Akeep & Hlab & Hwf).
  rewrite Haug in Haug'. injection Haug' as <-.
  eexists _, w', aug. split; [exact Hrun|].
  cbn [out_before_col out_after_col df_processed].
  split; [reflexivity|]. split; [reflexivity|]. split; [reflexivity|].
  split; [rewrite Hw'; reflexivity|]. split; [exact Hn|]. split; [exact Hlab|].
  split; [exact Akeep|]. split; [|exact Hwf].
  intros c Hc. unfold column_values, derived_labels in *.
  destruct Hlen as (L1 & L2 & L3 & L4).
  repeat (apply elem_of_cons in Hc as [-> | Hc];
          [first [ rewrite A1, length_datetime_column
                 | rewrite A2, length_datetime_column
                 | rewrite A3, length_text_column
                 | rewrite A4, length_minutes_column ];
           assumption|]).
  inversion Hc.
Qed.

(** X1 on the sample dataset whose photos all resolve. *)
Lemma process_dataframe_augments_witness :
  exists out w' aug,
    @process_dataframe basic_unicode (table_outside demo_redirects) 0 demo_resolved_world
    = (Ok out, w')
    /\ out_before_col out = VStr (u "Фото ДО")
    /\ out_after_col out = VStr (u "Фото ПОСЛЕ")
    /\ df_processed out = length (heap demo_resolved_world)
    /\ heap w' = heap demo_resolved_world ++ [aug]
    /\ nrows aug = nrows demo_resolved
    /\ labels aug
       = labels demo_resolved
         ++ filter (fun c => c ∉ labels demo_resolved) derived_labels
    /\ (forall c, c ∉ derived_labels ->
                  lookup_col (columns aug) c = lookup_col (columns demo_resolved) c)
    /\ (forall c, c ∈ derived_labels ->
                  length (column_values aug c) = nrows demo_resolved)
    /\ (frame_wf demo_resolved -> frame_wf aug).
Proof.
  apply (@process_dataframe_augments basic_unicode (table_outside demo_redirects)
           demo_resolved_world 0 demo_resolved
           (VStr (u "Фото ДО")) (VStr (u "Фото ПОСЛЕ"))).
  - reflexivity.
  - vm_compute. reflexivity.
  - discriminate.
  - discriminate.
  - not_in_closed_list.
  - not_in_closed_list.
  - vm_compute. reflexivity.
Defined.

(** X2.  Row by row, the frame [process_dataframe] returns holds what the
    row loop appended, as pandas stores it.  The two timestamp cells of a
    row are what the cache answers, once the run is over, for the row's two
    photo cells: the timestamp, and for an absent one [NaT] in a
    [datetime64] column and [None] in a column of objects.  The label is
    the label [row_interval] gives for these two answers, and the raw
    minutes are its minutes: an [int] when every row has minutes, a
    [float] or [nan] when only some have, [None] when none has. *)
Theorem process_dataframe_rows `{Unicode} `{Outside} :
  forall w l input b a,
    heap w !! l = Some input ->
    detect_photo_columns input = (b, a) ->
    b <> VNone -> a <> VNone ->
    b ∉ derived_labels -> a ∉ derived_labels ->
    preview_fails w b a (iterrows input) = false ->
    exists out w' aug,
      process_dataframe l w = (Ok out, w')
      /\ heap w' !! (df_processed out) = Some aug
      /\ forall i r,
          iterrows input !! i = Some r ->
          column_values aug col_before !! i
          = Some (datetime_cell (before_dates (resolved_lists w' b a (iterrows input)))
                    (cached w' (row_get r b)))
          /\ column_values aug col_after !! i
             = Some (datetime_cell (after_dates (resolved_lists w' b a (iterrows input)))
                       (cached w' (row_get r a)))
          /\ column_values aug col_interval !! i
             = Some (VStr (snd (row_interval (cached w' (row_get r b))
                                             (cached w' (row_get r a)))))
          /\ column_values aug col_raw !! i
             = Some (minutes_cell
                       (interval_minutes_raw (resolved_lists w' b a (iterrows input)))
                       (fst (row_interval (cached w' (row_get r b))
                                          (cached w' (row_get r a))))).
Proof.
  intros w l input b a Hl Hdet Hbn Han Hbd Had Hshown.
  destruct (process_dataframe_cases w l input b a Hl Hdet Hbn Han Hbd Had)
    as (w' & new & aug & sb & sa & Haug & _ & _ & Hw' & _ & _ & _ & _ & _ & _ & _ & Hrun).
  rewrite Hshown in Hrun.
  assert (Hlists : resolved_lists w' b a (iterrows input)
                   = loop_lists w b a (iterrows input)).
  { unfold loop_lists. apply resolved_lists_cache. rewrite Hw'. reflexivity. }
  pose proof (lists_length_resolved w' b a (iterrows input)) as Hlen.
  rewrite length_iterrows in Hlen. rewrite <- Hlists in Haug.
  destruct (augmented_ok input _ Hlen)
    as (aug' & Haug' & Hn & A1 & A2 & A3 & A4 & _).
  rewrite Haug in Haug'. injection Haug' as <-.
  eexists _, w', aug. split; [exact Hrun|]. cbn [df_processed].
  split; [rewrite Hw'; cbn [heap with_heap]; rewrite lookup_app_r by lia;
          rewrite Nat.sub_diag; reflexivity|].
  intros i r Hr. unfold column_values. rewrite A1, A2, A3, A4.
  rewrite !values_datetime_column, values_text_column, values_minutes_column.
  cbn [resolved_lists before_dates after_dates interval_minutes_raw interval_strs].
  rewrite !list_lookup_fmap, Hr. repeat split.
Qed.

(** X2 on the sample dataset whose photos all resolve. *)
Lemma process_dataframe_rows_witness :
  exists out w' aug,
    @process_dataframe basic_unicode (table_outside demo_redirects) 0 demo_resolved_world
    = (Ok out, w')
    /\ heap w' !! (df_processed out) = Some aug
    /\ forall (i : nat) r,
        iterrows demo_resolved !! i = Some r ->
        column_values aug col_before !! i
        = Some (@datetime_cell (table_outside demo_redirects)
                  (before_dates
                     (resolved_lists w'
                        (VStr (u "Фото ДО")) (VStr (u "Фото ПОСЛЕ"))
                        (iterrows demo_resolved)))
                  (cached w' (row_get r (VStr (u "Фото ДО")))))
        /\ column_values aug col_after !! i
           = Some (@datetime_cell (table_outside demo_redirects)
                     (after_dates
                        (resolved_lists w'
                           (VStr (u "Фото ДО")) (VStr (u "Фото ПОСЛЕ"))
                           (iterrows demo_resolved)))
                     (cached w' (row_get r (VStr (u "Фото ПОСЛЕ")))))
        /\ column_values aug col_interval !! i
           = Some (VStr (snd (row_interval
                                (cached w' (row_get r (VStr (u "Фото ДО"))))
                                (cached w' (row_get r (VStr (u "Фото ПОСЛЕ")))))))
        /\ column_values aug col_raw !! i
           = Some (minutes_cell
                     (interval_minutes_raw
                        (resolved_lists w'
                           (VStr (u "Фото ДО")) (VStr (u "Фото ПОСЛЕ"))
                           (iterrows demo_resolved)))
                     (fst (row_interval
                             (cached w' (row_get r (VStr (u "Фото ДО"))))
                             (cached w' (row_get r (VStr (u "Фото ПОСЛЕ"))))))).
Proof.
  apply (@process_dataframe_rows basic_unicode (table_outside demo_redirects)
           demo_resolved_world 0 demo_resolved
           (VStr (u "Фото ДО")) (VStr (u "Фото ПОСЛЕ"))).
  - reflexivity.
  - vm_compute. reflexivity.
  - discriminate.
  - discriminate.
  - not_in_closed_list.
  - not_in_closed_list.
  - vm_compute. reflexivity.
Defined.

(** The cells of the sample dataset whose photos all resolve: timestamps,
    and minutes as floats next to a [nan]. *)
Example rows_of_demo_resolved :
  match @process_dataframe basic_unicode (table_outside demo_redirects) 0
          demo_resolved_world with
  | (Ok out, w') =>
      match heap w' !! df_processed out with
      | Some aug =>
          column_values aug col_before
          = [VDatetime (Datetime 2024 1 1 10 0 0); VDatetime (Datetime 2024 1 1 10 45 0)]
          /\ column_values aug col_interval = [VStr (u "45 мин"); VStr (u "ошибка")]
          /\ column_values aug col_raw = [VFloat 45; VNaN]
          /\ interval_list out = [VFloat 45; VNaN]
          /\ column_values (preview_df out) col_after
             = [VStr (u "2024-01-01 10:45:00"); VStr (u "2024-01-01 09:30:00")]
      | None => False
      end
  | (Raise _, _) => False
  end.
Proof. vm_compute. repeat split. Qed.

(** X3.  A run of [process_dataframe] fetches only keys of cells of the
    two photo columns that had no cache entry, each of them once, hence at
    most two URLs per row; it keeps every cache entry it found, and if no
    URL had been fetched twice before the run, none has been after it. *)
Theorem process_dataframe_fetches `{Unicode} `{Outside} :
  forall w l input b a,
    heap w !! l = Some input ->
    detect_photo_columns input = (b, a) ->
    b <> VNone -> a <> VNone ->
    b ∉ derived_labels -> a ∉ derived_labels ->
    exists new,
      fetched (snd (process_dataframe l w)) = fetched w ++ new
      /\ NoDup new
      /\ length new <= 2 * nrows input
      /\ (forall k, k ∈ new ->
                    cache w !! k = None /\ cell_key b a (iterrows input) k)
      /\ cache_le w (snd (process_dataframe l w))
      /\ (fetched_once w -> fetched_once (snd (process_dataframe l w))).
Proof.
  intros w l input b a Hl Hdet Hbn Han Hbd Had.
  destruct (process_dataframe_cases w l input b a Hl Hdet Hbn Han Hbd Had)
    as (w' & new & aug & sb & sa & _ & _ & _ & Hw' & _ & Hf & Hnew & Hmiss & Hnd
        & Hlen & Hle & Hrun).
  rewrite Hrun. cbn [snd]. exists new.
  split; [exact Hf|]. split; [exact Hnd|]. split; [exact Hlen|].
  split; [intros k Hk; split; [apply Hmiss | apply Hnew]; exact Hk|].
  split; [exact Hle|].
  intros Hfo. rewrite Hw'. apply fetched_once_with_heap.
  apply run_calls_fetched_once. exact Hfo.
Qed.

(** X3 on the sample dataset with headers. *)
Lemma process_dataframe_fetches_witness :
  exists new,
    fetched (snd (@process_dataframe basic_unicode (table_outside demo_redirects) 0
                    demo_world))
    = fetched demo_world ++ new
    /\ NoDup new
    /\ length new <= 2 * nrows demo_headers
    /\ (forall k, k ∈ new ->
                  cache demo_world !! k = None
                  /\ cell_key (VStr (u " Фото ДО ")) (VStr (u "ФОТО после"))
                       (iterrows demo_headers) k)
    /\ cache_le demo_world
         (snd (@process_dataframe basic_unicode (table_outside demo_redirects) 0 demo_world))
    /\ (fetched_once demo_world ->
        fetched_once
          (snd (@process_dataframe basic_unicode (table_outside demo_redirects) 0
                  demo_world))).
Proof.
  apply (@process_dataframe_fetches basic_unicode (table_outside demo_redirects)
           demo_world 0 demo_headers
           (VStr (u " Фото ДО ")) (VStr (u "ФОТО после"))).
  - reflexivity.
  - vm_compute. reflexivity.
  - discriminate.
  - discriminate.
  - not_in_closed_list.
  - not_in_closed_list.
Defined.

(** X4.  Processing the same dataset a second time sends no request and
    leaves cache and network as the first run left them, and it ends as
    the first run did: with the same exception, or with another frame of
    the same contents, the same preview and the same list of raw
    minutes. *)
Theorem process_dataframe_again `{Unicode} `{Outside} :
  forall w l input b a,
    heap w !! l = Some input ->
    detect_photo_columns input = (b, a) ->
    b <> VNone -> a <> VNone ->
    b ∉ derived_labels -> a ∉ derived_labels ->
    exists w1 w2,
      snd (process_dataframe l w) = w1
      /\ snd (process_dataframe l w1) = w2
      /\ cache w2 = cache w1 /\ net w2 = net w1 /\ fetched w2 = fetched w1
      /\ match fst (process_dataframe l w), fst (process_dataframe l w1) with
         | Ok out1, Ok out2 =>
             df_processed out2 <> df_processed out1
             /\ (exists aug, heap w1 !! (df_processed out1) = Some aug
                             /\ heap w2 !! (df_processed out2) = Some aug)
             /\ preview_html out2 = preview_html out1
             /\ interval_list out2 = interval_list out1
         | Raise e1, Raise e2 => e1 = e2
         | _, _ => False
         end.
Proof.
  intros w l input b a Hl Hdet Hbn Han Hbd Had.
  destruct (process_dataframe_cases w l input b a Hl Hdet Hbn Han Hbd Had)
    as (w1 & new1 & aug1 & sb & sa & Haug1 & Hsb & Hsa & Hw1 & Hin1 & _ & _ & _ & _
        & _ & _ & Hrun1).
  assert (Hheap1 : heap w1 = heap w ++ [aug1]) by (rewrite Hw1; reflexivity).
  assert (Hl1 : heap w1 !! l = Some input).
  { rewrite Hheap1. rewrite lookup_app_l by (eapply lookup_lt_Some; eassumption).
    exact Hl. }
  destruct (process_dataframe_cases w1 l input b a Hl1 Hdet Hbn Han Hbd Had)
    as (w2 & new2 & aug2 & sb' & sa' & Haug2 & Hsb' & Hsa' & Hw2 & _ & _ & _ & _ & _
        & _ & _ & Hrun2).
  rewrite Hsb in Hsb'. injection Hsb' as <-. rewrite Hsa in Hsa'. injection Hsa' as <-.
  pose proof (after_loop_noop w1 b a (iterrows input) Hin1) as Hnoop.
  assert (Hlists : loop_lists w1 b a (iterrows input) = loop_lists w b a (iterrows input)).
  { unfold loop_lists. rewrite Hnoop. apply resolved_lists_cache.
    rewrite Hw1. reflexivity. }
  assert (Hfails : preview_fails w1 b a (iterrows input)
                   = preview_fails w b a (iterrows input)).
  { unfold preview_fails. rewrite Hlists. reflexivity. }
  rewrite Hlists in Haug2, Hrun2. rewrite Haug1 in Haug2. injection Haug2 as <-.
  rewrite Hfails in Hrun2. rewrite Hnoop in Hw2.
  exists w1, w2. rewrite Hrun1, Hrun2. cbn [fst snd].
  split; [reflexivity|]. split; [reflexivity|].
  split; [rewrite Hw2; reflexivity|].
  split; [rewrite Hw2; reflexivity|].
  split; [rewrite Hw2; reflexivity|].
  destruct (preview_fails w b a (iterrows input)); [reflexivity|].
  cbn [df_processed preview_html interval_list].
  split; [rewrite Hheap1, length_app; cbn [length]; lia|].
  split; [|split; reflexivity].
  exists aug1. split.
  - rewrite Hheap1, lookup_app_r by lia. rewrite Nat.sub_diag. reflexivity.
  - rewrite Hw2. cbn [heap with_heap]. rewrite lookup_app_r by lia.
    rewrite Nat.sub_diag. reflexivity.
Qed.

(** X4 on the sample dataset whose photos all resolve. *)
Lemma process_dataframe_again_witness :
  exists w1 w2,
    snd (@process_dataframe basic_unicode (table_outside demo_redirects) 0
           demo_resolved_world) = w1
    /\ snd (@process_dataframe basic_unicode (table_outside demo_redirects) 0 w1) = w2
    /\ cache w2 = cache w1 /\ net w2 = net w1 /\ fetched w2 = fetched w1
    /\ match fst (@process_dataframe basic_unicode (table_outside demo_redirects) 0
                    demo_resolved_world),
             fst (@process_dataframe basic_unicode (table_outside demo_redirects) 0 w1)
       with
       | Ok out1, Ok out2 =>
           df_processed out2 <> df_processed out1
           /\ (exists aug, heap w1 !! (df_processed out1) = Some aug
                           /\ heap w2 !! (df_processed out2) = Some aug)
           /\ preview_html out2 = preview_html out1
           /\ interval_list out2 = interval_list out1
       | Raise e1, Raise e2 => e1 = e2
       | _, _ => False
       end.
Proof.
  apply (@process_dataframe_again basic_unicode (table_outside demo_redirects)
           demo_resolved_world 0 demo_resolved
           (VStr (u "Фото ДО")) (VStr (u "Фото ПОСЛЕ"))).
  - reflexivity.
  - vm_compute. reflexivity.
  - discriminate.
  - discriminate.
  - not_in_closed_list.
  - not_in_closed_list.
Defined.

Section PreviewCells.
Context `{Unicode} `{Outside}.


End PreviewCells.



(** The sample C library writes the year as the law asks, and a year below
    1000 with fewer than four digits. *)
Example sample_strftime_Y :
  @strftime_Y_law (table_outside demo_redirects)
  /\ @strftime (table_outside demo_redirects) (Datetime 999 1 1 0 0 0)
     = u "999-01-01 00:00:00".
Proof. split; [intros y _; reflexivity | vm_compute; reflexivity]. Qed.

(** X23.  The preview, when it is rendered: it has the first 15 rows at
    most, and exactly five columns, the two detected photo columns with
    their cells as in the input and three derived ones; a timestamp is
    shown as [strftime] writes it and an absent one as the empty string;
    the labels are those of the result; the raw minutes are not in the
    table, and the list returned with it holds them for the same rows. *)
Theorem process_dataframe_preview `{Unicode} `{Outside} :
  forall w l input b a,
    heap w !! l = Some input ->
    detect_photo_columns input = (b, a) ->
    b <> VNone -> a <> VNone ->
    b ∉ derived_labels -> a ∉ derived_labels ->
    preview_fails w b a (iterrows input) = false ->
    exists out w' aug,
      process_dataframe l w = (Ok out, w')
      /\ heap w' !! (df_processed out) = Some aug
      /\ preview_html out = to_html (preview_df out)
      /\ nrows (preview_df out) = Nat.min 15 (nrows input)
      /\ labels (preview_df out) = [b; a; col_before; col_after; col_interval]
      /\ column_values (preview_df out) b = take 15 (column_values input b)
      /\ column_values (preview_df out) a = take 15 (column_values input a)
      /\ column_values (preview_df out) col_before
         = map render_timestamp
             (take 15 (before_dates (resolved_lists w' b a (iterrows input))))
      /\ column_values (preview_df out) col_after
         = map render_timestamp
             (take 15 (after_dates (resolved_lists w' b a (iterrows input))))
      /\ column_values (preview_df out) col_interval
         = take 15 (column_values aug col_interval)
      /\ (col_raw ∉ labels (preview_df out))
      /\ interval_list out = take 15 (column_values aug col_raw).
Proof.
  intros w l input b a Hl Hdet Hbn Han Hbd Had Hshown.
  destruct (process_dataframe_cases w l input b a Hl Hdet Hbn Han Hbd Had)
    as (w' & new & aug & sb & sa & Haug & Hsb & Hsa & Hw' & _ & _ & _ & _ & _ & _ & _
        & Hrun).
  rewrite Hshown in Hrun.
  assert (Hlists : resolved_lists w' b a (iterrows input)
                   = loop_lists w b a (iterrows input)).
  { unfold loop_lists. apply resolved_lists_cache. rewrite Hw'. reflexivity. }
  pose proof (lists_length_resolved w' b a (iterrows input)) as Hlen.
  rewrite length_iterrows, Hlists in Hlen.
  destruct (augmented_ok input _ Hlen)
    as (aug' & Haug' & Hn & A1 & A2 & A3 & A4 & _).
  rewrite Haug in Haug'. injection Haug' as <-.
  assert (Hsame : b = a -> sb = sa) by (intros ->; congruence).
  destruct (column_values_expected (nrows input) b a sb sa
              (loop_lists w b a (iterrows input)) Hbd Had Hsame)
    as (P1 & P2 & P3 & P4 & P5 & P6 & P7).
  eexists _, w', aug. split; [exact Hrun|].
  cbn [df_processed preview_html preview_df interval_list].
  split; [rewrite Hw'; cbn [heap with_heap]; rewrite lookup_app_r by lia;
          rewrite Nat.sub_diag; reflexivity|].
  split; [reflexivity|]. split; [exact P1|]. split; [exact P2|].
  split; [rewrite P3; unfold column_values; rewrite Hsb; reflexivity|].
  split; [rewrite P4; unfold column_values; rewrite Hsa; reflexivity|].
  split; [rewrite Hlists; exact P5|].
  split; [rewrite Hlists; exact P6|].
  split; [rewrite P7; unfold column_values; rewrite A3, values_text_column;
          reflexivity|].
  split.
  { rewrite P2. intros Hin.
    destruct (not_derived b Hbd) as (_ & _ & _ & Hb4).
    destruct (not_derived a Had) as (_ & _ & _ & Ha4).
    repeat (apply elem_of_cons in Hin as [Hin|Hin];
            [first [ exact (Hb4 (eq_sym Hin)) | exact (Ha4 (eq_sym Hin))
                   | discriminate ]|]).
    inversion Hin. }
  unfold expected_intervals, column_values. rewrite A4, values_minutes_column.
  reflexivity.
Qed.

(** X23 on the sample dataset whose photos all resolve. *)
Lemma process_dataframe_preview_witness :
  exists out w' aug,
    @process_dataframe basic_unicode (table_outside demo_redirects) 0 demo_resolved_world
    = (Ok out, w')
    /\ heap w' !! (df_processed out) = Some aug
    /\ preview_html out = @to_html (table_outside demo_redirects) (preview_df out)
    /\ nrows (preview_df out) = Nat.min 15 (nrows demo_resolved)
    /\ labels (preview_df out)
       = [VStr (u "Фото ДО"); VStr (u "Фото ПОСЛЕ"); col_before; col_after; col_interval]
    /\ column_values (preview_df out) (VStr (u "Фото ДО"))
       = take 15 (column_values demo_resolved (VStr (u "Фото ДО")))
    /\ column_values (preview_df out) (VStr (u "Фото ПОСЛЕ"))
       = take 15 (column_values demo_resolved (VStr (u "Фото ПОСЛЕ")))
    /\ column_values (preview_df out) col_before
       = map (@render_timestamp (table_outside demo_redirects))
           (take 15 (before_dates
                       (resolved_lists w' (VStr (u "Фото ДО")) (VStr (u "Фото ПОСЛЕ"))
                          (iterrows demo_resolved))))
    /\ column_values (preview_df out) col_after
       = map (@render_timestamp (table_outside demo_redirects))
           (take 15 (after_dates
                       (resolved_lists w' (VStr (u "Фото ДО")) (VStr (u "Фото ПОСЛЕ"))
                          (iterrows demo_resolved))))
    /\ column_values (preview_df out) col_interval
       = take 15 (column_values aug col_interval)
    /\ (col_raw ∉ labels (preview_df out))
    /\ interval_list out = take 15 (column_values aug col_raw).
Proof.
  apply (@process_dataframe_preview basic_unicode (table_outside demo_redirects)
           demo_resolved_world 0 demo_resolved
           (VStr (u "Фото ДО")) (VStr (u "Фото ПОСЛЕ"))).
  - reflexivity.
  - vm_compute. reflexivity.
  - discriminate.
  - discriminate.
  - not_in_closed_list.
  - not_in_closed_list.
  - vm_compute. reflexivity.
Defined.

(** ** More on the extractor, the interval and the resolver *)

(** X7.  A timestamp returned by [extract_datetime_from_string] is a
    calendar date and time (year 1 to 9999, a month, a day of that month,
    hour below 24, minute and second below 60), and the argument is a
    string in which the pattern occurs. *)
Theorem extract_datetime_from_string_Some `{Unicode} :
  forall v d,
    extract_datetime_from_string v = Ok (Some d) ->
    valid_datetime d = true
    /\ (1 <= year d <= 9999 /\ 1 <= month d <= 12 /\ 1 <= day d <= 31
        /\ 0 <= hour d <= 23 /\ 0 <= minute d <= 59 /\ 0 <= second d <= 59)%Z
    /\ exists s pre D T, v = VStr s /\ first_occurrence s pre D T.
Proof.
  intros v d He. pose proof (extract_valid v d He) as Hv.
  split; [exact Hv|]. split.
  - unfold valid_datetime, valid_date, valid_time in Hv.
    repeat (apply andb_true_iff in Hv as [Hv ?]).
    repeat match goal with
           | H : (_ <=? _)%Z = true |- _ => apply Z.leb_le in H
           end.
    assert (Hdim : (days_in_month (year d) (month d) <= 31)%Z).
    { unfold days_in_month.
      destruct (month d =? 2)%Z; [destruct (is_leap (year d)); lia|].
      destruct ((month d =? 4) || (month d =? 6) || (month d =? 9) || (month d =? 11))%Z;
        lia. }
    lia.
  - destruct v as [| | |z|z|s|d0]; try discriminate.
    destruct (re_search s) as [[D T]|] eqn:Hs.
    + destruct (re_search_sound s D T Hs) as (pre & Hfirst).
      exists s, pre, D, T. split; [reflexivity | exact Hfirst].
    + unfold extract_datetime_from_string in He. rewrite Hs in He. discriminate.
Qed.

(** X7 on a final URL of the sample network. *)
Lemma extract_datetime_from_string_Some_witness :
  valid_datetime (Datetime 2024 1 1 10 0 0) = true
  /\ (1 <= 2024 <= 9999 /\ 1 <= 1 <= 12 /\ 1 <= 1 <= 31
      /\ 0 <= 10 <= 23 /\ 0 <= 0 <= 59 /\ 0 <= 0 <= 59)%Z
  /\ exists s pre D T,
      VStr (u "http://cdn/saved-20240101_100000.jpg") = VStr s
      /\ @first_occurrence basic_unicode s pre D T.
Proof.
  apply (@extract_datetime_from_string_Some basic_unicode
           (VStr (u "http://cdn/saved-20240101_100000.jpg"))
           (Datetime 2024 1 1 10 0 0)).
  vm_compute. reflexivity.
Defined.

Lemma digits_of_head f n :
  (0 <= n)%Z ->
  exists d rest, (0 <= d <= 9)%Z /\ digits_of (S f) n = digit_char d :: rest.
Proof.
  revert n. induction f as [|f IH]; intros n Hn.
  - cbn [digits_of]. destruct (Z.ltb_spec n 10).
    + exists n, []. split; [lia | reflexivity].
    + exists (n mod 10)%Z, []. split; [|reflexivity].
      pose proof (Z.mod_pos_bound n 10 ltac:(lia)). lia.
  - destruct (Z.ltb_spec n 10) as [Hlt|Hge].
    + rewrite digits_of_small by lia. exists n, []. split; [lia | reflexivity].
    + rewrite digits_of_large by lia.
      destruct (IH (n / 10)%Z ltac:(apply Z.div_pos; lia)) as (d & rest & Hd & ->).
      exists d, (rest ++ [digit_char (n mod 10)]). split; [exact Hd | reflexivity].
Qed.

Lemma digits_of_all f n :
  (0 <= n)%Z -> Forall (fun c => (48 <= c <= 57)%N) (digits_of f n).
Proof.
  revert n. induction f as [|f IH]; intros n Hn; [constructor|].
  cbn [digits_of]. destruct (Z.ltb_spec n 10).
  - constructor; [unfold digit_char; lia | constructor].
  - apply Forall_app. split; [apply IH; apply Z.div_pos; lia|].
    constructor; [|constructor].
    pose proof (Z.mod_pos_bound n 10 ltac:(lia)). unfold digit_char. lia.
Qed.

Lemma str_of_Z_head n :
  (0 <= n)%Z -> exists c rest, (48 <= c <= 57)%N /\ str_of_Z n = c :: rest.
Proof.
  intros Hn. unfold str_of_Z. destruct (Z.ltb_spec n 0); [lia|].
  unfold str_of_nonneg.
  destruct (digits_of_head (Z.to_nat (Z.log2 n)) n Hn) as (d & rest & Hd & ->).
  exists (digit_char d), rest. split; [unfold digit_char; lia | reflexivity].
Qed.

Lemma str_of_Z_all n :
  (0 <= n)%Z -> Forall (fun c => (48 <= c <= 57)%N) (str_of_Z n).
Proof.
  intros Hn. unfold str_of_Z. destruct (Z.ltb_spec n 0); [lia|].
  apply digits_of_all. exact Hn.
Qed.

Lemma str_of_Z_inj n m : (0 <= n)%Z -> (0 <= m)%Z -> str_of_Z n = str_of_Z m -> n = m.
Proof.
  intros Hn Hm Heq. pose proof (str_of_Z_read_back n Hn) as Rn.
  rewrite Heq, (str_of_Z_read_back m Hm) in Rn. injection Rn as <-. reflexivity.
Qed.

(** The label of a non-negative count starts with a decimal digit. *)
Lemma format_interval_head n :
  (0 <= n)%Z ->
  exists c rest, (48 <= c <= 57)%N /\ format_interval (Some n) = c :: rest.
Proof.
  intros Hn. unfold format_interval.
  destruct (Z.ltb_spec n 0); [lia|].
  destruct (Z.ltb_spec n 60).
  - destruct (str_of_Z_head n Hn) as (c & rest & Hc & ->).
    exists c, (rest ++ u " мин"). split; [exact Hc | reflexivity].
  - destruct (str_of_Z_head (n / 60)%Z ltac:(apply Z.div_pos; lia))
      as (c & rest & Hc & ->).
    destruct (n mod 60 =? 0)%Z; eexists c, _; (split; [exact Hc | reflexivity]).
Qed.

(** X8.  When the row loop records raw minutes, both timestamps are
    present, the minutes are not negative, they are the whole minutes of
    the time from the before photo to the after photo (seconds dropped),
    and the label is [format_interval] of these minutes. *)
Theorem row_interval_minutes :
  forall dt_before dt_after minutes label,
    row_interval dt_before dt_after = (Some minutes, label) ->
    exists b a,
      dt_before = Some b /\ dt_after = Some a
      /\ (0 <= minutes)%Z
      /\ (60 * minutes <= epoch_seconds a - epoch_seconds b < 60 * minutes + 60)%Z
      /\ label = format_interval (Some minutes).
Proof.
  intros [b|] [a|] minutes label; try discriminate.
  unfold row_interval. rewrite total_seconds_sub.
  set (delta := (epoch_seconds a - epoch_seconds b)%Z).
  destruct (Z.ltb_spec (delta / 60) 0) as [Hneg|Hpos]; [discriminate|].
  intros [= <- <-]. exists b, a. repeat split; try assumption.
  - pose proof (Z.div_mod delta 60 ltac:(lia)).
    pose proof (Z.mod_pos_bound delta 60 ltac:(lia)). lia.
  - pose proof (Z.div_mod delta 60 ltac:(lia)).
    pose proof (Z.mod_pos_bound delta 60 ltac:(lia)). lia.
Qed.

(** X8 on two timestamps 85 minutes and 30 seconds apart. *)
Lemma row_interval_minutes_witness :
  exists b a,
    Some (Datetime 2024 1 1 10 0 0) = Some b
    /\ Some (Datetime 2024 1 1 11 25 30) = Some a
    /\ (0 <= 85)%Z
    /\ (60 * 85 <= epoch_seconds a - epoch_seconds b < 60 * 85 + 60)%Z
    /\ u "1 ч 25 мин" = format_interval (Some 85%Z).
Proof.
  apply (row_interval_minutes (Some (Datetime 2024 1 1 10 0 0))
           (Some (Datetime 2024 1 1 11 25 30)) 85 (u "1 ч 25 мин")).
  vm_compute. reflexivity.
Defined.

(** X9.  The label of a row is empty exactly when one of its timestamps
    is missing; it is the error word exactly when the after photo is
    earlier than the before photo; and the raw minutes are None in these
    two cases and no other. *)
Theorem row_interval_label :
  forall dt_before dt_after,
    (snd (row_interval dt_before dt_after) = empty_str
     <-> dt_before = None \/ dt_after = None)
    /\ (snd (row_interval dt_before dt_after) = u "ошибка"
        <-> exists b a, dt_before = Some b /\ dt_after = Some a
                        /\ (epoch_seconds a < epoch_seconds b)%Z)
    /\ (fst (row_interval dt_before dt_after) = None
        <-> snd (row_interval dt_before dt_after) = empty_str
            \/ snd (row_interval dt_before dt_after) = u "ошибка").
Proof.
  intros [b|] [a|]; cbn [row_interval fst snd].
  2-4: (repeat split; try (intros; auto; fail);
        try (intros (b0 & a0 & Hb & Ha & _); discriminate);
        try discriminate).
  rewrite total_seconds_sub.
  set (delta := (epoch_seconds a - epoch_seconds b)%Z).
  assert (Hdelta : (delta / 60 < 0 <-> epoch_seconds a < epoch_seconds b)%Z).
  { pose proof (Z.div_mod delta 60 ltac:(lia)).
    pose proof (Z.mod_pos_bound delta 60 ltac:(lia)). subst delta. lia. }
  destruct (Z.ltb_spec (delta / 60) 0) as [Hneg|Hpos]; cbn [fst snd].
  - repeat split; try discriminate; try (intros; auto; fail).
    + intros [Hn|Hn]; discriminate.
    + intros _. exists b, a. repeat split. apply Hdelta. exact Hneg.
  - destruct (format_interval_head (delta / 60) Hpos) as (c & rest & Hc & Hlab).
    rewrite Hlab. repeat split; try discriminate.
    + intros [Hn|Hn]; discriminate.
    + intros Heq. vm_compute in Heq. injection Heq as -> _. lia.
    + intros (b0 & a0 & [= <-] & [= <-] & Hlt). apply Hdelta in Hlt. lia.
    + intros [Heq|Heq]; [discriminate|].
      vm_compute in Heq. injection Heq as -> _. lia.
Qed.

Lemma split_at_space (l1 r1 l2 r2 : pystr) :
  Forall (fun c => (48 <= c <= 57)%N) l1 ->
  Forall (fun c => (48 <= c <= 57)%N) l2 ->
  l1 ++ 32%N :: r1 = l2 ++ 32%N :: r2 -> l1 = l2 /\ r1 = r2.
Proof.
  intros H1. revert l2. induction H1 as [|c l1 Hc _ IH]; intros l2 H2 Heq.
  - destruct H2 as [|c2 l2 Hc2 _]; cbn in Heq.
    + injection Heq as <-. split; reflexivity.
    + injection Heq as <- _. lia.
  - destruct H2 as [|c2 l2 Hc2 H2]; cbn in Heq.
    + injection Heq as -> _. lia.
    + injection Heq as <- Heq. destruct (IH l2 H2 Heq) as [-> ->]. split; reflexivity.
Qed.

(** The three shapes of a label, split at its first blank. *)
Lemma format_interval_shape n :
  (0 <= n)%Z ->
  exists x r,
    (0 <= x)%Z
    /\ format_interval (Some n) = str_of_Z x ++ 32%N :: r
    /\ ((n < 60 /\ x = n /\ r = [1084; 1080; 1085]%N)%Z
        \/ (60 <= n /\ n mod 60 = 0 /\ x = n / 60 /\ r = [1095%N])%Z
        \/ (60 <= n /\ n mod 60 <> 0 /\ x = n / 60
            /\ r = 1095%N :: 32%N :: str_of_Z (n mod 60)
                   ++ 32%N :: [1084; 1080; 1085]%N)%Z).
Proof.
  intros Hn. unfold format_interval.
  destruct (Z.ltb_spec n 0); [lia|].
  destruct (Z.ltb_spec n 60).
  - exists n, [1084; 1080; 1085]%N. split; [exact Hn|]. split; [reflexivity|].
    left. repeat split. assumption.
  - assert (Hh : (0 <= n / 60)%Z) by (apply Z.div_pos; lia).
    destruct (Z.eqb_spec (n mod 60) 0).
    + exists (n / 60)%Z, [1095%N]. split; [exact Hh|]. split; [reflexivity|].
      right. left. repeat split; assumption.
    + eexists (n / 60)%Z, _. split; [exact Hh|]. split; [reflexivity|].
      right. right. repeat split; assumption.
Qed.

(** X10.  [format_interval] gives different labels to different
    durations: two numbers of minutes, neither negative, with the same
    label are equal. *)
Theorem format_interval_injective :
  forall n m,
    (0 <= n)%Z -> (0 <= m)%Z ->
    format_interval (Some n) = format_interval (Some m) -> n = m.
Proof.
  intros n m Hn Hm Heq.
  destruct (format_interval_shape n Hn) as (x & r & Hx & Fn & Cn).
  destruct (format_interval_shape m Hm) as (x' & r' & Hx' & Fm & Cm).
  rewrite Fn, Fm in Heq.
  apply split_at_space in Heq as [Hd Hr]; try (apply str_of_Z_all; assumption).
  apply str_of_Z_inj in Hd; try assumption. subst x' r'.
  pose proof (Z.div_mod n 60 ltac:(lia)) as Dn.
  pose proof (Z.div_mod m 60 ltac:(lia)) as Dm.
  destruct Cn as [(? & ? & Rn) | [(? & ? & ? & Rn) | (? & ? & ? & Rn)]];
    destruct Cm as [(? & ? & Rm) | [(? & ? & ? & Rm) | (? & ? & ? & Rm)]];
    rewrite Rn in Rm; try discriminate; try lia.
  injection Rm as Rm.
  pose proof (Z.mod_pos_bound n 60 ltac:(lia)).
  pose proof (Z.mod_pos_bound m 60 ltac:(lia)).
  apply split_at_space in Rm as [Rm _]; try (apply str_of_Z_all; lia).
  apply str_of_Z_inj in Rm; lia.
Qed.

(** X10 on 125 minutes written in two ways. *)
Lemma format_interval_injective_witness : (125 = 60 * 2 + 5)%Z.
Proof.
  apply (format_interval_injective 125 (60 * 2 + 5)); [lia | lia | reflexivity].
Defined.

(** ** The resolver, once more *)

(** X11.  Two cell values with the same key (none for both, or the same
    normalized URL) are the same to [get_datetime_from_url]: in every world
    the two calls give the same result and the same world. *)
Theorem get_datetime_from_url_same_key `{Unicode} `{Outside} :
  forall raw1 raw2 w,
    key_of raw1 = key_of raw2 ->
    get_datetime_from_url raw1 w = get_datetime_from_url raw2 w.
Proof.
  intros raw1 raw2 w Hk. destruct (key_of raw2) as [k|] eqn:Hk2.
  - destruct (cache w !! k) as [v|] eqn:Hc.
    + rewrite (get_hit raw1 k v w Hk Hc), (get_hit raw2 k v w Hk2 Hc). reflexivity.
    + rewrite (get_miss raw1 k w Hk Hc), (get_miss raw2 k w Hk2 Hc). reflexivity.
  - rewrite (key_of_None raw1 w Hk), (key_of_None raw2 w Hk2). reflexivity.
Qed.

(** X11 on two spellings of a URL of the sample network. *)
Lemma get_datetime_from_url_same_key_witness :
  @get_datetime_from_url basic_unicode (table_outside demo_redirects)
    (VStr (u "  @http://a/1")) demo_world
  = @get_datetime_from_url basic_unicode (table_outside demo_redirects)
      (VStr (u "http://a/1 ")) demo_world.
Proof.
  apply (@get_datetime_from_url_same_key basic_unicode (table_outside demo_redirects)).
  vm_compute. reflexivity.
Defined.

(** X12.  On a cache miss with a request that succeeds, the result is what
    [extract_datetime_from_string] finds in the final URL of the response
    (not in the URL of the cell); it is stored under the normalized URL,
    one request is logged, and every later call with this key returns the
    same result. *)
Theorem get_datetime_from_url_final_url `{Unicode} `{Outside} :
  forall s w n' final_url r,
    strip s <> [] ->
    cache w !! normalize_url s = None ->
    requests_get (net w) (normalize_url s) = (n', Ok final_url) ->
    extract_datetime_from_string (VStr final_url) = Ok r ->
    get_datetime_from_url (VStr s) w =
    (Ok r,
     {| cache := <[normalize_url s := r]> (cache w);
        net := n';
        fetched := fetched w ++ [normalize_url s];
        heap := heap w |})
    /\ forall raw, key_of raw = Some (normalize_url s) ->
                   fst (get_datetime_from_url raw
                          (snd (get_datetime_from_url (VStr s) w))) = Ok r.
Proof.
  intros s w n' final_url r Hs Hc Hget Hex.
  assert (Hrun : get_datetime_from_url (VStr s) w =
                 (Ok r,
                  {| cache := <[normalize_url s := r]> (cache w);
                     net := n';
                     fetched := fetched w ++ [normalize_url s];
                     heap := heap w |})).
  { rewrite (get_miss (VStr s) (normalize_url s) w (key_of_nonblank s Hs) Hc).
    unfold fetch_datetime. rewrite Hget, Hex. reflexivity. }
  split; [exact Hrun|].
  intros raw Hk. rewrite Hrun. cbn [snd].
  rewrite (get_hit raw (normalize_url s) r _ Hk); [reflexivity|].
  cbn [cache]. apply lookup_insert_eq.
Qed.

(** X12 on a URL of the sample network, padded and with a leading [@]. *)
Lemma get_datetime_from_url_final_url_witness :
  @get_datetime_from_url basic_unicode (table_outside demo_redirects)
    (VStr (u " @http://a/1 ")) demo_world
  = (Ok (Some (Datetime 2024 1 1 10 0 0)),
     {| cache := <[normalize_url (u " @http://a/1 ")
                   := Some (Datetime 2024 1 1 10 0 0)]> (cache demo_world);
        net := net demo_world;
        fetched := fetched demo_world ++ [normalize_url (u " @http://a/1 ")];
        heap := heap demo_world |})
  /\ forall raw,
      key_of raw = Some (normalize_url (u " @http://a/1 ")) ->
      fst (@get_datetime_from_url basic_unicode (table_outside demo_redirects) raw
             (snd (@get_datetime_from_url basic_unicode (table_outside demo_redirects)
                     (VStr (u " @http://a/1 ")) demo_world)))
      = Ok (Some (Datetime 2024 1 1 10 0 0)).
Proof.
  apply (@get_datetime_from_url_final_url basic_unicode (table_outside demo_redirects)
           (u " @http://a/1 ") demo_world (net demo_world)
           (u "http://cdn/saved-20240101_100000.jpg")).
  - vm_compute. discriminate.
  - cbn [cache demo_world world0]. apply lookup_empty.
  - vm_compute. reflexivity.
  - vm_compute. reflexivity.
Defined.

Lemma run_calls_cache_valid `{Unicode} `{Outside} raws w :
  cache_valid w -> cache_valid (run_calls raws w).
Proof.
  revert w. induction raws as [|raw raws IH]; intros w Hw; [exact Hw|].
  cbn [run_calls fold_left]. apply IH. apply get_cache_valid. exact Hw.
Qed.

(** X13.  Calls of [get_datetime_from_url] put only calendar dates and
    times into the cache: if the cache holds nothing else before a sequence
    of calls, it holds nothing else after it, and the next call returns
    None or a calendar date and time. *)
Theorem resolver_timestamps_valid `{Unicode} `{Outside} :
  forall w raws,
    cache_valid w ->
    cache_valid (run_calls raws w)
    /\ forall raw d,
        fst (get_datetime_from_url raw (run_calls raws w)) = Ok (Some d) ->
        valid_datetime d = true.
Proof.
  intros w raws Hw. pose proof (run_calls_cache_valid raws w Hw) as Hw'.
  split; [exact Hw'|]. intros raw d Hget.
  pose proof (get_cache_valid raw _ Hw') as Hw''.
  destruct (get_answer raw (run_calls raws w)) as (r & w2 & E & _ & _ & Hr & _).
  rewrite E in Hget, Hw''. cbn [fst snd] in Hget, Hw''.
  injection Hget as ->. symmetry in Hr. exact (cached_valid w2 raw d Hw'' Hr).
Qed.

(** X13 from the empty cache of the sample world. *)
Lemma resolver_timestamps_valid_witness :
  cache_valid
    (@run_calls basic_unicode (table_outside demo_redirects)
       [VStr (u "http://a/1"); VStr (u "http://down/9")] demo_world)
  /\ forall raw d,
      fst (@get_datetime_from_url basic_unicode (table_outside demo_redirects) raw
             (@run_calls basic_unicode (table_outside demo_redirects)
                [VStr (u "http://a/1"); VStr (u "http://down/9")] demo_world))
      = Ok (Some d) ->
      valid_datetime d = true.
Proof.
  apply (@resolver_timestamps_valid basic_unicode (table_outside demo_redirects)).
  intros k d Hk. cbn in Hk. rewrite lookup_empty in Hk. discriminate.
Defined.

(** ** Detection, once more *)

Lemma photo_labels_differ : photo_before <> photo_after.
Proof. discriminate. Qed.

Lemma qualifying_sublist cols : sublist (qualifying cols) (map fst cols).
Proof.
  unfold qualifying. induction cols as [|cs cols IH]; [constructor|].
  rewrite filter_cons. destruct (decide (qualifies cs = true)); cbn [map].
  - apply sublist_skip. exact IH.
  - apply sublist_cons. exact IH.
Qed.

(** X14.  On a dataset whose labels are distinct and not None,
    [detect_photo_columns] returns (None, None) or two different labels of
    the dataset: never a single column, never the same column twice. *)
Theorem detect_photo_columns_pair `{Unicode} :
  forall df b a,
    NoDup (labels df) -> VNone ∉ labels df ->
    detect_photo_columns df = (b, a) ->
    (b = VNone /\ a = VNone)
    \/ (b <> VNone /\ a <> VNone /\ b ∈ labels df /\ a ∈ labels df /\ b <> a).
Proof.
  intros df b a Hnd Hnone Hdet.
  destruct (detect_in_labels df b a Hdet) as [Hbin Hain].
  revert Hdet. unfold detect_photo_columns, dict_get. rewrite !cols_lower_lookup.
  destruct (negb _ && negb _) eqn:Hcond.
  - apply andb_true_iff in Hcond as [Cb Ca].
    destruct (last_labelled photo_before (labels df)) as [b0|] eqn:Hb; [|discriminate].
    destruct (last_labelled photo_after (labels df)) as [a0|] eqn:Ha; [|discriminate].
    simpl. intros [= <- <-]. right.
    apply last_labelled_Some in Hb as [Hb Hkb]. apply last_labelled_Some in Ha as [Ha Hka].
    assert (b0 <> VNone) by (intros ->; contradiction).
    assert (a0 <> VNone) by (intros ->; contradiction).
    repeat split; try assumption.
    intros ->. apply photo_labels_differ. congruence.
  - rewrite scan_candidates_take by (simpl; lia). cbn [app].
    pose proof (qualifying_sublist (columns df)) as Hsub. fold (labels df) in Hsub.
    pose proof (sublist_NoDup _ _ Hnd Hsub) as Hndq.
    destruct (qualifying (columns df)) as [|c1 [|c2 rest]]; cbn.
    + intros [= <- <-]. left. split; reflexivity.
    + intros [= <- <-]. left. split; reflexivity.
    + intros [= <- <-]. right.
      assert (Hc1 : c1 ∈ labels df)
        by (eapply elem_of_sublist; [left | exact Hsub]).
      assert (Hc2 : c2 ∈ labels df)
        by (eapply elem_of_sublist; [right; left | exact Hsub]).
      assert (c1 <> VNone) by (intros ->; contradiction).
      assert (c2 <> VNone) by (intros ->; contradiction).
      repeat split; try assumption.
      intros ->. apply NoDup_cons in Hndq as [Hn _]. apply Hn. left.
Qed.

(** X14 on the sample dataset with headers. *)
Lemma detect_photo_columns_pair_witness :
  (VStr (u " Фото ДО ") = VNone /\ VStr (u "ФОТО после") = VNone)
  \/ (VStr (u " Фото ДО ") <> VNone /\ VStr (u "ФОТО после") <> VNone
      /\ VStr (u " Фото ДО ") ∈ labels demo_headers
      /\ VStr (u "ФОТО после") ∈ labels demo_headers
      /\ VStr (u " Фото ДО ") <> VStr (u "ФОТО после")).
Proof.
  apply (@detect_photo_columns_pair basic_unicode demo_headers).
  - apply (bool_decide_unpack _). vm_compute. exact I.
  - not_in_closed_list.
  - vm_compute. reflexivity.
Defined.

(** X15.  With fewer than two columns [detect_photo_columns] returns
    (None, None), whatever the column is called and holds. *)
Theorem detect_photo_columns_too_few `{Unicode} :
  forall df,
    length (columns df) < 2 -> detect_photo_columns df = (VNone, VNone).
Proof.
  intros df Hlen. unfold detect_photo_columns, dict_get. rewrite !cols_lower_lookup.
  assert (Hq : length (qualifying (columns df)) < 2).
  { pose proof (sublist_length _ _ (qualifying_sublist (columns df))) as Hs.
    rewrite length_map in Hs. lia. }
  destruct (negb _ && negb _) eqn:Hcond.
  - exfalso. apply andb_true_iff in Hcond as [Hb Ha].
    destruct (last_labelled photo_before (labels df)) as [b|] eqn:Eb; [|discriminate].
    destruct (last_labelled photo_after (labels df)) as [a|] eqn:Ea; [|discriminate].
    apply last_labelled_Some in Eb as [Hbin Hkb].
    apply last_labelled_Some in Ea as [Hain Hka].
    unfold labels in Hbin, Hain.
    destruct (columns df) as [|[c s] [|cs rest]]; cbn in Hlen, Hbin, Hain; [| |lia].
    + inversion Hbin.
    + apply list_elem_of_singleton in Hbin, Hain. subst a b.
      apply photo_labels_differ. congruence.
  - rewrite scan_candidates_take by (simpl; lia). cbn [app].
    destruct (qualifying (columns df)) as [|c1 [|c2 rest]]; cbn in Hq |- *;
      [reflexivity | reflexivity | lia].
Qed.

(** X15 on a single column that carries one of the two headers. *)
Lemma detect_photo_columns_too_few_witness :
  @detect_photo_columns basic_unicode
    (Frame 1 [(VStr (u "Фото ДО"), Series DObject [VStr (u "x/saved-1")])])
  = (VNone, VNone).
Proof.
  apply (@detect_photo_columns_too_few basic_unicode). cbn. lia.
Defined.

Lemma last_labelled_unique `{Unicode} k cols c :
  c ∈ cols -> header_key c = k ->
  (forall c', c' ∈ cols -> header_key c' = k -> c' = c) ->
  last_labelled k cols = Some c.
Proof.
  intros Hin Hk Huniq.
  destruct (last_labelled_exists k cols c Hin Hk) as [c' Hc'].
  rewrite Hc'. f_equal.
  apply last_labelled_Some in Hc' as [Hin' Hk']. exact (Huniq c' Hin' Hk').
Qed.

(** X16.  When one column, and only one, carries each of the two headers
    (trimmed and lowercased), [detect_photo_columns] returns these two
    columns, the before column first, wherever they stand: putting the
    columns in another order does not change the result. *)
Theorem detect_photo_columns_any_order `{Unicode} :
  forall df df' b a,
    labels df' ≡ₚ labels df ->
    b ∈ labels df -> header_key b = photo_before ->
    a ∈ labels df -> header_key a = photo_after ->
    (forall c, c ∈ labels df -> header_key c = photo_before -> c = b) ->
    (forall c, c ∈ labels df -> header_key c = photo_after -> c = a) ->
    b <> VNone -> a <> VNone ->
    detect_photo_columns df = (b, a) /\ detect_photo_columns df' = (b, a).
Proof.
  intros df df' b a Hperm Hb Hkb Ha Hka Hub Hua Hbn Han. split.
  - apply detect_exact; try assumption; apply last_labelled_unique; assumption.
  - apply detect_exact; try assumption; apply last_labelled_unique; try assumption.
    + rewrite Hperm. exact Hb.
    + intros c Hc. apply Hub. rewrite <- Hperm. exact Hc.
    + rewrite Hperm. exact Ha.
    + intros c Hc. apply Hua. rewrite <- Hperm. exact Hc.
Qed.

(** X16 on the sample dataset with headers and on its columns reversed. *)
Lemma detect_photo_columns_any_order_witness :
  @detect_photo_columns basic_unicode demo_headers
  = (VStr (u " Фото ДО "), VStr (u "ФОТО после"))
  /\ @detect_photo_columns basic_unicode
       (Frame (nrows demo_headers) (rev (columns demo_headers)))
     = (VStr (u " Фото ДО "), VStr (u "ФОТО после")).
Proof.
  apply (@detect_photo_columns_any_order basic_unicode demo_headers
           (Frame (nrows demo_headers) (rev (columns demo_headers)))).
  - unfold labels. cbn [columns]. rewrite map_rev. symmetry. apply Permutation_rev.
  - vm_compute. do 2 right. left.
  - vm_compute. reflexivity.
  - vm_compute. do 3 right. left.
  - vm_compute. reflexivity.
  - intros c Hc. vm_compute in Hc.
    repeat (apply elem_of_cons in Hc as [->|Hc];
            [first [reflexivity | vm_compute; discriminate]|]).
    inversion Hc.
  - intros c Hc. vm_compute in Hc.
    repeat (apply elem_of_cons in Hc as [->|Hc];
            [first [reflexivity | vm_compute; discriminate]|]).
    inversion Hc.
  - discriminate.
  - discriminate.
Defined.

(** ** The routes *)

Lemma after_dot_app ext rest :
  dot ∉ ext -> after_dot (ext ++ dot :: rest) = Some rest.
Proof.
  induction ext as [|c ext IH]; intros Hno; cbn [app after_dot].
  - rewrite N.eqb_refl. reflexivity.
  - destruct (N.eqb_spec c dot) as [->|_]; [exfalso; apply Hno; left|].
    apply IH. intros Hin. apply Hno. right. exact Hin.
Qed.

Lemma after_dot_None s : dot ∉ s -> after_dot s = None.
Proof.
  induction s as [|c s IH]; intros Hno; [reflexivity|]. cbn [after_dot].
  destruct (N.eqb_spec c dot) as [->|_]; [exfalso; apply Hno; left|].
  apply IH. intros Hin. apply Hno. right. exact Hin.
Qed.

Lemma notin_rev (c : N) (s : pystr) : c ∉ s -> c ∉ rev s.
Proof.
  intros Hno Hin. apply Hno. apply list_elem_of_In. apply in_rev.
  apply list_elem_of_In. exact Hin.
Qed.

Lemma endswith_app suffix s : endswith suffix (s ++ suffix) = true.
Proof.
  unfold endswith. rewrite rev_app_distr.
  assert (Hp : strip_prefix (rev suffix) (rev suffix ++ rev s) = Some (rev s))
    by (apply strip_prefix_Some; reflexivity).
  rewrite Hp. reflexivity.
Qed.

Lemma processed_name_endswith s : endswith ext_xlsx (processed_name s) = true.
Proof.
  unfold processed_name.
  change processed_suffix
    with ((95 :: 1086 :: 1073 :: 1088 :: 1072 :: 1073 :: 1086 :: 1090 :: 1072
              :: 1085 :: 1085 :: 1099 :: 1081 :: [])%N ++ ext_xlsx).
  rewrite app_assoc. apply endswith_app.
Qed.

(** X17.  The name [index] gives to the processed file: the uploaded name
    up to its last dot, or the whole name if it has no dot, followed by
    [_обработанный.xlsx]; so it always ends in [.xlsx]. *)
Theorem processed_name_spec :
  (forall stem ext, dot ∉ ext ->
      processed_name (stem ++ dot :: ext) = stem ++ processed_suffix)
  /\ (forall s, dot ∉ s -> processed_name s = s ++ processed_suffix)
  /\ (forall s, endswith ext_xlsx (processed_name s) = true).
Proof.
  split; [|split].
  - intros stem ext Hno. unfold processed_name, rsplit_dot_head.
    rewrite rev_app_distr. cbn [rev]. rewrite <- app_assoc. cbn [app].
    rewrite after_dot_app by (apply notin_rev; exact Hno).
    rewrite rev_involutive. reflexivity.
  - intros s Hno. unfold processed_name, rsplit_dot_head.
    rewrite after_dot_None by (apply notin_rev; exact Hno).
    reflexivity.
  - apply processed_name_endswith.
Qed.

(** X17 on a name with two dots. *)
Lemma processed_name_spec_witness :
  processed_name (u "отчёт.v2.XLSX") = u "отчёт.v2_обработанный.xlsx".
Proof.
  apply (proj1 processed_name_spec (u "отчёт.v2") (u "XLSX")).
  vm_compute. intros Hin.
  repeat (apply elem_of_cons in Hin as [Hin|Hin]; [discriminate|]).
  inversion Hin.
Defined.

(** X18.  Every outcome of [index].  A page without preview answers a GET
    request and changes nothing.  A page with a preview answers another
    request whose file has a name that is not empty and ends in [.xlsx] or
    [.xls] without regard to case; it comes with the download link, a
    stored file, the name of the processed file and one new message.  A
    redirect goes to the index page, leaves the stored file and name alone
    and flashes one message.  The view never sends a file, and when it
    raises the configuration is as before. *)
Theorem index_outcomes `{Unicode} `{Outside} `{Spreadsheet} :
  forall req w ap r w' ap',
    index req w ap = (r, (w', ap')) ->
    match r with
    | Ok (RenderIndex None dl) =>
        req_method req = method_get /\ dl = None /\ w' = w /\ ap' = ap
    | Ok (RenderIndex (Some html) dl) =>
        req_method req <> method_get /\ dl = Some EDownload
        /\ exists f filename output msg,
            req_file req = Some f /\ fs_filename f = Some filename
            /\ filename <> [] /\ allowed_file filename = true
            /\ last_file ap' = Some output
            /\ last_name ap' = Some (processed_name filename)
            /\ flashes ap' = flashes ap ++ [msg]
    | Ok (RedirectTo target) =>
        req_method req <> method_get /\ target = EIndex
        /\ last_file ap' = last_file ap /\ last_name ap' = last_name ap
        /\ exists msg, flashes ap' = flashes ap ++ [msg]
    | Ok (SendFile _ _) => False
    | Raise _ => req_method req <> method_get /\ ap' = ap
    end.
Proof.
  intros req w ap r w' ap'. unfold index.
  destruct (bool_decide (req_method req = method_get)) eqn:Hm.
  { apply bool_decide_eq_true in Hm. intros [= <- <- <-]. repeat split. exact Hm. }
  apply bool_decide_eq_false in Hm.
  destruct (req_file req) as [f|].
  2: { intros [= <- <- <-]. repeat split; try assumption. eexists; reflexivity. }
  destruct (file_storage_bool f) eqn:Hf; cbn [negb].
  2: { intros [= <- <- <-]. repeat split; try assumption. eexists; reflexivity. }
  unfold file_storage_bool in Hf.
  destruct (fs_filename f) as [[|c filename]|] eqn:Hname; try discriminate.
  cbn [default from_option id].
  change (from_option id [] (Some (c :: filename))) with (c :: filename).
  destruct (allowed_file (c :: filename)) eqn:Hal; cbn [negb].
  2: { intros [= <- <- <-]. repeat split; try assumption. eexists; reflexivity. }
  destruct (read_and_process (c :: filename) (fs_content f) w) as [[out|exc] w1].
  2: { intros [= <- <- <-]. repeat split; try assumption. eexists; reflexivity. }
  destruct (_ ≫= _) as [output|e].
  - intros [= <- <- <-]. split; [exact Hm|]. split; [reflexivity|].
    exists f, (c :: filename), (Buffer output false),
      (msg_success (out_before_col out) (out_after_col out)).
    repeat split; try assumption; try reflexivity. discriminate.
  - intros [= <- <- <-]. split; [exact Hm | reflexivity].
Qed.

(** X18 on an upload of the sample dataset whose photos all resolve. *)
Lemma index_outcomes_witness :
  req_method (demo_upload (u "Отчёт.XLSX") [3%N]) <> method_get
  /\ Some EDownload = Some EDownload
  /\ exists f filename output msg,
      req_file (demo_upload (u "Отчёт.XLSX") [3%N]) = Some f
      /\ fs_filename f = Some filename
      /\ filename <> [] /\ @allowed_file basic_unicode filename = true
      /\ last_file
           (snd (snd (@index basic_unicode (table_outside demo_redirects) demo_sheets
                        (demo_upload (u "Отчёт.XLSX") [3%N])
                        (@world0 (table_outside demo_redirects) tt []) app0)))
         = Some output
      /\ last_name
           (snd (snd (@index basic_unicode (table_outside demo_redirects) demo_sheets
                        (demo_upload (u "Отчёт.XLSX") [3%N])
                        (@world0 (table_outside demo_redirects) tt []) app0)))
         = Some (processed_name filename)
      /\ flashes
           (snd (snd (@index basic_unicode (table_outside demo_redirects) demo_sheets
                        (demo_upload (u "Отчёт.XLSX") [3%N])
                        (@world0 (table_outside demo_redirects) tt []) app0)))
         = flashes app0 ++ [msg].
Proof.
  apply (@index_outcomes basic_unicode (table_outside demo_redirects) demo_sheets
           (demo_upload (u "Отчёт.XLSX") [3%N])
           (@world0 (table_outside demo_redirects) tt []) app0
           (Ok (RenderIndex
                  (Some (u "Фото ДО;Фото ПОСЛЕ;Дата_время_до;Дата_время_после;Интервал_мин;"))
                  (Some EDownload)))
           (fst (snd (@index basic_unicode (table_outside demo_redirects) demo_sheets
                        (demo_upload (u "Отчёт.XLSX") [3%N])
                        (@world0 (table_outside demo_redirects) tt []) app0)))
           (snd (snd (@index basic_unicode (table_outside demo_redirects) demo_sheets
                        (demo_upload (u "Отчёт.XLSX") [3%N])
                        (@world0 (table_outside demo_redirects) tt []) app0)))).
  vm_compute. reflexivity.
Defined.





Section RouteFacts.
Context `{Unicode} `{Outside} `{Spreadsheet}.

(** An upload that gets as far as the [try] block. *)
Lemma index_try method f filename w ap :
  method <> method_get ->
  fs_filename f = Some filename -> filename <> [] ->
  allowed_file filename = true ->
  index (Request method (Some f)) w ap =
  match read_and_process filename (fs_content f) w with
  | (Raise exc, w') =>
      (Ok (RedirectTo EIndex), (w', flash (msg_error_prefix ++ exn_str exc) ap))
  | (Ok out, w') =>
      match (df_to_save ← frame_to_save (default empty_frame (heap w' !! df_processed out));
             to_excel df_to_save) with
      | Raise e => (Raise e, (w', ap))
      | Ok output =>
          (Ok (RenderIndex (Some (preview_html out)) (Some EDownload)),
           (w',
            flash (msg_success (out_before_col out) (out_after_col out))
              {| last_file := Some (Buffer output false);
                 last_name := Some (processed_name filename);
                 flashes := flashes ap |}))
      end
  end.
Proof.
  intros Hm Hname Hne Hal. unfold index. cbn [req_method req_file].
  rewrite bool_decide_eq_false_2 by exact Hm.
  unfold file_storage_bool. rewrite Hname.
  destruct filename as [|c filename]; [contradiction|].
  cbn [negb]. change (default [] (Some (c :: filename))) with (c :: filename).
  rewrite Hal. reflexivity.
Qed.

End RouteFacts.

(** X19.  A request other than GET without a file, or with a file whose
    name is missing or empty, is redirected to the index page with the
    message to choose a file; a file whose name does not end in [.xlsx] or
    [.xls] is redirected with the message on supported files.  The world is
    untouched: nothing is read, fetched or stored. *)
Theorem index_rejects_upload `{Unicode} `{Outside} `{Spreadsheet} :
  forall method w ap,
    method <> method_get ->
    index (Request method None) w ap
    = (Ok (RedirectTo EIndex), (w, flash msg_choose_file ap))
    /\ (forall f,
          fs_filename f = None \/ fs_filename f = Some [] ->
          index (Request method (Some f)) w ap
          = (Ok (RedirectTo EIndex), (w, flash msg_choose_file ap)))
    /\ (forall f filename,
          fs_filename f = Some filename -> filename <> [] ->
          allowed_file filename = false ->
          index (Request method (Some f)) w ap
          = (Ok (RedirectTo EIndex), (w, flash msg_only_excel ap))).
Proof.
  intros method w ap Hm. unfold index. cbn [req_method req_file].
  rewrite bool_decide_eq_false_2 by exact Hm. split; [reflexivity|]. split.
  - intros f [Hf|Hf]; unfold file_storage_bool; rewrite Hf; reflexivity.
  - intros f filename Hf Hne Hal. unfold file_storage_bool. rewrite Hf.
    destruct filename as [|c filename]; [contradiction|].
    cbn [negb]. change (default [] (Some (c :: filename))) with (c :: filename).
    rewrite Hal. reflexivity.
Qed.

(** X19 on a POST request. *)
Lemma index_rejects_upload_witness :
  @index basic_unicode (table_outside demo_redirects) demo_sheets
    (Request (u "POST") None) demo_world app0
  = (Ok (RedirectTo EIndex), (demo_world, flash msg_choose_file app0))
  /\ (forall f,
        fs_filename f = None \/ fs_filename f = Some [] ->
        @index basic_unicode (table_outside demo_redirects) demo_sheets
          (Request (u "POST") (Some f)) demo_world app0
        = (Ok (RedirectTo EIndex), (demo_world, flash msg_choose_file app0)))
  /\ (forall f filename,
        fs_filename f = Some filename -> filename <> [] ->
        @allowed_file basic_unicode filename = false ->
        @index basic_unicode (table_outside demo_redirects) demo_sheets
          (Request (u "POST") (Some f)) demo_world app0
        = (Ok (RedirectTo EIndex), (demo_world, flash msg_only_excel app0))).
Proof.
  apply (@index_rejects_upload basic_unicode (table_outside demo_redirects) demo_sheets).
  vm_compute. discriminate.
Defined.

(** X20.  An exception inside the [try] block of [index] never reaches
    the client: when reading the sheet raises, and when the sheet has no two
    photo columns, the answer is a redirect to the index page with the
    message [Ошибка обработки файла: ] followed by the text of the
    exception, and no file or name is stored. *)
Theorem index_processing_error `{Unicode} `{Outside} `{Spreadsheet} :
  forall method f filename w ap,
    method <> method_get ->
    fs_filename f = Some filename -> filename <> [] ->
    allowed_file filename = true ->
    (forall e,
        read_excel (excel_engine filename) (fs_content f) = Raise e ->
        index (Request method (Some f)) w ap
        = (Ok (RedirectTo EIndex), (w, flash (msg_error_prefix ++ exn_str e) ap)))
    /\ (forall df,
          read_excel (excel_engine filename) (fs_content f) = Ok df ->
          fst (detect_photo_columns df) = VNone
          \/ snd (detect_photo_columns df) = VNone ->
          index (Request method (Some f)) w ap
          = (Ok (RedirectTo EIndex),
             (with_heap w (heap w ++ [df]),
              flash (msg_error_prefix ++ exn_str detection_error) ap))
          /\ exn_str detection_error
             = u "Не найдены два столбца со ссылками на фото (столбцы 'Фото ДО' и 'Фото ПОСЛЕ').").
Proof.
  intros method f filename w ap Hm Hname Hne Hal. split.
  - intros e Hread. rewrite (index_try method f filename w ap Hm Hname Hne Hal).
    unfold read_and_process. rewrite Hread. reflexivity.
  - intros df Hread Hdet. split; [|reflexivity].
    rewrite (index_try method f filename w ap Hm Hname Hne Hal).
    unfold read_and_process. rewrite Hread.
    rewrite (process_dataframe_fails (with_heap w (heap w ++ [df])) (length (heap w)) df).
    + reflexivity.
    + cbn [heap with_heap]. rewrite lookup_app_r by lia. rewrite Nat.sub_diag. reflexivity.
    + destruct Hdet as [-> | ->]; [reflexivity | apply orb_true_r].
Qed.

(** X20 on a file the sample library refuses and on a sheet without photo columns. *)
Lemma index_processing_error_witness :
  @index basic_unicode (table_outside demo_redirects) demo_sheets
    (demo_upload (u "data.xls") [7%N]) demo_world app0
  = (Ok (RedirectTo EIndex),
     (demo_world,
      flash (msg_error_prefix
             ++ @exn_str demo_sheets
                  (ValueError (u "Excel file format cannot be determined"))) app0))
  /\ @index basic_unicode (table_outside demo_redirects) demo_sheets
       (demo_upload (u "data.xls") [2%N]) demo_world app0
     = (Ok (RedirectTo EIndex),
        (with_heap demo_world
           (heap demo_world
            ++ [Frame 1 [(VStr (u "a"), Series DObject [VStr (u "saved-x")]);
                         (VStr (u "b"), Series DObject [VStr (u "nothing")])]]),
         flash (msg_error_prefix ++ @exn_str demo_sheets detection_error) app0)).
Proof.
  split.
  - apply (proj1 (@index_processing_error basic_unicode (table_outside demo_redirects)
                    demo_sheets (u "POST") (FileStorage (Some (u "data.xls")) [7%N])
                    (u "data.xls") demo_world app0
                    ltac:(vm_compute; discriminate) eq_refl
                    ltac:(vm_compute; discriminate) ltac:(vm_compute; reflexivity))
             (ValueError (u "Excel file format cannot be determined"))).
    vm_compute. reflexivity.
  - apply (proj2 (@index_processing_error basic_unicode (table_outside demo_redirects)
                    demo_sheets (u "POST") (FileStorage (Some (u "data.xls")) [2%N])
                    (u "data.xls") demo_world app0
                    ltac:(vm_compute; discriminate) eq_refl
                    ltac:(vm_compute; discriminate) ltac:(vm_compute; reflexivity))
             (Frame 1 [(VStr (u "a"), Series DObject [VStr (u "saved-x")]);
                       (VStr (u "b"), Series DObject [VStr (u "nothing")])])).
    + vm_compute. reflexivity.
    + right. vm_compute. reflexivity.
Defined.

Section UploadFacts.
Context `{Unicode} `{Outside}.

Lemma loop_lists_with_heap w h b a rows :
  loop_lists (with_heap w h) b a rows = loop_lists w b a rows.
Proof.
  unfold loop_lists, after_loop. rewrite run_calls_with_heap.
  apply resolved_lists_cache. reflexivity.
Qed.

Lemma preview_fails_with_heap w h b a rows :
  preview_fails (with_heap w h) b a rows = preview_fails w b a rows.
Proof. unfold preview_fails. rewrite loop_lists_with_heap. reflexivity. Qed.

Lemma after_loop_with_heap w h b a rows :
  after_loop (with_heap w h) b a rows = with_heap (after_loop w b a rows) h.
Proof. unfold after_loop. apply run_calls_with_heap. Qed.

End UploadFacts.



(** X24.  An upload whose preview shows a [NaT].  The sheet is read, its
    two photo columns are detected and every photo cell is resolved; then
    the exception of the preview is caught: [index] redirects to the index
    page with [Ошибка обработки файла: NaTType does not support strftime],
    and no file and no name is stored. *)
Theorem index_preview_error `{Unicode} `{Outside} `{Spreadsheet} :
  forall method f filename df b a w ap,
    method <> method_get ->
    fs_filename f = Some filename -> filename <> [] ->
    allowed_file filename = true ->
    read_excel (excel_engine filename) (fs_content f) = Ok df ->
    detect_photo_columns df = (b, a) -> b <> VNone -> a <> VNone ->
    (forall c, c ∈ derived_labels -> c ∉ labels df) ->
    preview_fails w b a (iterrows df) = true ->
    exists w',
      index (Request method (Some f)) w ap
      = (Ok (RedirectTo EIndex),
         (w', {| last_file := last_file ap;
                 last_name := last_name ap;
                 flashes := flashes ap ++ [msg_error_prefix ++ exn_str nat_error] |}))
      /\ exn_str nat_error = u "NaTType does not support strftime"
      /\ cache w' = cache (after_loop w b a (iterrows df))
      /\ fetched w' = fetched (after_loop w b a (iterrows df)).
Proof.
  intros method f filename df b a w ap Hm Hname Hne Hal Hread Hdet Hbn Han Hfresh Hshown.
  destruct (detect_in_labels df b a Hdet) as [Hbin Hain].
  assert (Hbd : b ∉ derived_labels) by (intros Hin; exact (Hfresh b Hin (Hbin Hbn))).
  assert (Had : a ∉ derived_labels) by (intros Hin; exact (Hfresh a Hin (Hain Han))).
  set (w1 := with_heap w (heap w ++ [df])).
  assert (Hl : heap w1 !! length (heap w) = Some df).
  { cbn [heap w1 with_heap]. rewrite lookup_app_r by lia. rewrite Nat.sub_diag.
    reflexivity. }
  destruct (process_dataframe_cases w1 (length (heap w)) df b a Hl Hdet Hbn Han Hbd Had)
    as (w' & new & aug & sb & sa & _ & _ & _ & Hw' & _ & _ & _ & _ & _ & _ & _ & Hrun).
  unfold w1 in Hrun at 2. rewrite preview_fails_with_heap, Hshown in Hrun.
  exists w'.
  rewrite (index_try method f filename w ap Hm Hname Hne Hal).
  unfold read_and_process. rewrite Hread. fold w1. rewrite Hrun.
  split; [reflexivity|]. split; [reflexivity|].
  rewrite Hw'. unfold w1. rewrite after_loop_with_heap. split; reflexivity.
Qed.

(** X24 on an upload of the sample dataset with headers. *)
Lemma index_preview_error_witness :
  exists w',
    @index basic_unicode (table_outside demo_redirects) demo_sheets
      (demo_upload (u "Отчёт.XLSX") [1%N])
      (@world0 (table_outside demo_redirects) tt []) app0
    = (Ok (RedirectTo EIndex),
       (w', {| last_file := last_file app0;
               last_name := last_name app0;
               flashes := flashes app0
                          ++ [msg_error_prefix ++ @exn_str demo_sheets nat_error] |}))
    /\ @exn_str demo_sheets nat_error = u "NaTType does not support strftime"
    /\ cache w'
       = cache (@after_loop basic_unicode (table_outside demo_redirects)
                  (@world0 (table_outside demo_redirects) tt [])
                  (VStr (u " Фото ДО ")) (VStr (u "ФОТО после")) (iterrows demo_headers))
    /\ fetched w'
       = fetched (@after_loop basic_unicode (table_outside demo_redirects)
                    (@world0 (table_outside demo_redirects) tt [])
                    (VStr (u " Фото ДО ")) (VStr (u "ФОТО после")) (iterrows demo_headers)).
Proof.
  apply (@index_preview_error basic_unicode (table_outside demo_redirects)
           demo_sheets (u "POST") (FileStorage (Some (u "Отчёт.XLSX")) [1%N])
           (u "Отчёт.XLSX") demo_headers
           (VStr (u " Фото ДО ")) (VStr (u "ФОТО после"))
           (@world0 (table_outside demo_redirects) tt []) app0).
  - vm_compute. discriminate.
  - reflexivity.
  - vm_compute. discriminate.
  - vm_compute. reflexivity.
  - vm_compute. reflexivity.
  - vm_compute. reflexivity.
  - discriminate.
  - discriminate.
  - intros c Hc. vm_compute in Hc.
    repeat (apply elem_of_cons in Hc as [->|Hc]; [not_in_closed_list|]).
    inversion Hc.
  - vm_compute. reflexivity.
Defined.

(** ** Sessions *)

Lemma processed_name_not_default filename : processed_name filename <> default_name.
Proof.
  unfold processed_name. intros Heq. apply (f_equal (@rev N)) in Heq.
  rewrite rev_app_distr in Heq. vm_compute in Heq. discriminate.
Qed.

Section SessionFacts.
Context `{Unicode} `{Outside} `{Spreadsheet} `{Server}.

Lemma index_stored_whole req w ap :
  stored_whole ap -> stored_whole (snd (snd (index req w ap))).
Proof.
  intros Hst. unfold index.
  destruct (bool_decide (req_method req = method_get)); [exact Hst|].
  destruct (req_file req) as [f|]; [|exact Hst].
  destruct (negb (file_storage_bool f)); [exact Hst|].
  cbv zeta.
  destruct (negb (allowed_file (default [] (fs_filename f)))); [exact Hst|].
  destruct (read_and_process _ _ w) as [[out|exc] w1]; [|exact Hst].
  destruct (_ ≫= _) as [output|e]; [|exact Hst].
  cbn. split; [eexists; reflexivity | discriminate].
Qed.

Lemma serve_stored_whole st a : stored_whole (snd st) -> stored_whole (snd (serve st a)).
Proof.
  intros Hst. destruct a as [req|]; cbn [serve].
  - apply index_stored_whole. exact Hst.
  - unfold download_result.
    destruct (last_file (snd st)) as [output|] eqn:Hfile.
    + destruct (buf_closed output) eqn:Hclosed; cbn [fst snd]; [exact Hst|].
      destruct closes_sent_file eqn:Hserver; [|exact Hst].
      unfold stored_whole, close_stored in *. cbn [last_file last_name].
      rewrite Hfile in *.
      destruct (last_name (snd st)) as [name|]; [|exact Hst].
      destruct Hst as [Hname _]. split; [exact Hname | intros _; exact Hserver].
    + cbn [fst snd]. unfold stored_whole, flash in *. cbn [last_file last_name].
      rewrite Hfile in *. exact Hst.
Qed.

Lemma session_stored_whole acts st :
  stored_whole (snd st) -> stored_whole (snd (session acts st)).
Proof.
  unfold session. revert st. induction acts as [|a acts IH]; intros st Hst; [exact Hst|].
  cbn [foldl]. apply IH. apply serve_stored_whole. exact Hst.
Qed.

(** A download of a closed file changes nothing. *)
Lemma serve_closed st output :
  last_file (snd st) = Some output -> buf_closed output = true ->
  serve st Download = st.
Proof.
  intros Hfile Hclosed. cbn [serve]. unfold download_result.
  rewrite Hfile, Hclosed. destruct st; reflexivity.
Qed.

End SessionFacts.

(** X22.  After any sequence of requests to the two routes of a fresh
    application, [download_result] does one of three things.  With no
    file stored it redirects to the index page with the message that
    nothing was processed.  With an open file stored it sends its bytes
    under a name that [index] built: it ends in [.xlsx] and is never the
    default [result.xlsx].  With a closed file stored it raises the
    [ValueError] of [seek], and this only happens on a server that closes
    what it has sent. *)
Theorem download_result_after_session `{Unicode} `{Outside} `{Spreadsheet} `{Server} :
  forall acts w,
    match download_result (snd (session acts (w, app0))) with
    | (Ok (RedirectTo target), ap') =>
        target = EIndex
        /\ last_file (snd (session acts (w, app0))) = None
        /\ ap' = flash msg_no_result (snd (session acts (w, app0)))
    | (Ok (SendFile content name), ap') =>
        last_file (snd (session acts (w, app0))) = Some (Buffer content false)
        /\ ap' = snd (session acts (w, app0))
        /\ name <> default_name
        /\ endswith ext_xlsx name = true
        /\ exists filename, name = processed_name filename
    | (Ok (RenderIndex _ _), _) => False
    | (Raise e, ap') =>
        e = closed_file_error
        /\ ap' = snd (session acts (w, app0))
        /\ closes_sent_file = true
        /\ exists content, last_file (snd (session acts (w, app0)))
                           = Some (Buffer content true)
    end.
Proof.
  intros acts w.
  pose proof (session_stored_whole acts (w, app0) I) as Hst.
  unfold stored_whole in Hst. unfold download_result.
  destruct (last_file (snd (session acts (w, app0)))) as [[content closed]|];
    destruct (last_name (snd (session acts (w, app0)))) as [name|];
    try contradiction.
  - destruct Hst as [[filename ->] Hserver]. cbn [buf_closed buf_bytes] in *.
    destruct closed.
    + split; [reflexivity|]. split; [reflexivity|].
      split; [apply Hserver; reflexivity | eexists; reflexivity].
    + cbn [default from_option id].
      split; [reflexivity|]. split; [reflexivity|].
      split; [apply processed_name_not_default|].
      split; [apply processed_name_endswith | eexists; reflexivity].
  - repeat split.
Qed.

(** X25.  On a server that closes the file of a response it has sent, a
    processed file can be downloaded once: the first download sends the
    stored bytes, and every download after it raises the [ValueError] of
    [seek], until another upload succeeds. *)
Theorem download_result_twice `{Unicode} `{Outside} `{Spreadsheet} `{Server} :
  closes_sent_file = true ->
  forall w ap content n,
    last_file ap = Some (Buffer content false) ->
    fst (download_result ap)
    = Ok (SendFile content (default default_name (last_name ap)))
    /\ snd (session (repeat Download (S n)) (w, ap)) = close_stored ap
    /\ download_result (snd (session (repeat Download (S n)) (w, ap)))
       = (Raise closed_file_error, close_stored ap).
Proof.
  intros Hserver w ap content n Hfile.
  assert (Hfirst : serve (w, ap) Download = (w, close_stored ap)).
  { cbn [serve fst snd]. unfold download_result. rewrite Hfile. cbn [buf_closed].
    rewrite Hserver. reflexivity. }
  assert (Hclosed : last_file (close_stored ap) = Some (Buffer content true)).
  { unfold close_stored. cbn [last_file]. rewrite Hfile. reflexivity. }
  assert (Hrest : forall m, session (repeat Download m) (w, close_stored ap)
                            = (w, close_stored ap)).
  { induction m as [|m IH]; [reflexivity|].
    unfold session in *. cbn [repeat foldl].
    rewrite (serve_closed (w, close_stored ap) _ Hclosed eq_refl). exact IH. }
  split.
  { unfold download_result. rewrite Hfile. reflexivity. }
  assert (Hs : session (repeat Download (S n)) (w, ap) = (w, close_stored ap)).
  { unfold session. cbn [repeat foldl]. rewrite Hfirst. apply Hrest. }
  rewrite Hs. cbn [snd]. split; [reflexivity|].
  unfold download_result. rewrite Hclosed. reflexivity.
Qed.

(** X25 after an upload of the sample dataset whose photos all resolve. *)
Lemma download_result_twice_witness :
  fst (download_result
         (snd (snd (@index basic_unicode (table_outside demo_redirects) demo_sheets
                      (demo_upload (u "Отчёт.XLSX") [3%N])
                      (@world0 (table_outside demo_redirects) tt []) app0))))
  = Ok (SendFile
          (u "Фото ДОФото ПОСЛЕДата_время_доДата_время_послеИнтервал_мин")
          (default default_name
             (last_name
                (snd (snd (@index basic_unicode (table_outside demo_redirects) demo_sheets
                             (demo_upload (u "Отчёт.XLSX") [3%N])
                             (@world0 (table_outside demo_redirects) tt []) app0))))))
  /\ snd (@session basic_unicode (table_outside demo_redirects) demo_sheets closing_server
            (repeat Download 2)
            (@world0 (table_outside demo_redirects) tt [],
             snd (snd (@index basic_unicode (table_outside demo_redirects) demo_sheets
                         (demo_upload (u "Отчёт.XLSX") [3%N])
                         (@world0 (table_outside demo_redirects) tt []) app0))))
     = close_stored
         (snd (snd (@index basic_unicode (table_outside demo_redirects) demo_sheets
                      (demo_upload (u "Отчёт.XLSX") [3%N])
                      (@world0 (table_outside demo_redirects) tt []) app0)))
  /\ download_result
       (snd (@session basic_unicode (table_outside demo_redirects) demo_sheets
               closing_server (repeat Download 2)
               (@world0 (table_outside demo_redirects) tt [],
                snd (snd (@index basic_unicode (table_outside demo_redirects) demo_sheets
                            (demo_upload (u "Отчёт.XLSX") [3%N])
                            (@world0 (table_outside demo_redirects) tt []) app0)))))
     = (Raise closed_file_error,
        close_stored
          (snd (snd (@index basic_unicode (table_outside demo_redirects) demo_sheets
                       (demo_upload (u "Отчёт.XLSX") [3%N])
                       (@world0 (table_outside demo_redirects) tt []) app0)))).
Proof.
  apply (@download_result_twice basic_unicode (table_outside demo_redirects) demo_sheets
           closing_server eq_refl
           (@world0 (table_outside demo_redirects) tt [])
           (snd (snd (@index basic_unicode (table_outside demo_redirects) demo_sheets
                        (demo_upload (u "Отчёт.XLSX") [3%N])
                        (@world0 (table_outside demo_redirects) tt []) app0)))
           (u "Фото ДОФото ПОСЛЕДата_время_доДата_время_послеИнтервал_мин") 1).
  vm_compute. reflexivity.
Defined.
